(** * zelle-style: the ledger, the verification codes and the mail pipeline

    A shallow embedding of the server of the repository
    ([server/services/emailService.js], [server/utils/codeGenerator.js],
    [server/routes/auth.js], [server/routes/transactions.js]) and the
    properties of its specification that can be settled on it.

    Conventions of the embedding.
    - A JS number that carries money is an IEEE-754 binary64 value: Rocq's
      primitive [float], with its own [+], [-], [<?], [<=?].
    - [Date.now()] and ISO timestamps are the millisecond count, in [Z].
    - The module-level [Map]s [users], [verificationCodes], [rateLimits] and
      [failedEmails] are [gmap string _]: a key owns one object, and a
      mutation through a reference obtained by [get] is an update at that key.
      The [transactions] map is iterated by the history route, so it keeps its
      insertion order: an association list.
    - Everything the process reads from outside (the clock, the outcomes of
      [sgMail.send], the random sources) is a field of [World].
    - A handler is a function in the monad [M]: state passing with JS
      exceptions, where a [throw] keeps every mutation made before it. *)

From Stdlib Require Import Floats ZArith QArith Qround Lia Lqa List Ascii String Sorted Permutation.
From stdpp Require Import gmap strings list pretty.
Import ListNotations.

Set Warnings "-inexact-float".
Local Open Scope string_scope.
Local Open Scope list_scope.
Local Open Scope Z_scope.

(** ** Records of the server *)

(** An element of [logEntry.errors]. *)
Record AttemptError := {
  ae_attempt : nat;
  ae_error : string;
  ae_timestamp : Z
}.

(** The message handed to [sgMail.send]. The rendered [html] and [text]
    bodies are left out, no branch of the server reads them. *)
Record EmailData := {
  ed_to : string;
  ed_subject : string
}.

(** [logEntry] of [sendEmailWithRetry]. [completedAt] and [failedAt] are
    absent until they are assigned. *)
Record LogEntry := {
  log_id : string;
  log_to : string;
  log_type : string;
  log_timestamp : Z;
  log_attempts : nat;
  log_success : bool;
  log_errors : list AttemptError;
  log_completedAt : option Z;
  log_failedAt : option Z
}.

(** A value of [failedEmails]: [{ ...logEntry, emailData }]. *)
Record FailedEmail := {
  fe_log : LogEntry;
  fe_emailData : EmailData
}.

(** A value of [verificationCodes]. *)
Record VerificationRecord := {
  vr_code : string;
  vr_expiresAt : Z;
  vr_attempts : nat
}.

(** A value of [users] ([phone], [password] and [createdAt] are never read
    by the modelled routes and are left out). *)
Record User := {
  u_id : string;
  u_name : string;
  u_email : string;
  u_verified : bool;
  u_balance : float
}.

(** A value of [transactions]. The send route and the request route store
    objects with different field names; a field an object does not have reads
    as [undefined], here [None]. *)
Inductive TxRecord :=
| SendTx (id senderEmail senderName recipientEmail recipientName : string)
         (amount : float) (note : string) (timestamp : Z)
| RequestTx (id requesterEmail requesterName requesteeEmail : string)
            (amount : float) (note : string) (timestamp : Z).

(** ** The state *)

Record World := {
  now : Z;                        (* Date.now() *)
  transport : list (option string);
    (* outcomes of the next calls of sgMail.send: None resolves,
       Some msg rejects with an Error of that message; past the end of the
       list every call resolves *)
  randoms : list Q;               (* next results of Math.random() *)
  idents : list string;           (* next opaque random strings *)
  slept : list Z                  (* delays of the setTimeout calls so far *)
}.

Record EmailService := {
  verificationCodes : gmap string VerificationRecord;
  rateLimits : gmap string (list Z);
  failedEmails : gmap string FailedEmail;
  emailLogs : list LogEntry
}.

Record Server := {
  world : World;
  emailService : EmailService;
  users : gmap string User;
  transactions : list (string * TxRecord)
}.

Definition set_world (f : World → World) (s : Server) : Server :=
  {| world := f (world s); emailService := emailService s;
     users := users s; transactions := transactions s |}.

Definition set_emailService (f : EmailService → EmailService) (s : Server) : Server :=
  {| world := world s; emailService := f (emailService s);
     users := users s; transactions := transactions s |}.

Definition set_users (f : gmap string User → gmap string User) (s : Server) : Server :=
  {| world := world s; emailService := emailService s;
     users := f (users s); transactions := transactions s |}.

Definition set_transactions
    (f : list (string * TxRecord) → list (string * TxRecord)) (s : Server) : Server :=
  {| world := world s; emailService := emailService s;
     users := users s; transactions := f (transactions s) |}.

Definition set_now (t : Z) (w : World) : World :=
  {| now := t; transport := transport w; randoms := randoms w;
     idents := idents w; slept := slept w |}.

Definition set_transport (tr : list (option string)) (w : World) : World :=
  {| now := now w; transport := tr; randoms := randoms w;
     idents := idents w; slept := slept w |}.

Definition set_randoms (rs : list Q) (w : World) : World :=
  {| now := now w; transport := transport w; randoms := rs;
     idents := idents w; slept := slept w |}.

Definition set_idents (ids : list string) (w : World) : World :=
  {| now := now w; transport := transport w; randoms := randoms w;
     idents := ids; slept := slept w |}.

Definition set_verificationCodes
    (f : gmap string VerificationRecord → gmap string VerificationRecord)
    (e : EmailService) : EmailService :=
  {| verificationCodes := f (verificationCodes e); rateLimits := rateLimits e;
     failedEmails := failedEmails e; emailLogs := emailLogs e |}.

Definition set_rateLimits
    (f : gmap string (list Z) → gmap string (list Z)) (e : EmailService) : EmailService :=
  {| verificationCodes := verificationCodes e; rateLimits := f (rateLimits e);
     failedEmails := failedEmails e; emailLogs := emailLogs e |}.

Definition set_failedEmails
    (f : gmap string FailedEmail → gmap string FailedEmail) (e : EmailService) : EmailService :=
  {| verificationCodes := verificationCodes e; rateLimits := rateLimits e;
     failedEmails := f (failedEmails e); emailLogs := emailLogs e |}.

Definition set_emailLogs (f : list LogEntry → list LogEntry) (e : EmailService) : EmailService :=
  {| verificationCodes := verificationCodes e; rateLimits := rateLimits e;
     failedEmails := failedEmails e; emailLogs := f (emailLogs e) |}.

(** The clock moved from outside, between two requests. *)
Definition at_time (t : Z) (s : Server) : Server := set_world (set_now t) s.

(** The behaviour of the mail transport chosen from outside. *)
Definition with_transport (tr : list (option string)) (s : Server) : Server :=
  set_world (set_transport tr) s.

(** ** The monad of handlers *)

Inductive Completion (A : Type) : Type :=
| Normal (a : A)
| Thrown (message : string).
Arguments Normal {A} a.
Arguments Thrown {A} message.

Definition M (A : Type) : Type := Server → Completion A * Server.

Definition ret {A} (a : A) : M A := λ s, (Normal a, s).

Definition bind {A B} (m : M A) (f : A → M B) : M B :=
  λ s, match m s with
       | (Normal a, s') => f a s'
       | (Thrown e, s') => (Thrown e, s')
       end.

Definition throw {A} (message : string) : M A := λ s, (Thrown message, s).

(** [try { m } catch (error) { h error.message }] *)
Definition tryCatch {A} (m : M A) (h : string → M A) : M A :=
  λ s, match m s with
       | (Normal a, s') => (Normal a, s')
       | (Thrown e, s') => h e s'
       end.

Definition gets {A} (f : Server → A) : M A := λ s, (Normal (f s), s).

Definition modify (f : Server → Server) : M unit := λ s, (Normal tt, f s).

Declare Scope js_scope.
Delimit Scope js_scope with js.
Notation "'let*' x ':=' m 'in' k" := (bind m (λ x, k))
  (at level 10, x name, m at level 100, k at level 200) : js_scope.
Local Open Scope js_scope.

(** ** The outside world *)

(** [Date.now()] *)
Definition dateNow : M Z := gets (λ s, now (world s)).

(** [await new Promise(resolve => setTimeout(resolve, delay))] *)
Definition sleep (delay : Z) : M unit :=
  modify (set_world (λ w,
    {| now := now w + delay; transport := transport w; randoms := randoms w;
       idents := idents w; slept := slept w ++ [delay] |})).

(** [Math.random()]: the next draw, a number of [0, 1). *)
Definition mathRandom : M Q :=
  λ s, match randoms (world s) with
       | [] => (Normal 0%Q, s)
       | r :: rs => (Normal r, set_world (set_randoms rs) s)
       end.

(** An opaque random string: [Math.random().toString(36).substr(2, 9)],
    [crypto.randomBytes(6).toString('hex').toUpperCase()], [uuidv4()]. *)
Definition randomIdent : M string :=
  λ s, match idents (world s) with
       | [] => (Normal "", s)
       | i :: rest => (Normal i, set_world (set_idents rest) s)
       end.

(** [await sgMail.send(emailData)]: resolves, or rejects with an [Error]. *)
Definition sgMail_send (emailData : EmailData) : M unit :=
  λ s, match transport (world s) with
       | [] => (Normal tt, s)
       | None :: tr => (Normal tt, set_world (set_transport tr) s)
       | Some msg :: tr => (Thrown msg, set_world (set_transport tr) s)
       end.

(** ** server/utils/codeGenerator.js *)

(** [Math.floor(100000 + r * 900000).toString()] for the draw [r] of
    [Math.random()]. The draw is the rational it denotes and the affine map
    is evaluated exactly. *)
Definition verificationCodeOf (r : Q) : string :=
  pretty (Qfloor (100000 + r * 900000)%Q).

Definition generateVerificationCode : M string :=
  let* r := mathRandom in ret (verificationCodeOf r).

(** ['TX-' + crypto.randomBytes(6).toString('hex').toUpperCase()] *)
Definition generateTransactionId : M string :=
  let* hex := randomIdent in ret ("TX-" +:+ hex).

(** ** JS arrays *)

Section Arrays.

Context {A : Type}.

(** [array.sort((a, b) => new Date(b.timestamp) - new Date(a.timestamp))]
    for the timestamp read by [key]: a stable sort, newest first. *)
Fixpoint insertDesc (key : A → Z) (x : A) (l : list A) : list A :=
  match l with
  | [] => [x]
  | y :: l' => if key y <=? key x then x :: y :: l' else y :: insertDesc key x l'
  end.

Definition sortDesc (key : A → Z) (l : list A) : list A :=
  fold_right (insertDesc key) [] l.

(** [array.slice(0, limit)]: a negative [limit] counts from the end. *)
Definition slice0 (limit : Z) (l : list A) : list A :=
  if limit <? 0 then firstn (Z.to_nat (Z.of_nat (length l) + limit)) l
  else firstn (Z.to_nat limit) l.

End Arrays.

(** ** server/services/emailService.js *)

Module EmailSvc.

(** What [sendEmailWithRetry] resolves to: [{ success: true, emailId, attempts }]. *)
Record SendResult := {
  sr_emailId : string;
  sr_attempts : nat
}.

(** [Math.pow(2, attempt - 2) * 2000], evaluated by the loop when
    [attempt > 1] only. *)
Definition backoffDelay (attempt : nat) : Z :=
  2 ^ (Z.of_nat attempt - 2) * 2000.

(** The suspension before an attempt: none before the first one. *)
Definition delayBefore (attempt : nat) : Z :=
  if (1 <? attempt)%nat then backoffDelay attempt else 0.

Definition newLogEntry (emailId to type : string) (t : Z) : LogEntry :=
  {| log_id := emailId; log_to := to; log_type := type; log_timestamp := t;
     log_attempts := 0; log_success := false; log_errors := [];
     log_completedAt := None; log_failedAt := None |}.

Definition log_setAttempts (n : nat) (l : LogEntry) : LogEntry :=
  {| log_id := log_id l; log_to := log_to l; log_type := log_type l;
     log_timestamp := log_timestamp l; log_attempts := n;
     log_success := log_success l; log_errors := log_errors l;
     log_completedAt := log_completedAt l; log_failedAt := log_failedAt l |}.

Definition log_succeed (t : Z) (l : LogEntry) : LogEntry :=
  {| log_id := log_id l; log_to := log_to l; log_type := log_type l;
     log_timestamp := log_timestamp l; log_attempts := log_attempts l;
     log_success := true; log_errors := log_errors l;
     log_completedAt := Some t; log_failedAt := log_failedAt l |}.

Definition log_pushError (e : AttemptError) (l : LogEntry) : LogEntry :=
  {| log_id := log_id l; log_to := log_to l; log_type := log_type l;
     log_timestamp := log_timestamp l; log_attempts := log_attempts l;
     log_success := log_success l; log_errors := log_errors l ++ [e];
     log_completedAt := log_completedAt l; log_failedAt := log_failedAt l |}.

Definition log_fail (t : Z) (l : LogEntry) : LogEntry :=
  {| log_id := log_id l; log_to := log_to l; log_type := log_type l;
     log_timestamp := log_timestamp l; log_attempts := log_attempts l;
     log_success := false; log_errors := log_errors l;
     log_completedAt := log_completedAt l; log_failedAt := Some t |}.

(** [error.message || 'Unknown error'] *)
Definition errorMessage (message : string) : string :=
  if decide (message = "") then "Unknown error" else message.

Definition failureMessage (maxRetries : nat) (errorMsg : string) : string :=
  "Failed to send email after " +:+ pretty maxRetries +:+ " attempts: " +:+ errorMsg.

(** The [try] block of one iteration of the loop of [sendEmailWithRetry]. *)
Definition tryAttempt (attempt : nat) (emailId : string) (emailData : EmailData)
    (logEntry : LogEntry) : M (option SendResult) :=
  let* _ := (if (1 <? attempt)%nat then sleep (backoffDelay attempt) else ret tt) in
  let* _ := sgMail_send emailData in
  let* t := dateNow in
  let logEntry := log_succeed t logEntry in
  let* _ := modify (set_emailService (set_emailLogs (λ ls, ls ++ [logEntry]))) in
  let* _ := modify (set_emailService (set_failedEmails (delete emailId))) in
  ret (Some {| sr_emailId := emailId; sr_attempts := attempt |}).

(** The [for] loop of [sendEmailWithRetry], entered at [attempt] with
    [remaining] iterations left before [attempt <= maxRetries] fails. Falling
    out of the loop returns [undefined], here [None]. *)
Fixpoint attemptLoop (remaining attempt maxRetries : nat) (emailId : string)
    (emailData : EmailData) (type : string) (logEntry : LogEntry)
    : M (option SendResult) :=
  match remaining with
  | O => ret None
  | S remaining' =>
    let logEntry := log_setAttempts attempt logEntry in
    tryCatch
      (tryAttempt attempt emailId emailData logEntry)
      (λ message,
       let errorMsg := errorMessage message in
       let* t := dateNow in
       let logEntry := log_pushError
         {| ae_attempt := attempt; ae_error := errorMsg; ae_timestamp := t |}
         logEntry in
       if (attempt =? maxRetries)%nat then
         let* t := dateNow in
         let logEntry := log_fail t logEntry in
         let* _ := modify (set_emailService (set_emailLogs (λ ls, ls ++ [logEntry]))) in
         let* _ := modify (set_emailService (set_failedEmails
                     (insert emailId {| fe_log := logEntry; fe_emailData := emailData |}))) in
         throw (failureMessage maxRetries errorMsg)
       else
         attemptLoop remaining' (S attempt) maxRetries emailId emailData type logEntry)
  end.

(** [`${Date.now()}-${Math.random().toString(36).substr(2, 9)}`] *)
Definition newEmailId : M string :=
  let* t := dateNow in
  let* suffix := randomIdent in
  ret (pretty t +:+ "-" +:+ suffix).

Definition sendEmailWithRetry (emailData : EmailData) (type : string)
    (maxRetries : nat) : M (option SendResult) :=
  let* emailId := newEmailId in
  let* t := dateNow in
  attemptLoop maxRetries 1 maxRetries emailId emailData type
    (newLogEntry emailId (ed_to emailData) type t).

(** [result.emailId] where [result] may be [undefined]. *)
Definition emailIdOf (result : option SendResult) : M string :=
  match result with
  | Some r => ret (sr_emailId r)
  | None => throw "Cannot read properties of undefined (reading 'emailId')"
  end.

(** [getFailedEmails()], up to the order of the values. *)
Definition getFailedEmails (s : Server) : list FailedEmail :=
  snd <$> map_to_list (failedEmails (emailService s)).

Definition retryFailedEmail (emailId : string) : M (option SendResult) :=
  let* failedEmail := gets (λ s, failedEmails (emailService s) !! emailId) in
  match failedEmail with
  | None => throw "Failed email not found"
  | Some fe =>
    tryCatch (sendEmailWithRetry (fe_emailData fe) (log_type (fe_log fe)) 3)
             (λ message, throw ("Retry failed: " +:+ message))
  end.

Definition rateLimitKey (email type : string) : string := email +:+ ":" +:+ type.

Definition rateLimitMessage : string :=
  "Rate limit exceeded. Please wait before requesting another code.".

Definition checkRateLimit (email type : string) : M unit :=
  let key := rateLimitKey email type in
  let* t := dateNow in
  let hourAgo := t - 60 * 60 * 1000 in
  let* attempts := gets (λ s, default [] (rateLimits (emailService s) !! key)) in
  let recentAttempts := List.filter (λ timestamp, hourAgo <? timestamp) attempts in
  let* _ := modify (set_emailService (set_rateLimits (insert key recentAttempts))) in
  if (3 <=? length recentAttempts)%nat then throw rateLimitMessage
  else modify (set_emailService (set_rateLimits (insert key (recentAttempts ++ [t])))).

(** What [sendVerificationCode] resolves to: [{ success: true, expiresAt, emailId }]. *)
Record Issued := {
  is_expiresAt : Z;
  is_emailId : string
}.

Definition sendVerificationCode (email name : string) : M Issued :=
  tryCatch
    (let* _ := checkRateLimit email "verification" in
     let* code := generateVerificationCode in
     let* t := dateNow in
     let expiresAt := t + 10 * 60 * 1000 in
     let* _ := modify (set_emailService (set_verificationCodes
                 (insert email {| vr_code := code; vr_expiresAt := expiresAt;
                                  vr_attempts := 0 |}))) in
     let msg := {| ed_to := email; ed_subject := "Verify Your Zelle Account" |} in
     let* result := sendEmailWithRetry msg "verification" 3 in
     let* emailId := emailIdOf result in
     ret {| is_expiresAt := expiresAt; is_emailId := emailId |})
    (λ message, throw message).

(** The receipt of a transaction, [type] being ['sent'] or ['received']. The
    subject is modelled without its [- $amount] suffix. *)
Definition sendTransactionReceipt (email type : string) : M string :=
  tryCatch
    (let msg := {| ed_to := email;
                   ed_subject := if decide (type = "sent") then "Zelle Payment Sent"
                                 else "Zelle Payment Received" |} in
     let* result := sendEmailWithRetry msg "receipt" 3 in
     emailIdOf result)
    (λ message, throw message).

Definition sendWelcomeEmail (email name : string) : M string :=
  tryCatch
    (let msg := {| ed_to := email; ed_subject := "Welcome to Zelle!" |} in
     let* result := sendEmailWithRetry msg "welcome" 3 in
     emailIdOf result)
    (λ message, throw message).

Definition vr_increment (r : VerificationRecord) : VerificationRecord :=
  {| vr_code := vr_code r; vr_expiresAt := vr_expiresAt r;
     vr_attempts := S (vr_attempts r) |}.

Definition msgNoCode : string := "No verification code found. Please request a new one.".
Definition msgExpired : string := "Verification code has expired. Please request a new one.".
Definition msgTooMany : string := "Too many failed attempts. Please request a new code.".
Definition msgInvalid : string := "Invalid verification code.".

Definition verifyCode (email inputCode : string) : M bool :=
  let* stored := gets (λ s, verificationCodes (emailService s) !! email) in
  match stored with
  | None => throw msgNoCode
  | Some stored =>
    let* t := dateNow in
    if vr_expiresAt stored <? t then
      let* _ := modify (set_emailService (set_verificationCodes (delete email))) in
      throw msgExpired
    else if (3 <=? vr_attempts stored)%nat then
      let* _ := modify (set_emailService (set_verificationCodes (delete email))) in
      throw msgTooMany
    else if negb (bool_decide (vr_code stored = inputCode)) then
      let* _ := modify (set_emailService (set_verificationCodes
                  (insert email (vr_increment stored)))) in
      throw msgInvalid
    else
      let* _ := modify (set_emailService (set_verificationCodes (delete email))) in
      ret true
  end.

(** [getEmailLogs(limit)]: [sort] reorders the stored array itself. *)
Definition getEmailLogs (limit : Z) : M (list LogEntry) :=
  let* _ := modify (set_emailService (set_emailLogs (sortDesc log_timestamp))) in
  let* logs := gets (λ s, emailLogs (emailService s)) in
  ret (slice0 limit logs).

End EmailSvc.

(** ** JS values at the routes *)

(** [!s] for a string. *)
Definition falsyString (s : string) : bool := bool_decide (s = "").

(** [!x] for a number: [0], [-0] and [NaN]. *)
Definition falsyNumber (x : float) : bool := PrimFloat.eqb x 0%float || is_nan x.

(** [parseFloat(x)] for a number [x]: the round trip through its decimal
    rendering, which only changes [-0] into [0]. *)
Definition parseFloat (x : float) : float :=
  if PrimFloat.eqb x 0%float then 0%float else x.

(** [s || ''] for a string. *)
Definition orEmpty (s : string) : string := if falsyString s then "" else s.

(** [s.split('@')[0]] *)
Fixpoint localPart (s : string) : string :=
  match s with
  | EmptyString => EmptyString
  | String c rest =>
    if Ascii.eqb c "@"%char then EmptyString else String c (localPart rest)
  end.

(** [res.status(status).json(body)]; an error body is [{ error, code }]. *)
Inductive Response (A : Type) : Type :=
| Json (status : nat) (body : A)
| JsonError (status : nat) (error : string) (code : option string).
Arguments Json {A} status body.
Arguments JsonError {A} status error code.

(** ** server/routes/transactions.js *)

Module Transactions.

(** [transactions.set(k, v)]: an existing key keeps its place. *)
Fixpoint mapSet (k : string) (v : TxRecord) (m : list (string * TxRecord))
    : list (string * TxRecord) :=
  match m with
  | [] => [(k, v)]
  | (k', v') :: m' =>
    if decide (k' = k) then (k, v) :: m' else (k', v') :: mapSet k v m'
  end.

(** [transactions.get(k)] *)
Fixpoint mapGet (k : string) (m : list (string * TxRecord)) : option TxRecord :=
  match m with
  | [] => None
  | (k', v') :: m' => if decide (k' = k) then Some v' else mapGet k m'
  end.

(** Field reads on a stored object. *)
Definition tx_id (tx : TxRecord) : string :=
  match tx with
  | SendTx id _ _ _ _ _ _ _ | RequestTx id _ _ _ _ _ _ => id
  end.

Definition tx_senderEmail (tx : TxRecord) : option string :=
  match tx with
  | SendTx _ senderEmail _ _ _ _ _ _ => Some senderEmail
  | RequestTx _ _ _ _ _ _ _ => None
  end.

Definition tx_senderName (tx : TxRecord) : option string :=
  match tx with
  | SendTx _ _ senderName _ _ _ _ _ => Some senderName
  | RequestTx _ _ _ _ _ _ _ => None
  end.

Definition tx_recipientEmail (tx : TxRecord) : option string :=
  match tx with
  | SendTx _ _ _ recipientEmail _ _ _ _ => Some recipientEmail
  | RequestTx _ _ _ _ _ _ _ => None
  end.

Definition tx_recipientName (tx : TxRecord) : option string :=
  match tx with
  | SendTx _ _ _ _ recipientName _ _ _ => Some recipientName
  | RequestTx _ _ _ _ _ _ _ => None
  end.

Definition tx_requesterEmail (tx : TxRecord) : option string :=
  match tx with
  | SendTx _ _ _ _ _ _ _ _ => None
  | RequestTx _ requesterEmail _ _ _ _ _ => Some requesterEmail
  end.

Definition tx_requesteeEmail (tx : TxRecord) : option string :=
  match tx with
  | SendTx _ _ _ _ _ _ _ _ => None
  | RequestTx _ _ _ requesteeEmail _ _ _ => Some requesteeEmail
  end.

Definition tx_amount (tx : TxRecord) : float :=
  match tx with
  | SendTx _ _ _ _ _ amount _ _ | RequestTx _ _ _ _ amount _ _ => amount
  end.

Definition tx_note (tx : TxRecord) : string :=
  match tx with
  | SendTx _ _ _ _ _ _ note _ | RequestTx _ _ _ _ _ note _ => note
  end.

Definition tx_timestamp (tx : TxRecord) : Z :=
  match tx with
  | SendTx _ _ _ _ _ _ _ timestamp | RequestTx _ _ _ _ _ _ timestamp => timestamp
  end.

Definition tx_status (tx : TxRecord) : string :=
  match tx with
  | SendTx _ _ _ _ _ _ _ _ => "completed"
  | RequestTx _ _ _ _ _ _ _ => "pending"
  end.

(** [req.body] of POST /send. *)
Record SendBody := {
  sb_recipientEmail : string;
  sb_amount : float;
  sb_note : string
}.

(** The [transaction] object of the reply of POST /send. *)
Record TxSummary := {
  ts_id : string;
  ts_recipientEmail : string;
  ts_recipientName : string;
  ts_amount : float;
  ts_note : string;
  ts_timestamp : Z;
  ts_status : string
}.

Record SendReply := {
  sr_message : string;
  sr_transaction : TxSummary;
  sr_newBalance : float
}.

(** [sender.balance -= x] and [recipient.balance += x] on the stored object. *)
Definition debit (x : float) (u : User) : User :=
  {| u_id := u_id u; u_name := u_name u; u_email := u_email u;
     u_verified := u_verified u; u_balance := PrimFloat.sub (u_balance u) x |}.

Definition credit (x : float) (u : User) : User :=
  {| u_id := u_id u; u_name := u_name u; u_email := u_email u;
     u_verified := u_verified u; u_balance := PrimFloat.add (u_balance u) x |}.

Definition msgNotVerifiedSend : string :=
  "Please verify your email address before sending money".

(** The block that sends the receipts: the sender's, then the recipient's
    when the recipient is a user; an error of either is logged and dropped. *)
Definition sendReceipts (senderEmail recipientEmail : string)
    (recipient : option User) : M unit :=
  tryCatch
    (let* _ := EmailSvc.sendTransactionReceipt senderEmail "sent" in
     match recipient with
     | Some _ =>
       let* _ := EmailSvc.sendTransactionReceipt recipientEmail "received" in
       ret tt
     | None => ret tt
     end)
    (λ _, ret tt).

(** POST /send, for the authenticated [senderEmail] ([req.user.email]). *)
Definition postSend (senderEmail : string) (body : SendBody) : M (Response SendReply) :=
  let recipientEmail := sb_recipientEmail body in
  let amount := sb_amount body in
  let note := sb_note body in
  tryCatch
    (if falsyString recipientEmail || falsyNumber amount then
       ret (JsonError 400 "Recipient email and amount are required" None)
     else if PrimFloat.leb amount 0%float then
       ret (JsonError 400 "Amount must be greater than 0" None)
     else
       let* sender := gets (λ s, users s !! senderEmail) in
       match sender with
       | None => ret (JsonError 404 "Sender not found" None)
       | Some sender =>
         if negb (u_verified sender) then
           ret (JsonError 403 msgNotVerifiedSend (Some "EMAIL_NOT_VERIFIED"))
         else if PrimFloat.ltb (u_balance sender) amount then
           ret (JsonError 400 "Insufficient funds" None)
         else
           let* recipient := gets (λ s, users s !! recipientEmail) in
           let recipientName :=
             match recipient with
             | Some r => u_name r
             | None => localPart recipientEmail
             end in
           let* transactionId := generateTransactionId in
           let* timestamp := dateNow in
           let transaction :=
             SendTx transactionId senderEmail (u_name sender) recipientEmail
                    recipientName (parseFloat amount) (orEmpty note) timestamp in
           let* _ := modify (set_users (alter (debit (parseFloat amount)) senderEmail)) in
           let* _ := match recipient with
                     | Some _ =>
                       modify (set_users (alter (credit (parseFloat amount)) recipientEmail))
                     | None => ret tt
                     end in
           let* _ := modify (set_transactions (mapSet transactionId transaction)) in
           let* _ := sendReceipts senderEmail recipientEmail recipient in
           let* newBalance := gets (λ s,
             match users s !! senderEmail with
             | Some u => u_balance u
             | None => u_balance sender
             end) in
           ret (Json 200
             {| sr_message := "Payment sent successfully";
                sr_transaction :=
                  {| ts_id := transactionId; ts_recipientEmail := recipientEmail;
                     ts_recipientName := recipientName;
                     ts_amount := parseFloat amount; ts_note := orEmpty note;
                     ts_timestamp := timestamp; ts_status := "completed" |};
                sr_newBalance := newBalance |})
       end)
    (λ _, ret (JsonError 500 "Failed to send money" None)).

(** [req.body] of POST /request. *)
Record RequestBody := {
  rq_requesteeEmail : string;
  rq_amount : float;
  rq_note : string
}.

(** The [request] object of the reply of POST /request. *)
Record RequestSummary := {
  rs_id : string;
  rs_requesteeEmail : string;
  rs_amount : float;
  rs_note : string;
  rs_timestamp : Z;
  rs_status : string
}.

Definition msgNotVerifiedRequest : string :=
  "Please verify your email address before requesting money".

(** POST /request, for the authenticated [requesterEmail]. *)
Definition postRequest (requesterEmail : string) (body : RequestBody)
    : M (Response RequestSummary) :=
  let requesteeEmail := rq_requesteeEmail body in
  let amount := rq_amount body in
  let note := rq_note body in
  tryCatch
    (if falsyString requesteeEmail || falsyNumber amount then
       ret (JsonError 400 "Requestee email and amount are required" None)
     else if PrimFloat.leb amount 0%float then
       ret (JsonError 400 "Amount must be greater than 0" None)
     else
       let* requester := gets (λ s, users s !! requesterEmail) in
       match requester with
       | None => ret (JsonError 404 "Requester not found" None)
       | Some requester =>
         if negb (u_verified requester) then
           ret (JsonError 403 msgNotVerifiedRequest (Some "EMAIL_NOT_VERIFIED"))
         else
           let* requestId := generateTransactionId in
           let* timestamp := dateNow in
           let request :=
             RequestTx requestId requesterEmail (u_name requester) requesteeEmail
                       (parseFloat amount) (orEmpty note) timestamp in
           let* _ := modify (set_transactions (mapSet requestId request)) in
           ret (Json 200
             {| rs_id := requestId; rs_requesteeEmail := requesteeEmail;
                rs_amount := parseFloat amount; rs_note := orEmpty note;
                rs_timestamp := timestamp; rs_status := "pending" |})
       end)
    (λ _, ret (JsonError 500 "Failed to send money request" None)).

(** An element of the reply of GET /history and the reply of GET /:id. *)
Record TxView := {
  tv_id : string;
  tv_type : string;
  tv_name : option string;
  tv_email : option string;
  tv_amount : float;
  tv_note : string;
  tv_timestamp : Z;
  tv_status : string
}.

(** [transaction.senderEmail === userEmail] and its sibling. *)
Definition isSender (userEmail : string) (tx : TxRecord) : bool :=
  bool_decide (tx_senderEmail tx = Some userEmail).

Definition isRecipient (userEmail : string) (tx : TxRecord) : bool :=
  bool_decide (tx_recipientEmail tx = Some userEmail).

Definition viewFor (userEmail : string) (tx : TxRecord) : TxView :=
  let isReceived := isRecipient userEmail tx in
  {| tv_id := tx_id tx;
     tv_type := if isReceived then "received" else "sent";
     tv_name := if isReceived then tx_senderName tx else tx_recipientName tx;
     tv_email := if isReceived then tx_senderEmail tx else tx_recipientEmail tx;
     tv_amount := tx_amount tx;
     tv_note := tx_note tx;
     tv_timestamp := tx_timestamp tx;
     tv_status := tx_status tx |}.

(** [userTransactions.sort((a, b) => new Date(b.timestamp) - new Date(a.timestamp))]:
    a stable sort, newest first. *)
Fixpoint insertNewestFirst (x : TxView) (l : list TxView) : list TxView :=
  match l with
  | [] => [x]
  | y :: l' =>
    if tv_timestamp y <=? tv_timestamp x then x :: y :: l'
    else y :: insertNewestFirst x l'
  end.

Definition sortNewestFirst (l : list TxView) : list TxView :=
  fold_right insertNewestFirst [] l.

(** The views pushed by the [for ... of transactions] loop. *)
Definition userTransactions (userEmail : string) (m : list (string * TxRecord))
    : list TxView :=
  viewFor userEmail <$>
    List.filter (λ tx, isSender userEmail tx || isRecipient userEmail tx) (snd <$> m).

(** GET /history, for the authenticated [userEmail]. *)
Definition getHistory (userEmail : string) : M (Response (list TxView)) :=
  tryCatch
    (let* m := gets transactions in
     ret (Json 200 (sortNewestFirst (userTransactions userEmail m))))
    (λ _, ret (JsonError 500 "Failed to get transaction history" None)).

(** GET /:transactionId, for the authenticated [userEmail]. *)
Definition getTransaction (transactionId userEmail : string) : M (Response TxView) :=
  tryCatch
    (let* transaction := gets (λ s, mapGet transactionId (transactions s)) in
     match transaction with
     | None => ret (JsonError 404 "Transaction not found" None)
     | Some transaction =>
       if negb (isSender userEmail transaction) && negb (isRecipient userEmail transaction)
       then ret (JsonError 403 "Access denied" None)
       else ret (Json 200 (viewFor userEmail transaction))
     end)
    (λ _, ret (JsonError 500 "Failed to get transaction details" None)).

End Transactions.

(** ** server/routes/auth.js *)

Module Auth.

(** [req.body] of POST /register. *)
Record RegisterBody := {
  rb_name : string;
  rb_email : string;
  rb_phone : string;
  rb_password : string
}.

Record RegisterReply := {
  rr_message : string;
  rr_userId : string
}.

Definition msgRegistered : string :=
  "User registered successfully. Please check your email for verification code.".

(** POST /register. [bcrypt.hash] has no effect on the modelled state. *)
Definition postRegister (body : RegisterBody) : M (Response RegisterReply) :=
  let name := rb_name body in
  let email := rb_email body in
  tryCatch
    (if falsyString name || falsyString email || falsyString (rb_phone body)
        || falsyString (rb_password body) then
       ret (JsonError 400 "All fields are required" None)
     else
       let* known := gets (λ s, bool_decide (is_Some (users s !! email))) in
       if known : bool then ret (JsonError 409 "User already exists" None)
       else if (String.length (rb_password body) <? 8)%nat then
         ret (JsonError 400 "Password must be at least 8 characters long" None)
       else
         let* id := randomIdent in
         let user := {| u_id := id; u_name := name; u_email := email;
                        u_verified := false; u_balance := 0%float |} in
         let* _ := modify (set_users (insert email user)) in
         let* _ := EmailSvc.sendVerificationCode email name in
         ret (Json 201 {| rr_message := msgRegistered; rr_userId := id |}))
    (λ message,
     ret (JsonError 500 (if falsyString message then "Registration failed" else message)
                    None)).

(** The [user] object of the replies ([phone] left out, as in [User]). *)
Record UserReply := {
  ur_id : string;
  ur_name : string;
  ur_email : string;
  ur_balance : float
}.

Definition userReply (u : User) : UserReply :=
  {| ur_id := u_id u; ur_name := u_name u; ur_email := u_email u;
     ur_balance := u_balance u |}.

(** [user.verified = true] on the stored object. *)
Definition markVerified (u : User) : User :=
  {| u_id := u_id u; u_name := u_name u; u_email := u_email u;
     u_verified := true; u_balance := u_balance u |}.

(** POST /verify-email. The signed token of the reply is left out:
    [jwt.sign] has no effect on the modelled state. *)
Definition postVerifyEmail (email code : string) : M (Response UserReply) :=
  tryCatch
    (if falsyString email || falsyString code then
       ret (JsonError 400 "Email and verification code are required" None)
     else
       let* user := gets (λ s, users s !! email) in
       match user with
       | None => ret (JsonError 404 "User not found" None)
       | Some user =>
         let* _ := EmailSvc.verifyCode email code in
         let* _ := modify (set_users (alter markVerified email)) in
         let* _ := EmailSvc.sendWelcomeEmail email (u_name user) in
         let* user := gets (λ s, default user (users s !! email)) in
         ret (Json 200 (userReply user))
       end)
    (λ message, ret (JsonError 400 message None)).

(** POST /resend-verification. *)
Definition postResendVerification (email : string) : M (Response string) :=
  tryCatch
    (if falsyString email then ret (JsonError 400 "Email is required" None)
     else
       let* user := gets (λ s, users s !! email) in
       match user with
       | None => ret (JsonError 404 "User not found" None)
       | Some user =>
         if u_verified user then ret (JsonError 400 "User is already verified" None)
         else
           let* _ := EmailSvc.sendVerificationCode email (u_name user) in
           ret (Json 200 "Verification code sent successfully")
       end)
    (λ message, ret (JsonError 400 message None)).

(** GET /profile, for the authenticated [email]. *)
Definition getProfile (email : string) : M (Response UserReply) :=
  tryCatch
    (let* user := gets (λ s, users s !! email) in
     match user with
     | None => ret (JsonError 404 "User not found" None)
     | Some user => ret (Json 200 (userReply user))
     end)
    (λ _, ret (JsonError 500 "Failed to get profile" None)).

End Auth.

(** ** server/routes/admin.js *)

Module Admin.




(** The reply of GET /emails/failed. *)
Record FailedReply := {
  fr_failedEmails : list FailedEmail;
  fr_count : nat
}.

(** GET /emails/failed. *)
Definition getFailed : M (Response FailedReply) :=
  tryCatch
    (let* failed := gets EmailSvc.getFailedEmails in
     ret (Json 200 {| fr_failedEmails := failed; fr_count := length failed |}))
    (λ _, ret (JsonError 500 "Failed to fetch failed emails" None)).

(** POST /emails/retry/:emailId. *)
Definition postRetry (emailId : string) : M (Response (option EmailSvc.SendResult)) :=
  tryCatch
    (let* result := EmailSvc.retryFailedEmail emailId in
     ret (Json 200 result))
    (λ message, ret (JsonError 400 message None)).







End Admin.

(** * Definitions used by the statements

    Observations of the state, the values the handlers compute in a given
    state, instants and transports imposed from outside, and the concrete
    states of the examples. *)

(** The part of the state outside the reach of [sendEmailWithRetry]: the
    accounts, the transactions, the verification records and the rate
    windows. *)
Definition ledgerView (s : Server)
    : gmap string User * list (string * TxRecord)
      * gmap string VerificationRecord * gmap string (list Z) :=
  (users s, transactions s, verificationCodes (emailService s),
   rateLimits (emailService s)).

(** [m] leaves that part of the state as it found it. *)
Definition keeps {A} (m : M A) : Prop := ∀ s, ledgerView (snd (m s)) = ledgerView s.

(** The id [sendEmailWithRetry] would generate in state [s]. *)
Definition emailIdAt (s : Server) : string :=
  pretty (now (world s)) +:+ "-" +:+ hd "" (idents (world s)).

(** The log entry that [sendEmailWithRetry data type 3] stores when the
    transport rejects with [e1], [e2], [e3]. *)
Definition failedLogAt (s : Server) (data : EmailData) (type e1 e2 e3 : string)
    : LogEntry :=
  let t := now (world s) in
  {| log_id := emailIdAt s; log_to := ed_to data; log_type := type;
     log_timestamp := t; log_attempts := 3; log_success := false;
     log_errors :=
       [ {| ae_attempt := 1; ae_error := EmailSvc.errorMessage e1; ae_timestamp := t |};
         {| ae_attempt := 2; ae_error := EmailSvc.errorMessage e2;
            ae_timestamp := t + 2000 |};
         {| ae_attempt := 3; ae_error := EmailSvc.errorMessage e3;
            ae_timestamp := t + 2000 + 4000 |} ];
     log_completedAt := None; log_failedAt := Some (t + 2000 + 4000) |}.

(** A server with three accounts, at instant 1000, with the transport up. *)
Definition world0 : World :=
  {| now := 1000; transport := []; randoms := [];
     idents := ["k3x9a1"; "7f2c0d"; "q8w6e4"; "z5y1r0"]; slept := [] |}.

Definition service0 : EmailService :=
  {| verificationCodes := ∅; rateLimits := ∅; failedEmails := ∅; emailLogs := [] |}.

Definition alice : User :=
  {| u_id := "u-1"; u_name := "Alice"; u_email := "alice@example.com";
     u_verified := true; u_balance := 100%float |}.

Definition bob : User :=
  {| u_id := "u-2"; u_name := "Bob"; u_email := "bob@example.com";
     u_verified := true; u_balance := 10.1%float |}.

Definition carol : User :=
  {| u_id := "u-3"; u_name := "Carol"; u_email := "carol@example.com";
     u_verified := false; u_balance := 500%float |}.

Definition server0 : Server :=
  {| world := world0; emailService := service0;
     users := <["alice@example.com" := alice]>
                (<["bob@example.com" := bob]> (<["carol@example.com" := carol]> ∅));
     transactions := [] |}.

(** A transport that rejects three times in a row. *)
Definition downThrice : list (option string) :=
  [Some "ECONNRESET"; Some "ECONNRESET"; Some "ETIMEDOUT"].

(** The receipt of a payment sent by Alice. *)
Definition receiptMail : EmailData :=
  {| ed_to := "alice@example.com"; ed_subject := "Zelle Payment Sent" |}.

(** A check of [code] for [email] made at instant [t]. *)
Definition checkAt (t : Z) (email code : string) (s : Server)
    : Completion bool * Server :=
  EmailSvc.verifyCode email code (at_time t s).

(** A server holding the code 123456 for Carol, live until 601000. *)
Definition serverWithCode : Server :=
  set_emailService (set_verificationCodes
    (insert "carol@example.com"
       {| vr_code := "123456"; vr_expiresAt := 601000; vr_attempts := 0 |})) server0.

(** The window of [key] in state [s], empty for a key never seen. *)
Definition windowOf (key : string) (s : Server) : list Z :=
  default [] (rateLimits (emailService s) !! key).

(** The timestamps [checkRateLimit] retains when called at instant [t]. *)
Definition recentAt (t : Z) (attempts : list Z) : list Z :=
  List.filter (λ timestamp, t - 60 * 60 * 1000 <? timestamp) attempts.

(** How a delivery with at least one attempt ends: with a result, or with
    the error of its last attempt. It never falls out of the loop. *)
Definition deliveryOutcome (maxRetries : nat) (c : Completion (option EmailSvc.SendResult))
    : Prop :=
  match c with
  | Normal (Some _) => True
  | Normal None => False
  | Thrown e => ∃ msg, e = EmailSvc.failureMessage maxRetries msg
  end.

(** The message [sendVerificationCode] builds for [email]. *)
Definition verificationMail (email : string) : EmailData :=
  {| ed_to := email; ed_subject := "Verify Your Zelle Account" |}.

(** The code [sendVerificationCode] generates in state [s]. *)
Definition codeDrawn (s : Server) : string :=
  verificationCodeOf (hd 0%Q (randoms (world s))).

(** The state in which an allowed [sendVerificationCode] hands its message
    to the mail pipeline: the slot is taken and the record is stored. *)
Definition issuingState (email : string) (s : Server) : Server :=
  let key := EmailSvc.rateLimitKey email "verification" in
  let t := now (world s) in
  let recent := recentAt t (windowOf key s) in
  set_emailService
    (set_verificationCodes
       (insert email {| vr_code := codeDrawn s; vr_expiresAt := t + 600000;
                        vr_attempts := 0 |}))
    (set_world (set_randoms (tl (randoms (world s))))
       (set_emailService (set_rateLimits (insert key (recent ++ [t])))
          (set_emailService (set_rateLimits (insert key recent)) s))).

(** An issuance for [email] requested at instant [t]. *)
Definition issueAt (t : Z) (email name : string) (s : Server)
    : Completion EmailSvc.Issued * Server :=
  EmailSvc.sendVerificationCode email name (at_time t s).

(** The log entry of a delivery that succeeds at its first attempt. *)
Definition deliveredLogAt (s : Server) (data : EmailData) (type : string) : LogEntry :=
  {| log_id := emailIdAt s; log_to := ed_to data; log_type := type;
     log_timestamp := now (world s); log_attempts := 1; log_success := true;
     log_errors := []; log_completedAt := Some (now (world s));
     log_failedAt := None |}.

(** The state after a receipt for Alice has failed three times. *)
Definition serverAfterFailure : Server :=
  snd (EmailSvc.sendEmailWithRetry receiptMail "receipt" 3
         (with_transport downThrice server0)).

(** The id [postSend] gives to its transaction in state [s]. *)
Definition sendTxId (s : Server) : string := "TX-" +:+ hd "" (idents (world s)).

(** The recipient's display name in the record. *)
Definition recipientNameIn (us : gmap string User) (recipientEmail : string) : string :=
  match us !! recipientEmail with
  | Some r => u_name r
  | None => localPart recipientEmail
  end.

(** The accounts after the debit and the credit of a transfer. *)
Definition committedUsers (senderEmail recipientEmail : string) (amount : float)
    (us : gmap string User) : gmap string User :=
  match us !! recipientEmail with
  | Some _ =>
    alter (Transactions.credit amount) recipientEmail
      (alter (Transactions.debit amount) senderEmail us)
  | None => alter (Transactions.debit amount) senderEmail us
  end.

(** The balance the reply reads back from the sender's account. *)
Definition balanceIn (us : gmap string User) (email : string) (fallback : float) : float :=
  match us !! email with
  | Some u => u_balance u
  | None => fallback
  end.

(** The exact value of a finite JS number, as a rational. *)
Definition exactValue (x : float) : Q :=
  match Prim2SF x with
  | S754_finite sign m e =>
    let mantissa := if sign then Z.neg m else Z.pos m in
    if 0 <=? e then inject_Z (mantissa * 2 ^ e)
    else Qmake mantissa (2 ^ Z.to_pos (- e))
  | _ => 0%Q
  end.

(** Alice sends 30 to Bob. *)
Definition aliceToBob : Transactions.SendBody :=
  {| Transactions.sb_recipientEmail := "bob@example.com";
     Transactions.sb_amount := 30%float;
     Transactions.sb_note := "lunch" |}.

(** Carol, who is not verified and holds 500, sends 20 to Bob. *)
Definition carolToBob : Transactions.SendBody :=
  {| Transactions.sb_recipientEmail := "bob@example.com";
     Transactions.sb_amount := 20%float;
     Transactions.sb_note := "" |}.

(** Alice asks Bob for 12.5. *)
Definition aliceAsksBob : Transactions.RequestBody :=
  {| Transactions.rq_requesteeEmail := "bob@example.com";
     Transactions.rq_amount := 12.5%float;
     Transactions.rq_note := "tickets" |}.

(** Dave registers while the transport is down. *)
Definition daveRegisters : Auth.RegisterBody :=
  {| Auth.rb_name := "Dave"; Auth.rb_email := "dave@example.com";
     Auth.rb_phone := "+15550100"; Auth.rb_password := "correct horse" |}.

(** Every pending entry is filed under the id of its own log, that log
    records a failure, and it is one of the stored logs. *)
Definition pendingConsistent (s : Server) : Prop :=
  ∀ k fe, failedEmails (emailService s) !! k = Some fe →
    log_id (fe_log fe) = k ∧ log_success (fe_log fe) = false
    ∧ In (fe_log fe) (emailLogs (emailService s)).

(** No verification record has counted more than three wrong codes. *)
Definition countersBounded (s : Server) : Prop :=
  ∀ email stored, verificationCodes (emailService s) !! email = Some stored →
    (vr_attempts stored ≤ 3)%nat.

(** A server whose window for Carol holds three issuances of the last hour. *)
Definition serverThrottled : Server :=
  at_time 4000
    (set_emailService
       (set_rateLimits
          (insert (EmailSvc.rateLimitKey "carol@example.com" "verification")
                  [1000; 2000; 3000]))
       serverWithCode).

(** Newest first, for the timestamp read by [key]. *)
Definition newestFirst {A} (key : A → Z) (l : list A) : Prop :=
  Sorted (λ a b, key b ≤ key a) l.



(** The number of entries [slice(0, limit)] returns from [n]. *)
Definition sliceLength (limit : Z) (n : nat) : nat :=
  Nat.min (Z.to_nat (if limit <? 0 then Z.of_nat n + limit else limit)) n.

(** What a transfer never changes in an account. *)
Definition identityOf (u : User) : string * string * string * bool :=
  (u_id u, u_name u, u_email u, u_verified u).

(** No ['@'] occurs in the string. *)
Fixpoint atFree (s : string) : bool :=
  match s with
  | EmptyString => true
  | String c rest => negb (Ascii.eqb c "@"%char) && atFree rest
  end.

(** The account [postRegister] stores for [body] in state [s]. *)
Definition registeredUser (s : Server) (body : Auth.RegisterBody) : User :=
  {| u_id := hd "" (idents (world s)); u_name := Auth.rb_name body;
     u_email := Auth.rb_email body; u_verified := false; u_balance := 0%float |}.



(** * Properties *)

(** One step of symbolic execution: the monad's operations are unfolded and
    the redexes they leave are contracted. *)
Ltac js_run :=
  cbv beta iota delta [bind ret throw tryCatch gets modify dateNow].

(** ** What the mail pipeline leaves alone *)

Lemma keeps_ret {A} (a : A) : keeps (ret a).
Proof. intros s. reflexivity. Qed.

Lemma keeps_throw {A} (e : string) : keeps (@throw A e).
Proof. intros s. reflexivity. Qed.

Lemma keeps_gets {A} (f : Server → A) : keeps (gets f).
Proof. intros s. reflexivity. Qed.

Lemma keeps_bind {A B} (m : M A) (f : A → M B) :
  keeps m → (∀ a, keeps (f a)) → keeps (bind m f).
Proof.
  intros Hm Hf s. unfold bind. specialize (Hm s).
  destruct (m s) as [[a | e] s1]; simpl in *.
  - rewrite <- Hm. apply Hf.
  - exact Hm.
Qed.

Lemma keeps_tryCatch {A} (m : M A) (h : string → M A) :
  keeps m → (∀ e, keeps (h e)) → keeps (tryCatch m h).
Proof.
  intros Hm Hh s. unfold tryCatch. specialize (Hm s).
  destruct (m s) as [[a | e] s1]; simpl in *.
  - exact Hm.
  - rewrite <- Hm. apply Hh.
Qed.

Lemma keeps_dateNow : keeps dateNow.
Proof. apply keeps_gets. Qed.

Lemma keeps_sleep d : keeps (sleep d).
Proof. intros s. reflexivity. Qed.

Lemma keeps_randomIdent : keeps randomIdent.
Proof. intros s. unfold randomIdent. destruct (idents (world s)); reflexivity. Qed.

Lemma keeps_sgMail_send data : keeps (sgMail_send data).
Proof.
  intros s. unfold sgMail_send.
  destruct (transport (world s)) as [| [msg |] tr]; reflexivity.
Qed.

Lemma keeps_push_log l :
  keeps (modify (set_emailService (set_emailLogs (λ ls, ls ++ [l])))).
Proof. intros s. reflexivity. Qed.

Lemma keeps_failedEmails f :
  keeps (modify (set_emailService (set_failedEmails f))).
Proof. intros s. reflexivity. Qed.

Create HintDb keeps_db.
#[local] Hint Resolve keeps_ret keeps_throw keeps_gets keeps_dateNow keeps_sleep
  keeps_randomIdent keeps_sgMail_send keeps_push_log keeps_failedEmails : keeps_db.

Ltac keeps_step :=
  first [ apply keeps_bind; [| intros ? ]
        | apply keeps_tryCatch; [| intros ? ]
        | solve [ auto with keeps_db ] ].

Lemma keeps_tryAttempt attempt emailId data logEntry :
  keeps (EmailSvc.tryAttempt attempt emailId data logEntry).
Proof.
  unfold EmailSvc.tryAttempt. repeat keeps_step.
  destruct (1 <? attempt)%nat; auto with keeps_db.
Qed.

Lemma keeps_attemptLoop remaining :
  ∀ attempt maxRetries emailId data type logEntry,
    keeps (EmailSvc.attemptLoop remaining attempt maxRetries emailId data type logEntry).
Proof.
  induction remaining as [| remaining IH]; intros; simpl.
  - apply keeps_ret.
  - apply keeps_tryCatch.
    + apply keeps_tryAttempt.
    + intros e. apply keeps_bind; [auto with keeps_db |]. intros t.
      destruct (attempt =? maxRetries)%nat.
      * repeat keeps_step.
      * apply IH.
Qed.

Lemma keeps_sendEmailWithRetry data type maxRetries :
  keeps (EmailSvc.sendEmailWithRetry data type maxRetries).
Proof.
  unfold EmailSvc.sendEmailWithRetry, EmailSvc.newEmailId.
  repeat keeps_step. apply keeps_attemptLoop.
Qed.

Lemma keeps_emailIdOf r : keeps (EmailSvc.emailIdOf r).
Proof. destruct r; simpl; auto with keeps_db. Qed.

Lemma keeps_sendTransactionReceipt email type :
  keeps (EmailSvc.sendTransactionReceipt email type).
Proof.
  unfold EmailSvc.sendTransactionReceipt.
  apply keeps_tryCatch; [| intros; apply keeps_throw].
  apply keeps_bind; [apply keeps_sendEmailWithRetry | intros; apply keeps_emailIdOf].
Qed.

(** ** The identifier and the run of a delivery whose three attempts fail *)

Lemma sendEmailWithRetry_three_failures s data type e1 e2 e3 tr :
  transport (world s) = Some e1 :: Some e2 :: Some e3 :: tr →
  let r := EmailSvc.sendEmailWithRetry data type 3 s in
  fst r = Thrown (EmailSvc.failureMessage 3 (EmailSvc.errorMessage e3))
  ∧ slept (world (snd r)) = slept (world s) ++ [2000; 4000]
  ∧ transport (world (snd r)) = tr
  ∧ now (world (snd r)) = now (world s) + 2000 + 4000
  ∧ failedEmails (emailService (snd r))
    = <[emailIdAt s := {| fe_log := failedLogAt s data type e1 e2 e3;
                          fe_emailData := data |}]> (failedEmails (emailService s))
  ∧ emailLogs (emailService (snd r))
    = emailLogs (emailService s) ++ [failedLogAt s data type e1 e2 e3].
Proof.
  destruct s as [[t tr0 rs ids sl] es us txs]. simpl. intros ->.
  unfold EmailSvc.sendEmailWithRetry, EmailSvc.newEmailId, emailIdAt, failedLogAt.
  destruct ids as [| i ids]; cbn -[pretty EmailSvc.errorMessage EmailSvc.failureMessage "+:+"];
    rewrite <- !app_assoc; repeat split; reflexivity.
Qed.

(** ** C5: the backoff schedule *)

(** The suspension before attempt [n + 2] is [2^n * 2000] ms. *)
Lemma delayBefore_formula n :
  EmailSvc.delayBefore (S (S n)) = 2 ^ Z.of_nat n * 2000.
Proof.
  unfold EmailSvc.delayBefore, EmailSvc.backoffDelay.
  replace (Z.of_nat (S (S n)) - 2) with (Z.of_nat n) by lia. reflexivity.
Qed.

(** A delivery whose three attempts fail suspends twice, for the delays of
    its second and third attempts. *)
Lemma failed_delivery_suspensions s data type e1 e2 e3 tr :
  transport (world s) = Some e1 :: Some e2 :: Some e3 :: tr →
  slept (world (snd (EmailSvc.sendEmailWithRetry data type 3 s)))
  = slept (world s) ++ [EmailSvc.delayBefore 2; EmailSvc.delayBefore 3].
Proof.
  intros Htr. apply (sendEmailWithRetry_three_failures s data type e1 e2 e3 tr Htr).
Qed.

(** C5, on the code: the suspension before attempt [n > 1] is
    [2^(n-2) * 2000] ms, that is none before attempt 1, 2000 ms before
    attempt 2 and 4000 ms, not 8000 ms, before attempt 3; the delivery of
    Alice's receipt with the transport down suspends for 2000 ms and then for
    4000 ms. *)
Theorem third_attempt_waits_4000 :
  (∀ n, EmailSvc.delayBefore (S (S n)) = 2 ^ Z.of_nat n * 2000)
  ∧ EmailSvc.delayBefore 1 = 0
  ∧ EmailSvc.delayBefore 2 = 2000
  ∧ EmailSvc.delayBefore 3 = 4000
  ∧ EmailSvc.delayBefore 3 ≠ 8000
  ∧ slept (world (snd (EmailSvc.sendEmailWithRetry receiptMail "receipt" 3
                         (with_transport downThrice server0))))
    = [2000; 4000].
Proof.
  split; [exact delayBefore_formula |].
  split; [reflexivity |]. split; [reflexivity |]. split; [reflexivity |]. split.
  - intros H. vm_compute in H. discriminate H.
  - rewrite (failed_delivery_suspensions (with_transport downThrice server0)
               receiptMail "receipt" "ECONNRESET" "ECONNRESET" "ETIMEDOUT" [] eq_refl).
    reflexivity.
Qed.

(** ** C6: the attempt counter of a verification code *)

Section VerifyCode.

Variables (s : Server) (email inputCode : string).

Lemma verifyCode_missing :
  verificationCodes (emailService s) !! email = None →
  EmailSvc.verifyCode email inputCode s = (Thrown EmailSvc.msgNoCode, s).
Proof.
  intros H. unfold EmailSvc.verifyCode. js_run. rewrite H. reflexivity.
Qed.

Variable stored : VerificationRecord.
Hypothesis Hstored : verificationCodes (emailService s) !! email = Some stored.
Hypothesis Hlive : now (world s) ≤ vr_expiresAt stored.

Lemma verifyCode_exhausted :
  (3 ≤ vr_attempts stored)%nat →
  EmailSvc.verifyCode email inputCode s
  = (Thrown EmailSvc.msgTooMany,
     set_emailService (set_verificationCodes (delete email)) s).
Proof.
  intros H3. unfold EmailSvc.verifyCode. js_run. rewrite Hstored. js_run.
  rewrite (proj2 (Z.ltb_ge _ _) Hlive), (proj2 (Nat.leb_le _ _) H3). reflexivity.
Qed.

Lemma verifyCode_mismatch :
  (vr_attempts stored < 3)%nat → vr_code stored ≠ inputCode →
  EmailSvc.verifyCode email inputCode s
  = (Thrown EmailSvc.msgInvalid,
     set_emailService
       (set_verificationCodes (insert email (EmailSvc.vr_increment stored))) s).
Proof.
  intros H3 Hne. unfold EmailSvc.verifyCode. js_run. rewrite Hstored. js_run.
  rewrite (proj2 (Z.ltb_ge _ _) Hlive), (proj2 (Nat.leb_gt _ _) H3).
  rewrite (bool_decide_eq_false_2 _ Hne). reflexivity.
Qed.

Lemma verifyCode_match :
  (vr_attempts stored < 3)%nat → vr_code stored = inputCode →
  EmailSvc.verifyCode email inputCode s
  = (Normal true, set_emailService (set_verificationCodes (delete email)) s).
Proof.
  intros H3 Heq. unfold EmailSvc.verifyCode. js_run. rewrite Hstored. js_run.
  rewrite (proj2 (Z.ltb_ge _ _) Hlive), (proj2 (Nat.leb_gt _ _) H3).
  rewrite (bool_decide_eq_true_2 _ Heq). reflexivity.
Qed.

End VerifyCode.

(** C6, as stated, fails: after three wrong checks the record is still
    stored, and a fourth check with the right code is answered "Too many
    failed attempts", not "No verification code found". *)
Lemma fourth_check_is_not_NotFound :
  let s3 := snd (checkAt 3000 "carol@example.com" "000003"
             (snd (checkAt 2000 "carol@example.com" "000002"
               (snd (checkAt 1000 "carol@example.com" "000001" serverWithCode))))) in
  verificationCodes (emailService s3) !! "carol@example.com"
    = Some {| vr_code := "123456"; vr_expiresAt := 601000; vr_attempts := 3 |}
  ∧ fst (checkAt 4000 "carol@example.com" "123456" s3) = Thrown EmailSvc.msgTooMany
  ∧ fst (checkAt 4000 "carol@example.com" "123456" s3) ≠ Thrown EmailSvc.msgNoCode.
Proof. vm_compute. repeat split; discriminate. Qed.

Lemma checkAt_mismatch s t email code stored :
  verificationCodes (emailService s) !! email = Some stored →
  t ≤ vr_expiresAt stored → (vr_attempts stored < 3)%nat → vr_code stored ≠ code →
  fst (checkAt t email code s) = Thrown EmailSvc.msgInvalid
  ∧ verificationCodes (emailService (snd (checkAt t email code s))) !! email
    = Some (EmailSvc.vr_increment stored).
Proof.
  intros Hs Ht H3 Hne. unfold checkAt.
  rewrite (verifyCode_mismatch (at_time t s) email code stored Hs Ht H3 Hne).
  split; [reflexivity |]. simpl. apply lookup_insert_eq.
Qed.

Lemma checkAt_exhausted s t email code stored :
  verificationCodes (emailService s) !! email = Some stored →
  t ≤ vr_expiresAt stored → (3 ≤ vr_attempts stored)%nat →
  fst (checkAt t email code s) = Thrown EmailSvc.msgTooMany
  ∧ verificationCodes (emailService (snd (checkAt t email code s))) !! email = None.
Proof.
  intros Hs Ht H3. unfold checkAt.
  rewrite (verifyCode_exhausted (at_time t s) email code stored Hs Ht H3).
  split; [reflexivity |]. simpl. apply lookup_delete_eq.
Qed.

Lemma checkAt_missing s t email code :
  verificationCodes (emailService s) !! email = None →
  checkAt t email code s = (Thrown EmailSvc.msgNoCode, at_time t s).
Proof. intros Hs. unfold checkAt. apply verifyCode_missing. exact Hs. Qed.

(** C6, amended: the record is not deleted when its counter reaches 3. After
    three checks with wrong values of a live, freshly issued code the record
    is still stored, with counter 3; the fourth check, whatever its code and
    so even with the right one, fails with "Too many failed attempts" and it
    is this check that deletes the record; only the fifth check fails with
    "No verification code found". *)
Theorem three_wrong_checks_then_exhausted
    s email stored w1 w2 w3 c4 c5 t1 t2 t3 t4 t5 :
  verificationCodes (emailService s) !! email = Some stored →
  vr_attempts stored = 0%nat →
  vr_code stored ≠ w1 → vr_code stored ≠ w2 → vr_code stored ≠ w3 →
  t1 ≤ vr_expiresAt stored → t2 ≤ vr_expiresAt stored →
  t3 ≤ vr_expiresAt stored → t4 ≤ vr_expiresAt stored →
  let o1 := checkAt t1 email w1 s in
  let o2 := checkAt t2 email w2 (snd o1) in
  let o3 := checkAt t3 email w3 (snd o2) in
  let o4 := checkAt t4 email c4 (snd o3) in
  let o5 := checkAt t5 email c5 (snd o4) in
  fst o1 = Thrown EmailSvc.msgInvalid
  ∧ fst o2 = Thrown EmailSvc.msgInvalid
  ∧ fst o3 = Thrown EmailSvc.msgInvalid
  ∧ verificationCodes (emailService (snd o3)) !! email
    = Some {| vr_code := vr_code stored; vr_expiresAt := vr_expiresAt stored;
              vr_attempts := 3 |}
  ∧ fst o4 = Thrown EmailSvc.msgTooMany
  ∧ verificationCodes (emailService (snd o4)) !! email = None
  ∧ fst o5 = Thrown EmailSvc.msgNoCode.
Proof.
  intros Hs H0 Hw1 Hw2 Hw3 Ht1 Ht2 Ht3 Ht4 o1 o2 o3 o4 o5.
  destruct (checkAt_mismatch s t1 email w1 stored Hs Ht1) as [R1 S1];
    [lia | exact Hw1 |].
  fold o1 in R1, S1.
  destruct (checkAt_mismatch (snd o1) t2 email w2 _ S1) as [R2 S2];
    [exact Ht2 | simpl; lia | exact Hw2 |].
  fold o2 in R2, S2.
  destruct (checkAt_mismatch (snd o2) t3 email w3 _ S2) as [R3 S3];
    [exact Ht3 | simpl; lia | exact Hw3 |].
  fold o3 in R3, S3.
  destruct (checkAt_exhausted (snd o3) t4 email c4 _ S3) as [R4 S4];
    [exact Ht4 | simpl; lia |].
  fold o4 in R4, S4.
  pose proof (checkAt_missing (snd o4) t5 email c5 S4) as R5. fold o5 in R5.
  repeat split; try assumption.
  - rewrite S3. unfold EmailSvc.vr_increment. simpl. rewrite H0. reflexivity.
  - rewrite R5. reflexivity.
Qed.

(** The five checks on the code 123456 held for Carol. *)
Lemma three_wrong_checks_then_exhausted_witness :
  let s := serverWithCode in
  let email := "carol@example.com" in
  let stored := {| vr_code := "123456"; vr_expiresAt := 601000; vr_attempts := 0 |} in
  let o1 := checkAt 1000 email "000001" s in
  let o2 := checkAt 2000 email "000002" (snd o1) in
  let o3 := checkAt 3000 email "000003" (snd o2) in
  let o4 := checkAt 4000 email "123456" (snd o3) in
  let o5 := checkAt 5000 email "123456" (snd o4) in
  (verificationCodes (emailService s) !! email = Some stored
   ∧ vr_attempts stored = 0%nat
   ∧ vr_code stored ≠ "000001" ∧ vr_code stored ≠ "000002" ∧ vr_code stored ≠ "000003"
   ∧ 1000 ≤ vr_expiresAt stored ∧ 2000 ≤ vr_expiresAt stored
   ∧ 3000 ≤ vr_expiresAt stored ∧ 4000 ≤ vr_expiresAt stored)
  ∧ (fst o1 = Thrown EmailSvc.msgInvalid
     ∧ fst o2 = Thrown EmailSvc.msgInvalid
     ∧ fst o3 = Thrown EmailSvc.msgInvalid
     ∧ verificationCodes (emailService (snd o3)) !! email
       = Some {| vr_code := vr_code stored; vr_expiresAt := vr_expiresAt stored;
                 vr_attempts := 3 |}
     ∧ fst o4 = Thrown EmailSvc.msgTooMany
     ∧ verificationCodes (emailService (snd o4)) !! email = None
     ∧ fst o5 = Thrown EmailSvc.msgNoCode).
Proof.
  intros s email stored o1 o2 o3 o4 o5.
  assert (Hs : verificationCodes (emailService s) !! email = Some stored)
    by (vm_compute; reflexivity).
  assert (Hw : ∀ w, String.eqb "123456" w = false → vr_code stored ≠ w).
  { intros w Hw Heq. simpl in Heq. subst w. discriminate Hw. }
  split.
  - repeat split; try exact Hs; try (apply Hw; reflexivity); simpl; lia.
  - apply (three_wrong_checks_then_exhausted s email stored
             "000001" "000002" "000003" "123456" "123456" 1000 2000 3000 4000 5000);
      try exact Hs; try reflexivity; try (apply Hw; reflexivity); simpl; lia.
Defined.

(** ** C7: the range of the verification code *)






(** ** The rate window *)

Lemma checkRateLimit_spec s email type :
  let key := EmailSvc.rateLimitKey email type in
  let t := now (world s) in
  let recent := recentAt t (windowOf key s) in
  EmailSvc.checkRateLimit email type s
  = if (3 <=? length recent)%nat
    then (Thrown EmailSvc.rateLimitMessage,
          set_emailService (set_rateLimits (insert key recent)) s)
    else (Normal (),
          set_emailService (set_rateLimits (insert key (recent ++ [t])))
            (set_emailService (set_rateLimits (insert key recent)) s)).
Proof.
  intros key t recent. unfold EmailSvc.checkRateLimit. js_run.
  fold key. fold (windowOf key s). fold t. fold (recentAt t (windowOf key s)). fold recent.
  destruct (3 <=? length recent)%nat; reflexivity.
Qed.

Lemma recentAt_all t l : Forall (λ ts, t - 3600000 < ts) l → recentAt t l = l.
Proof.
  induction 1 as [| ts l Hts _ IH]; [reflexivity |].
  unfold recentAt in *. simpl. rewrite IH.
  change (60 * 60 * 1000) with 3600000.
  rewrite (proj2 (Z.ltb_lt _ _) Hts). reflexivity.
Qed.

Lemma recentAt_none t l : Forall (λ ts, ts ≤ t - 3600000) l → recentAt t l = [].
Proof.
  induction 1 as [| ts l Hts _ IH]; [reflexivity |].
  unfold recentAt in *. simpl. rewrite IH.
  change (60 * 60 * 1000) with 3600000.
  rewrite (proj2 (Z.ltb_ge _ _) Hts). reflexivity.
Qed.


(** ** Equations of the monad and of the outside world *)

Lemma bind_normal {A B} (m : M A) (f : A → M B) s a s' :
  m s = (Normal a, s') → bind m f s = f a s'.
Proof. intros H. unfold bind. rewrite H. reflexivity. Qed.

Lemma bind_thrown {A B} (m : M A) (f : A → M B) s e s' :
  m s = (Thrown e, s') → bind m f s = (Thrown e, s').
Proof. intros H. unfold bind. rewrite H. reflexivity. Qed.

Lemma tryCatch_rethrow {A} (m : M A) s :
  tryCatch m (λ message, throw message) s = m s.
Proof. unfold tryCatch, throw. destruct (m s) as [[a | e] s']; reflexivity. Qed.

Lemma mathRandom_spec s :
  mathRandom s
  = (Normal (hd 0%Q (randoms (world s))),
     set_world (set_randoms (tl (randoms (world s)))) s).
Proof. destruct s as [[t tr rs ids sl] es us txs]. destruct rs; reflexivity. Qed.

Lemma randomIdent_spec s :
  randomIdent s
  = (Normal (hd "" (idents (world s))),
     set_world (set_idents (tl (idents (world s)))) s).
Proof. destruct s as [[t tr rs ids sl] es us txs]. destruct ids; reflexivity. Qed.

(** ** The outcomes of a delivery *)

(** One attempt resolves with a result or rejects with the transport's
    error. *)
Lemma tryAttempt_outcome attempt emailId data logEntry s :
  (∃ s', EmailSvc.tryAttempt attempt emailId data logEntry s
         = (Normal (Some {| EmailSvc.sr_emailId := emailId;
                            EmailSvc.sr_attempts := attempt |}), s'))
  ∨ (∃ msg tr s', transport (world s) = Some msg :: tr
       ∧ EmailSvc.tryAttempt attempt emailId data logEntry s = (Thrown msg, s')).
Proof.
  unfold EmailSvc.tryAttempt, sleep, sgMail_send.
  destruct s as [[t tr rs ids sl] es us txs].
  destruct tr as [| [msg |] tr]; destruct (1 <? attempt)%nat; js_run; simpl;
    solve [ left; eexists; reflexivity
          | right; eexists _, _, _; split; reflexivity ].
Qed.

Lemma tryAttempt_up attempt emailId data logEntry s :
  transport (world s) = [] →
  ∃ s', EmailSvc.tryAttempt attempt emailId data logEntry s
        = (Normal (Some {| EmailSvc.sr_emailId := emailId;
                           EmailSvc.sr_attempts := attempt |}), s').
Proof.
  intros Htr.
  destruct (tryAttempt_outcome attempt emailId data logEntry s)
    as [H | (msg & tr & s' & Hs & _)]; [exact H | congruence].
Qed.

Lemma attemptLoop_outcome remaining :
  ∀ attempt maxRetries emailId data type logEntry s,
    (attempt + remaining = S maxRetries)%nat → remaining ≠ 0%nat →
    deliveryOutcome maxRetries
      (fst (EmailSvc.attemptLoop remaining attempt maxRetries emailId data type logEntry s)).
Proof.
  induction remaining as [| remaining IH]; intros attempt maxRetries emailId data type
    logEntry s Hsum Hpos; [congruence |].
  simpl. unfold tryCatch.
  destruct (tryAttempt_outcome attempt emailId data
              (EmailSvc.log_setAttempts attempt logEntry) s)
    as [(s' & ->) | (msg & tr & s' & _ & ->)]; [exact I |].
  js_run. destruct (Nat.eqb_spec attempt maxRetries) as [-> | Hne].
  - simpl. eexists. reflexivity.
  - apply IH; lia.
Qed.

Lemma sendEmailWithRetry_outcome data type s :
  deliveryOutcome 3 (fst (EmailSvc.sendEmailWithRetry data type 3 s)).
Proof.
  unfold EmailSvc.sendEmailWithRetry, EmailSvc.newEmailId. js_run.
  rewrite randomIdent_spec. js_run. apply attemptLoop_outcome; [reflexivity | discriminate].
Qed.

(** With the transport up, the first attempt delivers. *)
Lemma sendEmailWithRetry_up data type s :
  transport (world s) = [] →
  fst (EmailSvc.sendEmailWithRetry data type 3 s)
  = Normal (Some {| EmailSvc.sr_emailId := emailIdAt s; EmailSvc.sr_attempts := 1 |}).
Proof.
  intros Htr. unfold EmailSvc.sendEmailWithRetry, EmailSvc.newEmailId. js_run.
  rewrite randomIdent_spec. js_run. simpl EmailSvc.attemptLoop. unfold tryCatch.
  edestruct tryAttempt_up as [s' ->]; [| reflexivity]. exact Htr.
Qed.

(** A failed delivery is never mistaken for a throttled one. *)
Lemma failureMessage_not_rateLimit n msg :
  EmailSvc.failureMessage n msg ≠ EmailSvc.rateLimitMessage.
Proof. intros H. discriminate H. Qed.

(** ** Issuing a verification code *)

Lemma sendVerificationCode_allowed s email name :
  (length (recentAt (now (world s))
             (windowOf (EmailSvc.rateLimitKey email "verification") s)) < 3)%nat →
  EmailSvc.sendVerificationCode email name s
  = let o := EmailSvc.sendEmailWithRetry (verificationMail email) "verification" 3
               (issuingState email s) in
    match fst o with
    | Normal (Some r) =>
      (Normal {| EmailSvc.is_expiresAt := now (world s) + 600000;
                 EmailSvc.is_emailId := EmailSvc.sr_emailId r |}, snd o)
    | Normal None =>
      (Thrown "Cannot read properties of undefined (reading 'emailId')", snd o)
    | Thrown e => (Thrown e, snd o)
    end.
Proof.
  intros H3. unfold EmailSvc.sendVerificationCode. rewrite tryCatch_rethrow.
  erewrite bind_normal;
    [| rewrite checkRateLimit_spec; cbv zeta; rewrite (proj2 (Nat.leb_gt _ _) H3);
       reflexivity].
  unfold generateVerificationCode.
  erewrite bind_normal; [| erewrite bind_normal; [| apply mathRandom_spec]; reflexivity].
  js_run. fold (verificationMail email).
  change (EmailSvc.sendEmailWithRetry (verificationMail email) "verification" 3 _)
    with (EmailSvc.sendEmailWithRetry (verificationMail email) "verification" 3
            (issuingState email s)).
  destruct (EmailSvc.sendEmailWithRetry (verificationMail email) "verification" 3
              (issuingState email s)) as [[[r |] | e] s4]; reflexivity.
Qed.

(** What an allowed issuance leaves behind, whatever the transport does. *)
Lemma sendVerificationCode_allowed_state s email name :
  let key := EmailSvc.rateLimitKey email "verification" in
  let t := now (world s) in
  let recent := recentAt t (windowOf key s) in
  (length recent < 3)%nat →
  let o := EmailSvc.sendVerificationCode email name s in
  windowOf key (snd o) = recent ++ [t]
  ∧ verificationCodes (emailService (snd o)) !! email
    = Some {| vr_code := codeDrawn s; vr_expiresAt := t + 600000; vr_attempts := 0 |}
  ∧ users (snd o) = users s
  ∧ fst o ≠ Thrown EmailSvc.rateLimitMessage
  ∧ (transport (world s) = [] →
     ∃ emailId, fst o = Normal {| EmailSvc.is_expiresAt := t + 600000;
                                  EmailSvc.is_emailId := emailId |}).
Proof.
  intros key t recent H3 o. subst o.
  rewrite (sendVerificationCode_allowed s email name H3). cbv zeta.
  pose proof (keeps_sendEmailWithRetry (verificationMail email) "verification" 3
                (issuingState email s)) as Hk.
  pose proof (sendEmailWithRetry_outcome (verificationMail email) "verification"
                (issuingState email s)) as Hout.
  pose proof (sendEmailWithRetry_up (verificationMail email) "verification"
                (issuingState email s)) as Hup.
  destruct (EmailSvc.sendEmailWithRetry (verificationMail email) "verification" 3
              (issuingState email s)) as [c s4].
  simpl fst in *. simpl snd in *.
  unfold ledgerView in Hk. injection Hk as Hu Htx Hvc Hrl.
  assert (Hstate : windowOf key s4 = recent ++ [t]
                   ∧ verificationCodes (emailService s4) !! email
                     = Some {| vr_code := codeDrawn s; vr_expiresAt := t + 600000;
                               vr_attempts := 0 |}
                   ∧ users s4 = users s).
  { unfold windowOf. rewrite Hrl, Hvc, Hu. unfold issuingState. simpl.
    rewrite !lookup_insert_eq. repeat split; reflexivity. }
  destruct Hstate as (Hw & Hc & Hus).
  destruct c as [[r |] | e]; simpl; repeat split; try assumption;
    try discriminate; try contradiction.
  - intros _. eexists. reflexivity.
  - destruct Hout as [msg ->]. intros H.
    apply (failureMessage_not_rateLimit 3 msg). congruence.
  - intros Htr. specialize (Hup Htr). discriminate Hup.
Qed.

(** ** C8: four issuances within the hour *)

(** The contract of the limiter, for the call made in state [s]. *)
Lemma checkRateLimit_contract s email type :
  let key := EmailSvc.rateLimitKey email type in
  let t := now (world s) in
  let o := EmailSvc.checkRateLimit email type s in
  let remaining := recentAt t (windowOf key s) in
  (∀ ts, In ts remaining ↔ In ts (windowOf key s) ∧ t - 3600000 < ts)
  ∧ ((3 ≤ length remaining)%nat →
     fst o = Thrown EmailSvc.rateLimitMessage ∧ windowOf key (snd o) = remaining)
  ∧ ((length remaining < 3)%nat →
     fst o = Normal () ∧ windowOf key (snd o) = remaining ++ [t]).
Proof.
  intros key t o remaining. subst o. rewrite checkRateLimit_spec. cbv zeta.
  fold key. fold t. fold remaining. split; [| split].
  - intros ts. subst remaining. unfold recentAt. rewrite filter_In, Z.ltb_lt.
    change (60 * 60 * 1000) with 3600000. tauto.
  - intros H. rewrite (proj2 (Nat.leb_le _ _) H). split; [reflexivity |].
    unfold windowOf. simpl. rewrite lookup_insert_eq. reflexivity.
  - intros H. rewrite (proj2 (Nat.leb_gt _ _) H). split; [reflexivity |].
    unfold windowOf. simpl. rewrite lookup_insert_eq. reflexivity.
Qed.

Lemma sendVerificationCode_limited s email name :
  let key := EmailSvc.rateLimitKey email "verification" in
  let recent := recentAt (now (world s)) (windowOf key s) in
  (3 ≤ length recent)%nat →
  let o := EmailSvc.sendVerificationCode email name s in
  fst o = Thrown EmailSvc.rateLimitMessage
  ∧ windowOf key (snd o) = recent
  ∧ users (snd o) = users s
  ∧ verificationCodes (emailService (snd o)) = verificationCodes (emailService s).
Proof.
  intros key recent H3 o. subst o. unfold EmailSvc.sendVerificationCode.
  rewrite tryCatch_rethrow.
  erewrite bind_thrown;
    [| rewrite checkRateLimit_spec; cbv zeta; fold key; fold recent;
       rewrite (proj2 (Nat.leb_le _ _) H3); reflexivity].
  simpl. unfold windowOf. simpl. rewrite lookup_insert_eq. repeat split; reflexivity.
Qed.

Lemma issueAt_allowed s t email name l :
  windowOf (EmailSvc.rateLimitKey email "verification") s = l →
  (length (recentAt t l) < 3)%nat →
  let o := issueAt t email name s in
  windowOf (EmailSvc.rateLimitKey email "verification") (snd o) = recentAt t l ++ [t]
  ∧ fst o ≠ Thrown EmailSvc.rateLimitMessage
  ∧ (transport (world s) = [] →
     ∃ emailId, fst o = Normal {| EmailSvc.is_expiresAt := t + 600000;
                                  EmailSvc.is_emailId := emailId |}).
Proof.
  intros Hl H3 o. subst o l. unfold issueAt.
  destruct (sendVerificationCode_allowed_state (at_time t s) email name H3)
    as (W & _ & _ & R & U).
  repeat split; [exact W | exact R | exact U].
Qed.

Lemma issueAt_limited s t email name l :
  windowOf (EmailSvc.rateLimitKey email "verification") s = l →
  (3 ≤ length (recentAt t l))%nat →
  let o := issueAt t email name s in
  fst o = Thrown EmailSvc.rateLimitMessage
  ∧ windowOf (EmailSvc.rateLimitKey email "verification") (snd o) = recentAt t l.
Proof.
  intros Hl H3 o. subst o l. unfold issueAt.
  destruct (sendVerificationCode_limited (at_time t s) email name H3) as (R & W & _).
  split; [exact R | exact W].
Qed.

(** C8: starting from an empty window, three issuances for one email are
    let through and take one slot each; a fourth one within 60 minutes of the
    first fails with "Rate limit exceeded" and takes no slot; once 60 minutes
    have passed since the third, the window is pruned to nothing and an
    issuance succeeds again. The limiter retains exactly the timestamps newer
    than [now - 3600000] (so every older one is pruned), fails when at least 3
    remain, and otherwise records [now]. *)
Theorem four_issuances_within_the_hour s email name t1 t2 t3 t4 t5 :
  let key := EmailSvc.rateLimitKey email "verification" in
  windowOf key s = [] →
  t1 ≤ t2 → t2 ≤ t3 → t3 ≤ t4 → t4 - t1 < 3600000 → t3 + 3600000 ≤ t5 →
  let o1 := issueAt t1 email name s in
  let o2 := issueAt t2 email name (snd o1) in
  let o3 := issueAt t3 email name (snd o2) in
  let o4 := issueAt t4 email name (snd o3) in
  let o5 := issueAt t5 email name (with_transport [] (snd o4)) in
  (fst o1 ≠ Thrown EmailSvc.rateLimitMessage
   ∧ fst o2 ≠ Thrown EmailSvc.rateLimitMessage
   ∧ fst o3 ≠ Thrown EmailSvc.rateLimitMessage)
  ∧ windowOf key (snd o3) = [t1; t2; t3]
  ∧ fst o4 = Thrown EmailSvc.rateLimitMessage
  ∧ windowOf key (snd o4) = [t1; t2; t3]
  ∧ (∃ emailId, fst o5 = Normal {| EmailSvc.is_expiresAt := t5 + 600000;
                                   EmailSvc.is_emailId := emailId |})
  ∧ windowOf key (snd o5) = [t5]
  ∧ (∀ s' type,
       let key' := EmailSvc.rateLimitKey email type in
       let now' := now (world s') in
       let o := EmailSvc.checkRateLimit email type s' in
       let remaining := recentAt now' (windowOf key' s') in
       (∀ ts, In ts remaining ↔ In ts (windowOf key' s') ∧ now' - 3600000 < ts)
       ∧ ((3 ≤ length remaining)%nat →
          fst o = Thrown EmailSvc.rateLimitMessage ∧ windowOf key' (snd o) = remaining)
       ∧ ((length remaining < 3)%nat →
          fst o = Normal () ∧ windowOf key' (snd o) = remaining ++ [now'])).
Proof.
  intros key H0 H12 H23 H34 Hin Hout o1 o2 o3 o4 o5.
  assert (E2 : recentAt t2 [t1] = [t1])
    by (apply recentAt_all; repeat constructor; lia).
  assert (E3 : recentAt t3 [t1; t2] = [t1; t2])
    by (apply recentAt_all; repeat constructor; lia).
  assert (E4 : recentAt t4 [t1; t2; t3] = [t1; t2; t3])
    by (apply recentAt_all; repeat constructor; lia).
  assert (E5 : recentAt t5 [t1; t2; t3] = [])
    by (apply recentAt_none; repeat constructor; lia).
  destruct (issueAt_allowed s t1 email name [] H0) as (W1 & R1 & _);
    [cbn [recentAt List.filter length]; lia |].
  fold o1 in W1, R1. clearbody o1. cbn [recentAt List.filter app] in W1.
  destruct (issueAt_allowed (snd o1) t2 email name _ W1) as (W2 & R2 & _);
    [rewrite E2; cbn [length]; lia |].
  fold o2 in W2, R2. clearbody o2. rewrite E2 in W2. cbn [app] in W2.
  destruct (issueAt_allowed (snd o2) t3 email name _ W2) as (W3 & R3 & _);
    [rewrite E3; cbn [length]; lia |].
  fold o3 in W3, R3. clearbody o3. rewrite E3 in W3. cbn [app] in W3.
  destruct (issueAt_limited (snd o3) t4 email name _ W3) as (R4 & W4);
    [rewrite E4; cbn [length]; lia |].
  fold o4 in W4, R4. clearbody o4. rewrite E4 in W4.
  destruct (issueAt_allowed (with_transport [] (snd o4)) t5 email name _ W4)
    as (W5 & _ & R5); [rewrite E5; cbn [length]; lia |].
  specialize (R5 eq_refl).
  fold o5 in W5, R5. clearbody o5. rewrite E5 in W5. cbn [app] in W5.
  split; [repeat split; assumption |].
  repeat (split; [assumption |]).
  intros s' type. apply checkRateLimit_contract.
Qed.

(** Issuances for Carol at 1 s, 2 s, 3 s and 4 s, then one hour later. *)
Lemma four_issuances_within_the_hour_witness :
  let s := server0 in
  let email := "carol@example.com" in
  let name := "Carol" in
  let key := EmailSvc.rateLimitKey email "verification" in
  let o1 := issueAt 1000 email name s in
  let o2 := issueAt 2000 email name (snd o1) in
  let o3 := issueAt 3000 email name (snd o2) in
  let o4 := issueAt 4000 email name (snd o3) in
  let o5 := issueAt 3603000 email name (with_transport [] (snd o4)) in
  (windowOf key s = [] ∧ 1000 ≤ 2000 ∧ 2000 ≤ 3000 ∧ 3000 ≤ 4000
   ∧ 4000 - 1000 < 3600000 ∧ 3000 + 3600000 ≤ 3603000)
  ∧ ((fst o1 ≠ Thrown EmailSvc.rateLimitMessage
      ∧ fst o2 ≠ Thrown EmailSvc.rateLimitMessage
      ∧ fst o3 ≠ Thrown EmailSvc.rateLimitMessage)
     ∧ windowOf key (snd o3) = [1000; 2000; 3000]
     ∧ fst o4 = Thrown EmailSvc.rateLimitMessage
     ∧ windowOf key (snd o4) = [1000; 2000; 3000]
     ∧ (∃ emailId, fst o5 = Normal {| EmailSvc.is_expiresAt := 3603000 + 600000;
                                      EmailSvc.is_emailId := emailId |})
     ∧ windowOf key (snd o5) = [3603000]
     ∧ (∀ s' type,
          let key' := EmailSvc.rateLimitKey email type in
          let now' := now (world s') in
          let o := EmailSvc.checkRateLimit email type s' in
          let remaining := recentAt now' (windowOf key' s') in
          (∀ ts, In ts remaining ↔ In ts (windowOf key' s') ∧ now' - 3600000 < ts)
          ∧ ((3 ≤ length remaining)%nat →
             fst o = Thrown EmailSvc.rateLimitMessage
             ∧ windowOf key' (snd o) = remaining)
          ∧ ((length remaining < 3)%nat →
             fst o = Normal () ∧ windowOf key' (snd o) = remaining ++ [now']))).
Proof.
  intros s email name key o1 o2 o3 o4 o5.
  assert (H0 : windowOf key s = []) by reflexivity.
  split.
  - split; [exact H0 | lia].
  - apply (four_issuances_within_the_hour s email name 1000 2000 3000 4000 3603000 H0);
      lia.
Defined.

(** ** C4: the manual retry of a failed delivery *)

Lemma sendEmailWithRetry_up_state s data type :
  transport (world s) = [] →
  let r := EmailSvc.sendEmailWithRetry data type 3 s in
  fst r = Normal (Some {| EmailSvc.sr_emailId := emailIdAt s;
                          EmailSvc.sr_attempts := 1 |})
  ∧ failedEmails (emailService (snd r))
    = delete (emailIdAt s) (failedEmails (emailService s))
  ∧ emailLogs (emailService (snd r))
    = emailLogs (emailService s) ++ [deliveredLogAt s data type].
Proof.
  destruct s as [[t tr0 rs ids sl] es us txs]. simpl. intros ->.
  unfold EmailSvc.sendEmailWithRetry, EmailSvc.newEmailId, emailIdAt, deliveredLogAt.
  destruct ids as [| i ids]; cbn -[pretty "+:+"]; repeat split; reflexivity.
Qed.

(** Three failed attempts park the message under the generated id: one more
    pending entry when the id is new. *)
Lemma three_failures_park_one_entry s data type e1 e2 e3 tr :
  transport (world s) = Some e1 :: Some e2 :: Some e3 :: tr →
  failedEmails (emailService s) !! emailIdAt s = None →
  let s' := snd (EmailSvc.sendEmailWithRetry data type 3 s) in
  size (failedEmails (emailService s')) = S (size (failedEmails (emailService s)))
  ∧ is_Some (failedEmails (emailService s') !! emailIdAt s).
Proof.
  intros Htr Hnew s'.
  destruct (sendEmailWithRetry_three_failures s data type e1 e2 e3 tr Htr)
    as (_ & _ & _ & _ & Hf & _).
  fold s' in Hf. rewrite Hf. split.
  - apply map_size_insert_None. exact Hnew.
  - rewrite lookup_insert_eq. eexists. reflexivity.
Qed.

(** A retry that succeeds under a new id deletes that new id from the
    pending entries, so the entry it was asked to retry stays. *)
Lemma retry_keeps_the_entry s emailId fe :
  failedEmails (emailService s) !! emailId = Some fe →
  transport (world s) = [] →
  emailIdAt s ≠ emailId →
  let o := EmailSvc.retryFailedEmail emailId s in
  fst o = Normal (Some {| EmailSvc.sr_emailId := emailIdAt s;
                          EmailSvc.sr_attempts := 1 |})
  ∧ failedEmails (emailService (snd o)) !! emailId = Some fe
  ∧ emailLogs (emailService (snd o))
    = emailLogs (emailService s)
      ++ [deliveredLogAt s (fe_emailData fe) (log_type (fe_log fe))].
Proof.
  intros Hfe Htr Hne o. subst o. unfold EmailSvc.retryFailedEmail. js_run.
  rewrite Hfe.
  destruct (sendEmailWithRetry_up_state s (fe_emailData fe) (log_type (fe_log fe)) Htr)
    as (Hr & Hf & Hl).
  destruct (EmailSvc.sendEmailWithRetry (fe_emailData fe) (log_type (fe_log fe)) 3 s)
    as [c s']. simpl in Hr, Hf, Hl. subst c. simpl.
  rewrite Hf, Hl, lookup_delete_ne by exact Hne. repeat split. exact Hfe.
Qed.

(** C4, on the code: the delivery whose three attempts fail creates exactly
    one pending entry, under its id 1000-k3x9a1; the retry of that id with
    the transport up succeeds under the new id 7000-7f2c0d and appends a
    success log, but the pending entry of 1000-k3x9a1 is still there. *)
Theorem retry_does_not_remove_pending_entry :
  let o := EmailSvc.retryFailedEmail "1000-k3x9a1" serverAfterFailure in
  size (failedEmails (emailService serverAfterFailure)) = 1%nat
  ∧ is_Some (failedEmails (emailService serverAfterFailure) !! "1000-k3x9a1")
  ∧ fst o = Normal (Some {| EmailSvc.sr_emailId := "7000-7f2c0d";
                            EmailSvc.sr_attempts := 1 |})
  ∧ (log_id <$> emailLogs (emailService (snd o))) = ["1000-k3x9a1"; "7000-7f2c0d"]
  ∧ (log_success <$> emailLogs (emailService (snd o))) = [false; true]
  ∧ failedEmails (emailService (snd o)) !! "1000-k3x9a1"
    = failedEmails (emailService serverAfterFailure) !! "1000-k3x9a1"
  ∧ is_Some (failedEmails (emailService (snd o)) !! "1000-k3x9a1")
  ∧ length (EmailSvc.getFailedEmails (snd o)) = 1%nat.
Proof.
  cbv zeta. repeat split; vm_compute; solve [reflexivity | eexists; reflexivity].
Qed.

(** ** Comparisons of JS numbers *)

Lemma SFcompare_swap x y : SFcompare y x = option_map CompOpp (SFcompare x y).
Proof.
  destruct x as [sx | sx | | sx mx ex], y as [sy | sy | | sy my ey];
    try destruct sx; try destruct sy; try reflexivity; simpl;
    rewrite (Z.compare_antisym ex ey); destruct (ex ?= ey); simpl; try reflexivity;
    change (Pos.compare_cont Eq my mx) with (Pos.compare my mx);
    change (Pos.compare_cont Eq mx my) with (Pos.compare mx my);
    rewrite (Pos.compare_antisym mx my); destruct (mx ?= my)%positive; reflexivity.
Qed.

(** [a <= b] excludes [b < a]. *)
Lemma float_le_not_lt a b : PrimFloat.leb a b = true → PrimFloat.ltb b a = false.
Proof.
  rewrite FloatAxioms.leb_spec, FloatAxioms.ltb_spec. unfold SFleb, SFltb. rewrite (SFcompare_swap (Prim2SF a)).
  destruct (SFcompare (Prim2SF a) (Prim2SF b)) as [[| |] |]; simpl; congruence.
Qed.

(** [0 < a] excludes [a <= 0]. *)
Lemma float_pos_not_le0 a : PrimFloat.ltb 0%float a = true → PrimFloat.leb a 0%float = false.
Proof.
  rewrite FloatAxioms.ltb_spec, FloatAxioms.leb_spec. unfold SFltb, SFleb. rewrite (SFcompare_swap (Prim2SF 0%float)).
  destruct (SFcompare (Prim2SF 0%float) (Prim2SF a)) as [[| |] |]; simpl; congruence.
Qed.

(** A positive number is neither [0] nor [NaN]. *)
Lemma float_pos_ne0 a : PrimFloat.ltb 0%float a = true → PrimFloat.eqb a 0%float = false.
Proof.
  rewrite FloatAxioms.ltb_spec, FloatAxioms.eqb_spec. unfold SFltb, SFeqb. rewrite (SFcompare_swap (Prim2SF 0%float)).
  destruct (SFcompare (Prim2SF 0%float) (Prim2SF a)) as [[| |] |]; simpl; congruence.
Qed.

Lemma float_pos_not_nan a : PrimFloat.ltb 0%float a = true → is_nan a = false.
Proof.
  unfold is_nan. rewrite FloatAxioms.ltb_spec, FloatAxioms.eqb_spec. unfold SFltb, SFeqb.
  change (Prim2SF 0%float) with (S754_zero false).
  destruct (Prim2SF a) as [sa | sa | | sa ma ea]; try destruct sa; simpl;
    try congruence; intros _; rewrite Z.compare_refl;
    change (Pos.compare_cont Eq ma ma) with (Pos.compare ma ma);
    rewrite Pos.compare_refl; reflexivity.
Qed.

Lemma float_pos_truthy a : PrimFloat.ltb 0%float a = true → falsyNumber a = false.
Proof.
  intros H. unfold falsyNumber. rewrite (float_pos_ne0 a H), (float_pos_not_nan a H).
  reflexivity.
Qed.

Lemma float_pos_parseFloat a : PrimFloat.ltb 0%float a = true → parseFloat a = a.
Proof. intros H. unfold parseFloat. rewrite (float_pos_ne0 a H). reflexivity. Qed.

Lemma nonempty_truthy (str : string) : str ≠ "" → falsyString str = false.
Proof. intros H. unfold falsyString. apply bool_decide_eq_false_2. exact H. Qed.

(** ** The send route *)

Lemma sendReceipts_swallows senderEmail recipientEmail recipient s :
  ∃ s', Transactions.sendReceipts senderEmail recipientEmail recipient s = (Normal (), s')
        ∧ ledgerView s' = ledgerView s.
Proof.
  unfold Transactions.sendReceipts.
  set (m := bind _ _).
  assert (Hk : keeps m).
  { subst m. apply keeps_bind; [apply keeps_sendTransactionReceipt |].
    intros _. destruct recipient; [| apply keeps_ret].
    apply keeps_bind; [apply keeps_sendTransactionReceipt | intros; apply keeps_ret]. }
  specialize (Hk s). unfold tryCatch, ret.
  destruct (m s) as [[[] | e] s']; simpl in Hk; eexists; split; reflexivity || exact Hk.
Qed.

Section SendAccepted.

Variables (s : Server) (senderEmail : string) (body : Transactions.SendBody).
Variable sender : User.

Let recipientEmail := Transactions.sb_recipientEmail body.
Let amount := Transactions.sb_amount body.

Hypothesis Hrecipient : recipientEmail ≠ "".
Hypothesis Hpositive : PrimFloat.ltb 0%float amount = true.
Hypothesis Hsender : users s !! senderEmail = Some sender.
Hypothesis Hverified : u_verified sender = true.
Hypothesis Hfunds : PrimFloat.leb amount (u_balance sender) = true.

(** An accepted transfer: the accounts, the stored record and the reply. *)
Lemma postSend_accepted :
  let us' := committedUsers senderEmail recipientEmail amount (users s) in
  let recipientName := recipientNameIn (users s) recipientEmail in
  let o := Transactions.postSend senderEmail body s in
  users (snd o) = us'
  ∧ transactions (snd o)
    = Transactions.mapSet (sendTxId s)
        (SendTx (sendTxId s) senderEmail (u_name sender) recipientEmail recipientName
                amount (orEmpty (Transactions.sb_note body)) (now (world s)))
        (transactions s)
  ∧ fst o = Normal (Json 200
      {| Transactions.sr_message := "Payment sent successfully";
         Transactions.sr_transaction :=
           {| Transactions.ts_id := sendTxId s;
              Transactions.ts_recipientEmail := recipientEmail;
              Transactions.ts_recipientName := recipientName;
              Transactions.ts_amount := amount;
              Transactions.ts_note := orEmpty (Transactions.sb_note body);
              Transactions.ts_timestamp := now (world s);
              Transactions.ts_status := "completed" |};
         Transactions.sr_newBalance := balanceIn us' senderEmail (u_balance sender) |}).
Proof.
  intros us' recipientName o. subst o us' recipientName.
  unfold Transactions.postSend. fold recipientEmail. fold amount.
  rewrite (nonempty_truthy _ Hrecipient), (float_pos_truthy _ Hpositive),
    (float_pos_not_le0 _ Hpositive), (float_pos_parseFloat _ Hpositive).
  unfold generateTransactionId. cbn [orb]. js_run. rewrite Hsender. js_run.
  rewrite Hverified. cbn [negb]. rewrite (float_le_not_lt _ _ Hfunds). js_run.
  rewrite randomIdent_spec. js_run.
  unfold committedUsers, recipientNameIn, balanceIn, sendTxId.
  destruct (users s !! recipientEmail) as [r |] eqn:Hr; cbv beta iota;
    match goal with
    | |- context [Transactions.sendReceipts ?a ?b ?c ?st] =>
      destruct (sendReceipts_swallows a b c st) as (s5 & E & K); rewrite E
    end;
    cbv beta iota; unfold ledgerView in K; simpl in K;
    injection K as Ku Kt _ _; simpl; rewrite Ku, Kt; repeat split; reflexivity.
Qed.

End SendAccepted.

Lemma mapGet_mapSet k v m : Transactions.mapGet k (Transactions.mapSet k v m) = Some v.
Proof.
  induction m as [| [k' v'] m IH]; simpl.
  - rewrite decide_True by reflexivity. reflexivity.
  - destruct (decide (k' = k)) as [-> | Hne]; simpl.
    + rewrite decide_True by reflexivity. reflexivity.
    + rewrite decide_False by exact Hne. exact IH.
Qed.

Lemma mapGet_mapSet_ne k k' v m :
  k ≠ k' → Transactions.mapGet k' (Transactions.mapSet k v m) = Transactions.mapGet k' m.
Proof.
  intros Hne. induction m as [| [k0 v0] m IH]; simpl.
  - rewrite decide_False by exact Hne. reflexivity.
  - destruct (decide (k0 = k)) as [-> | Hk]; simpl.
    + rewrite !decide_False by exact Hne. reflexivity.
    + destruct (decide (k0 = k')); [reflexivity | exact IH].
Qed.

(** The accounts after a transfer between two different emails. *)
Lemma committedUsers_sender senderEmail recipientEmail amount us sender :
  recipientEmail ≠ senderEmail → us !! senderEmail = Some sender →
  committedUsers senderEmail recipientEmail amount us !! senderEmail
  = Some (Transactions.debit amount sender).
Proof.
  intros Hne Hs. unfold committedUsers.
  destruct (us !! recipientEmail);
    rewrite ?(lookup_alter_ne _ _ recipientEmail senderEmail) by exact Hne;
    rewrite lookup_alter_eq, Hs; reflexivity.
Qed.

Lemma committedUsers_recipient senderEmail recipientEmail amount us :
  recipientEmail ≠ senderEmail →
  committedUsers senderEmail recipientEmail amount us !! recipientEmail
  = Transactions.credit amount <$> us !! recipientEmail.
Proof.
  intros Hne. unfold committedUsers.
  destruct (us !! recipientEmail) as [r |] eqn:Hr.
  - rewrite lookup_alter_eq, lookup_alter_ne by congruence. rewrite Hr. reflexivity.
  - rewrite lookup_alter_ne by congruence. rewrite Hr. reflexivity.
Qed.

Lemma committedUsers_other senderEmail recipientEmail amount us email :
  email ≠ senderEmail → email ≠ recipientEmail →
  committedUsers senderEmail recipientEmail amount us !! email = us !! email.
Proof.
  intros Hs Hr. unfold committedUsers.
  destruct (us !! recipientEmail); rewrite ?lookup_alter_ne by congruence; reflexivity.
Qed.

(** Sending to oneself: the debit and the credit hit the same account. *)
Lemma committedUsers_self email amount us sender :
  us !! email = Some sender →
  committedUsers email email amount us !! email
  = Some (Transactions.credit amount (Transactions.debit amount sender)).
Proof.
  intros Hs. unfold committedUsers. rewrite Hs.
  rewrite !lookup_alter_eq, Hs. reflexivity.
Qed.

(** ** C1: what an accepted transfer does *)

(** C1, as stated, fails when the recipient is the sender: Alice, verified
    and holding 100, sends 30 to her own email. The transfer is accepted, the
    debit and the credit are applied to the same account, and her balance, in
    the account and in the reply, is 100 again and not [100 - 30]. *)
Lemma self_send_leaves_balance :
  let body := {| Transactions.sb_recipientEmail := "alice@example.com";
                 Transactions.sb_amount := 30%float;
                 Transactions.sb_note := "" |} in
  let o := Transactions.postSend "alice@example.com" body server0 in
  users server0 !! "alice@example.com" = Some alice
  ∧ u_verified alice = true
  ∧ PrimFloat.ltb 0%float 30%float = true
  ∧ PrimFloat.leb 30%float (u_balance alice) = true
  ∧ (u_balance <$> users (snd o) !! "alice@example.com") = Some 100%float
  ∧ (∃ reply, fst o = Normal (Json 200 reply)
              ∧ Transactions.sr_newBalance reply = 100%float)
  ∧ PrimFloat.eqb 100%float (PrimFloat.sub (u_balance alice) 30%float) = false.
Proof.
  cbv zeta. repeat split; try (vm_compute; reflexivity).
  eexists. split; vm_compute; reflexivity.
Qed.

(** The credit is a binary64 addition: crediting 0.20 to Bob's 10.10 gives
    10.299999999999999, which is neither the number 10.30 nor the exact sum
    of the two operands. *)
Lemma credit_is_rounded :
  let body := {| Transactions.sb_recipientEmail := "bob@example.com";
                 Transactions.sb_amount := 0.2%float;
                 Transactions.sb_note := "" |} in
  let o := Transactions.postSend "alice@example.com" body server0 in
  (u_balance <$> users (snd o) !! "bob@example.com") = Some 10.299999999999999%float
  ∧ PrimFloat.eqb 10.299999999999999%float 10.3%float = false
  ∧ Qeq_bool (exactValue 10.299999999999999%float)
             (exactValue 10.1%float + exactValue 0.2%float) = false.
Proof. cbv zeta. repeat split; vm_compute; reflexivity. Qed.

(** C1, amended: for a verified sender A with balance [b], a recipient
    email B that is present and is not A's, and an amount with
    [0 < amt <= b], the send is accepted: A's balance becomes the binary64
    difference [b - amt], B's balance becomes the binary64 sum of its former
    value and [amt] when B has an account (and no account is created
    otherwise), every other account is untouched, the stored record has
    status completed and its amount is [amt] itself, and the reply carries
    that record's summary and A's new balance; the records stored under
    other ids are not altered. *)
Theorem send_moves_the_amount s senderEmail body sender :
  let recipientEmail := Transactions.sb_recipientEmail body in
  let amount := Transactions.sb_amount body in
  recipientEmail ≠ "" →
  recipientEmail ≠ senderEmail →
  users s !! senderEmail = Some sender →
  u_verified sender = true →
  PrimFloat.ltb 0%float amount = true →
  PrimFloat.leb amount (u_balance sender) = true →
  let o := Transactions.postSend senderEmail body s in
  (u_balance <$> users (snd o) !! senderEmail)
    = Some (PrimFloat.sub (u_balance sender) amount)
  ∧ (u_balance <$> users (snd o) !! recipientEmail)
    = ((λ r, PrimFloat.add (u_balance r) amount) <$> users s !! recipientEmail)
  ∧ (∀ email, email ≠ senderEmail → email ≠ recipientEmail →
       users (snd o) !! email = users s !! email)
  ∧ (∃ tx, Transactions.mapGet (sendTxId s) (transactions (snd o)) = Some tx
           ∧ Transactions.tx_status tx = "completed"
           ∧ Transactions.tx_amount tx = amount
           ∧ Transactions.tx_senderEmail tx = Some senderEmail
           ∧ Transactions.tx_recipientEmail tx = Some recipientEmail)
  ∧ (∀ id, id ≠ sendTxId s →
       Transactions.mapGet id (transactions (snd o))
       = Transactions.mapGet id (transactions s))
  ∧ (∃ reply, fst o = Normal (Json 200 reply)
              ∧ Transactions.ts_id (Transactions.sr_transaction reply) = sendTxId s
              ∧ Transactions.ts_amount (Transactions.sr_transaction reply) = amount
              ∧ Transactions.ts_status (Transactions.sr_transaction reply) = "completed"
              ∧ Transactions.sr_newBalance reply
                = PrimFloat.sub (u_balance sender) amount).
Proof.
  intros recipientEmail amount Hrec Hne Hs Hv Hpos Hle o.
  destruct (postSend_accepted s senderEmail body sender Hrec Hpos Hs Hv Hle)
    as (Hu & Ht & Hr).
  fold o in Hu, Ht, Hr. fold recipientEmail in Hu, Ht, Hr. fold amount in Hu, Ht, Hr.
  clearbody o. rewrite Hu, Ht, Hr. repeat split.
  - rewrite (committedUsers_sender _ _ _ _ sender Hne Hs). reflexivity.
  - rewrite (committedUsers_recipient _ _ _ _ Hne).
    destruct (users s !! recipientEmail); reflexivity.
  - intros email H1 H2. apply committedUsers_other; assumption.
  - eexists. split; [apply mapGet_mapSet |]. repeat split.
  - intros id Hid. apply mapGet_mapSet_ne. congruence.
  - eexists. split; [reflexivity |]. repeat split. simpl.
    unfold balanceIn. rewrite (committedUsers_sender _ _ _ _ sender Hne Hs). reflexivity.
Qed.

(** Alice, who holds 100, sends 30 to Bob. *)
Lemma send_moves_the_amount_witness :
  let s := server0 in
  let senderEmail := "alice@example.com" in
  let body := aliceToBob in
  let sender := alice in
  let recipientEmail := Transactions.sb_recipientEmail body in
  let amount := Transactions.sb_amount body in
  let o := Transactions.postSend senderEmail body s in
  (recipientEmail ≠ "" ∧ recipientEmail ≠ senderEmail
   ∧ users s !! senderEmail = Some sender ∧ u_verified sender = true
   ∧ PrimFloat.ltb 0%float amount = true
   ∧ PrimFloat.leb amount (u_balance sender) = true)
  ∧ ((u_balance <$> users (snd o) !! senderEmail)
       = Some (PrimFloat.sub (u_balance sender) amount)
     ∧ (u_balance <$> users (snd o) !! recipientEmail)
       = ((λ r, PrimFloat.add (u_balance r) amount) <$> users s !! recipientEmail)
     ∧ (∀ email, email ≠ senderEmail → email ≠ recipientEmail →
          users (snd o) !! email = users s !! email)
     ∧ (∃ tx, Transactions.mapGet (sendTxId s) (transactions (snd o)) = Some tx
              ∧ Transactions.tx_status tx = "completed"
              ∧ Transactions.tx_amount tx = amount
              ∧ Transactions.tx_senderEmail tx = Some senderEmail
              ∧ Transactions.tx_recipientEmail tx = Some recipientEmail)
     ∧ (∀ id, id ≠ sendTxId s →
          Transactions.mapGet id (transactions (snd o))
          = Transactions.mapGet id (transactions s))
     ∧ (∃ reply, fst o = Normal (Json 200 reply)
                 ∧ Transactions.ts_id (Transactions.sr_transaction reply) = sendTxId s
                 ∧ Transactions.ts_amount (Transactions.sr_transaction reply) = amount
                 ∧ Transactions.ts_status (Transactions.sr_transaction reply)
                   = "completed"
                 ∧ Transactions.sr_newBalance reply
                   = PrimFloat.sub (u_balance sender) amount)).
Proof.
  intros s senderEmail body sender recipientEmail amount o.
  assert (H1 : recipientEmail ≠ "") by (intros H; discriminate H).
  assert (H2 : recipientEmail ≠ senderEmail) by (intros H; discriminate H).
  assert (H3 : users s !! senderEmail = Some sender) by (vm_compute; reflexivity).
  split.
  - repeat split; try assumption; reflexivity.
  - apply (send_moves_the_amount s senderEmail body sender H1 H2 H3); reflexivity.
Defined.

(** ** C2: the unverified sender *)

(** C2: for a sender whose account is not verified, whatever its balance, a
    send to any recipient (a present [recipientEmail]; an absent or empty one
    is a request without recipient, refused as such) of any positive amount
    is answered 403 EMAIL_NOT_VERIFIED, never "Insufficient funds", and
    leaves the whole state, every balance included, as it was. *)
Theorem unverified_sender_is_refused s senderEmail body sender :
  Transactions.sb_recipientEmail body ≠ "" →
  PrimFloat.ltb 0%float (Transactions.sb_amount body) = true →
  users s !! senderEmail = Some sender →
  u_verified sender = false →
  Transactions.postSend senderEmail body s
  = (Normal (JsonError 403 Transactions.msgNotVerifiedSend (Some "EMAIL_NOT_VERIFIED")), s)
  ∧ fst (Transactions.postSend senderEmail body s)
    ≠ Normal (JsonError 400 "Insufficient funds" None)
  ∧ users (snd (Transactions.postSend senderEmail body s)) = users s.
Proof.
  intros Hrec Hpos Hs Hv.
  assert (E : Transactions.postSend senderEmail body s
              = (Normal (JsonError 403 Transactions.msgNotVerifiedSend
                           (Some "EMAIL_NOT_VERIFIED")), s)).
  { unfold Transactions.postSend.
    rewrite (nonempty_truthy _ Hrec), (float_pos_truthy _ Hpos),
      (float_pos_not_le0 _ Hpos).
    cbn [orb]. js_run. rewrite Hs. js_run. rewrite Hv. reflexivity. }
  rewrite E. repeat split. intros H. discriminate H.
Qed.

(** Carol, not verified, is refused although she holds 500. *)
Lemma unverified_sender_is_refused_witness :
  (Transactions.sb_recipientEmail carolToBob ≠ ""
   ∧ PrimFloat.ltb 0%float (Transactions.sb_amount carolToBob) = true
   ∧ users server0 !! "carol@example.com" = Some carol
   ∧ u_verified carol = false)
  ∧ (Transactions.postSend "carol@example.com" carolToBob server0
     = (Normal (JsonError 403 Transactions.msgNotVerifiedSend
                  (Some "EMAIL_NOT_VERIFIED")), server0)
     ∧ fst (Transactions.postSend "carol@example.com" carolToBob server0)
       ≠ Normal (JsonError 400 "Insufficient funds" None)
     ∧ users (snd (Transactions.postSend "carol@example.com" carolToBob server0))
       = users server0).
Proof.
  assert (H1 : Transactions.sb_recipientEmail carolToBob ≠ "")
    by (intros H; discriminate H).
  assert (H3 : users server0 !! "carol@example.com" = Some carol)
    by (vm_compute; reflexivity).
  split.
  - repeat split; try assumption; reflexivity.
  - apply (unverified_sender_is_refused server0 "carol@example.com" carolToBob carol H1);
      [reflexivity | exact H3 | reflexivity].
Defined.

(** ** C3: a failed receipt does not undo the transfer *)

(** C3: once a send is accepted, the accounts, the stored record and the
    reply do not depend on what the mail transport does: whatever errors the
    transport raises (in particular three in a row, which make the delivery
    of the sender's receipt fail for good), the reply is the 200 with the
    transaction summary and the sender's new balance, the accounts are the
    debited and credited ones, and the completed record is stored, exactly as
    when every receipt is delivered. *)
Theorem failed_receipt_keeps_the_transfer s senderEmail body sender tr :
  let recipientEmail := Transactions.sb_recipientEmail body in
  let amount := Transactions.sb_amount body in
  recipientEmail ≠ "" →
  users s !! senderEmail = Some sender →
  u_verified sender = true →
  PrimFloat.ltb 0%float amount = true →
  PrimFloat.leb amount (u_balance sender) = true →
  let o := Transactions.postSend senderEmail body (with_transport tr s) in
  let delivered := Transactions.postSend senderEmail body (with_transport [] s) in
  fst o = fst delivered
  ∧ users (snd o) = users (snd delivered)
  ∧ transactions (snd o) = transactions (snd delivered)
  ∧ users (snd o) = committedUsers senderEmail recipientEmail amount (users s)
  ∧ (∃ tx, Transactions.mapGet (sendTxId s) (transactions (snd o)) = Some tx
           ∧ Transactions.tx_status tx = "completed"
           ∧ Transactions.tx_amount tx = amount)
  ∧ (∃ reply, fst o = Normal (Json 200 reply)
              ∧ Transactions.ts_id (Transactions.sr_transaction reply) = sendTxId s
              ∧ Transactions.ts_status (Transactions.sr_transaction reply) = "completed"
              ∧ Some (Transactions.sr_newBalance reply)
                = (u_balance <$> users (snd o) !! senderEmail)).
Proof.
  intros recipientEmail amount Hrec Hs Hv Hpos Hle o delivered.
  destruct (postSend_accepted (with_transport tr s) senderEmail body sender
              Hrec Hpos Hs Hv Hle) as (Hu & Ht & Hr).
  destruct (postSend_accepted (with_transport [] s) senderEmail body sender
              Hrec Hpos Hs Hv Hle) as (Hu0 & Ht0 & Hr0).
  fold o in Hu, Ht, Hr. fold delivered in Hu0, Ht0, Hr0.
  fold recipientEmail in Hu, Ht, Hr, Hu0, Ht0, Hr0.
  fold amount in Hu, Ht, Hr, Hu0, Ht0, Hr0.
  clearbody o delivered.
  change (users (with_transport tr s)) with (users s) in *.
  change (users (with_transport [] s)) with (users s) in *.
  change (transactions (with_transport tr s)) with (transactions s) in *.
  change (transactions (with_transport [] s)) with (transactions s) in *.
  change (sendTxId (with_transport tr s)) with (sendTxId s) in *.
  change (sendTxId (with_transport [] s)) with (sendTxId s) in *.
  change (now (world (with_transport tr s))) with (now (world s)) in *.
  change (now (world (with_transport [] s))) with (now (world s)) in *.
  rewrite Hr, Hr0, Hu, Hu0, Ht, Ht0. repeat split.
  - eexists. split; [apply mapGet_mapSet |]. repeat split.
  - eexists. split; [reflexivity |]. repeat split. simpl. unfold balanceIn.
    assert (Hsome : is_Some (committedUsers senderEmail recipientEmail amount (users s)
                             !! senderEmail)).
    { unfold committedUsers. destruct (users s !! recipientEmail);
        rewrite !lookup_alter_is_Some; rewrite Hs; eexists; reflexivity. }
    destruct Hsome as [u ->]. reflexivity.
Qed.

(** Alice sends 30 to Bob while the transport rejects three times. *)
Lemma failed_receipt_keeps_the_transfer_witness :
  let s := server0 in
  let senderEmail := "alice@example.com" in
  let body := aliceToBob in
  let sender := alice in
  let tr := downThrice in
  let recipientEmail := Transactions.sb_recipientEmail body in
  let amount := Transactions.sb_amount body in
  let o := Transactions.postSend senderEmail body (with_transport tr s) in
  let delivered := Transactions.postSend senderEmail body (with_transport [] s) in
  (recipientEmail ≠ ""
   ∧ users s !! senderEmail = Some sender ∧ u_verified sender = true
   ∧ PrimFloat.ltb 0%float amount = true
   ∧ PrimFloat.leb amount (u_balance sender) = true)
  ∧ (fst o = fst delivered
     ∧ users (snd o) = users (snd delivered)
     ∧ transactions (snd o) = transactions (snd delivered)
     ∧ users (snd o) = committedUsers senderEmail recipientEmail amount (users s)
     ∧ (∃ tx, Transactions.mapGet (sendTxId s) (transactions (snd o)) = Some tx
              ∧ Transactions.tx_status tx = "completed"
              ∧ Transactions.tx_amount tx = amount)
     ∧ (∃ reply, fst o = Normal (Json 200 reply)
                 ∧ Transactions.ts_id (Transactions.sr_transaction reply) = sendTxId s
                 ∧ Transactions.ts_status (Transactions.sr_transaction reply)
                   = "completed"
                 ∧ Some (Transactions.sr_newBalance reply)
                   = (u_balance <$> users (snd o) !! senderEmail))).
Proof.
  intros s senderEmail body sender tr recipientEmail amount o delivered.
  assert (H1 : recipientEmail ≠ "") by (intros H; discriminate H).
  assert (H2 : users s !! senderEmail = Some sender) by (vm_compute; reflexivity).
  split.
  - repeat split; try assumption; reflexivity.
  - apply (failed_receipt_keeps_the_transfer s senderEmail body sender tr H1 H2);
      reflexivity.
Defined.

(** The two failures C3 speaks of, on Alice's send of 30 to Bob: the
    sender's receipt fails for good, or it is delivered and the recipient's
    fails for good. Either way one message is parked for retry, the reply is
    the 200 and the balances are 70 and 40.1. *)
Lemma either_receipt_may_fail :
  let senderFails :=
    Transactions.postSend "alice@example.com" aliceToBob
      (with_transport downThrice server0) in
  let recipientFails :=
    Transactions.postSend "alice@example.com" aliceToBob
      (with_transport (None :: downThrice) server0) in
  (ed_to ∘ fe_emailData <$> EmailSvc.getFailedEmails (snd senderFails))
    = ["alice@example.com"]
  ∧ (ed_to ∘ fe_emailData <$> EmailSvc.getFailedEmails (snd recipientFails))
    = ["bob@example.com"]
  ∧ (u_balance <$> users (snd senderFails) !! "alice@example.com") = Some 70%float
  ∧ (u_balance <$> users (snd recipientFails) !! "alice@example.com") = Some 70%float
  ∧ (u_balance <$> users (snd senderFails) !! "bob@example.com") = Some 40.1%float
  ∧ (u_balance <$> users (snd recipientFails) !! "bob@example.com") = Some 40.1%float
  ∧ fst senderFails = fst recipientFails.
Proof. cbv zeta. repeat split; vm_compute; reflexivity. Qed.

(** ** C9: a money request is outside every history *)

Lemma In_insertNewestFirst x v l :
  In v (Transactions.insertNewestFirst x l) ↔ v = x ∨ In v l.
Proof.
  induction l as [| y l IH]; simpl.
  - split; [intros [-> | []]; left; reflexivity | intros [-> | []]; left; reflexivity].
  - destruct (Transactions.tv_timestamp y <=? Transactions.tv_timestamp x); simpl.
    + split; [intros [-> | H]; [left; reflexivity | right; exact H]
             | intros [-> | H]; [left; reflexivity | right; exact H]].
    + rewrite IH. split.
      * intros [-> | [-> | H]]; [right; left | left | right; right]; auto.
      * intros [-> | [-> | H]]; [right; left | left | right; right]; auto.
Qed.

Lemma In_sortNewestFirst v l : In v (Transactions.sortNewestFirst l) ↔ In v l.
Proof.
  induction l as [| x l IH]; simpl; [reflexivity |].
  rewrite In_insertNewestFirst, IH. split; intros [H | H]; auto.
Qed.

(** A request is not a party's transaction for anyone. *)
Lemma request_has_no_party e tx :
  Transactions.tx_status tx = "pending" →
  Transactions.isSender e tx = false ∧ Transactions.isRecipient e tx = false.
Proof.
  destruct tx; simpl; [intros H; discriminate H |]. intros _.
  unfold Transactions.isSender, Transactions.isRecipient. simpl.
  split; reflexivity.
Qed.

Lemma userTransactions_completed e m v :
  In v (Transactions.userTransactions e m) → Transactions.tv_status v = "completed".
Proof.
  unfold Transactions.userTransactions. intros H.
  apply in_map_iff in H as (tx & <- & Htx). apply filter_In in Htx as [_ Hparty].
  destruct tx as [id se sn re rn a n t | id qe qn re a n t]; [reflexivity |].
  destruct (request_has_no_party e (RequestTx id qe qn re a n t) eq_refl) as [H1 H2].
  rewrite H1, H2 in Hparty. discriminate Hparty.
Qed.

Lemma getHistory_spec e s :
  Transactions.getHistory e s
  = (Normal (Json 200 (Transactions.sortNewestFirst
                         (Transactions.userTransactions e (transactions s)))), s).
Proof. reflexivity. Qed.

Lemma getTransaction_of_request id e s tx :
  Transactions.mapGet id (transactions s) = Some tx →
  Transactions.tx_status tx = "pending" →
  Transactions.getTransaction id e s = (Normal (JsonError 403 "Access denied" None), s).
Proof.
  intros Hget Hpending. unfold Transactions.getTransaction. js_run. rewrite Hget.
  destruct (request_has_no_party e tx Hpending) as [-> ->]. reflexivity.
Qed.

(** C9: an accepted request stores, under its id, a pending record with the
    fields [requesterEmail] and [requesteeEmail] and without [senderEmail] and
    [recipientEmail]. Hence, for every email, the requester's and the
    requestee's included, no entry of the history is a pending record, in the
    state the request leaves and in any other state, and the lookup of the
    request by its id is answered 403 "Access denied". *)
Theorem request_is_in_no_history s requesterEmail body requester :
  let requesteeEmail := Transactions.rq_requesteeEmail body in
  let amount := Transactions.rq_amount body in
  requesteeEmail ≠ "" →
  PrimFloat.ltb 0%float amount = true →
  users s !! requesterEmail = Some requester →
  u_verified requester = true →
  let o := Transactions.postRequest requesterEmail body s in
  let requestId := sendTxId s in
  (∃ summary, fst o = Normal (Json 200 summary)
              ∧ Transactions.rs_id summary = requestId
              ∧ Transactions.rs_status summary = "pending")
  ∧ (∃ request, Transactions.mapGet requestId (transactions (snd o)) = Some request
                ∧ Transactions.tx_status request = "pending"
                ∧ Transactions.tx_requesterEmail request = Some requesterEmail
                ∧ Transactions.tx_requesteeEmail request = Some requesteeEmail
                ∧ Transactions.tx_senderEmail request = None
                ∧ Transactions.tx_recipientEmail request = None)
  ∧ (∀ e, ∃ views,
       Transactions.getHistory e (snd o) = (Normal (Json 200 views), snd o)
       ∧ ∀ v, In v views → Transactions.tv_status v ≠ "pending")
  ∧ (∀ e, fst (Transactions.getTransaction requestId e (snd o))
          = Normal (JsonError 403 "Access denied" None))
  ∧ (∀ s' e v, fst (Transactions.getHistory e s') = Normal (Json 200 v) →
       ∀ x, In x v → Transactions.tv_status x ≠ "pending").
Proof.
  intros requesteeEmail amount Hrec Hpos Hs Hv o requestId.
  assert (E : o = (Normal (Json 200
                     {| Transactions.rs_id := requestId;
                        Transactions.rs_requesteeEmail := requesteeEmail;
                        Transactions.rs_amount := amount;
                        Transactions.rs_note := orEmpty (Transactions.rq_note body);
                        Transactions.rs_timestamp := now (world s);
                        Transactions.rs_status := "pending" |}),
                   set_transactions
                     (Transactions.mapSet requestId
                        (RequestTx requestId requesterEmail (u_name requester)
                           requesteeEmail amount (orEmpty (Transactions.rq_note body))
                           (now (world s))))
                     (set_world (set_idents (tl (idents (world s)))) s))).
  { subst o. unfold Transactions.postRequest. fold requesteeEmail. fold amount.
    rewrite (nonempty_truthy _ Hrec), (float_pos_truthy _ Hpos),
      (float_pos_not_le0 _ Hpos), (float_pos_parseFloat _ Hpos).
    unfold generateTransactionId. cbn [orb]. js_run. rewrite Hs. js_run.
    rewrite Hv. cbn [negb]. rewrite randomIdent_spec. js_run. reflexivity. }
  assert (Hcompleted : ∀ s' e x,
            In x (Transactions.sortNewestFirst
                    (Transactions.userTransactions e (transactions s'))) →
            Transactions.tv_status x ≠ "pending").
  { intros s' e x Hx. apply (proj1 (In_sortNewestFirst _ _)) in Hx.
    rewrite (userTransactions_completed e _ x Hx). intros H. discriminate H. }
  clearbody o. subst o. simpl fst. simpl snd. split; [| split; [| split; [| split]]].
  - eexists. repeat split.
  - eexists. split; [apply mapGet_mapSet |]. repeat split.
  - intros e. eexists. split; [apply getHistory_spec |]. apply Hcompleted.
  - intros e. erewrite getTransaction_of_request; [reflexivity | apply mapGet_mapSet |].
    reflexivity.
  - intros s' e v Hh x Hx.
    cbv beta iota delta [Transactions.getHistory tryCatch bind gets ret fst] in Hh.
    injection Hh as <-.
    exact (Hcompleted s' e x Hx).
Qed.

(** Alice asks Bob for 12.5. *)
Lemma request_is_in_no_history_witness :
  let s := server0 in
  let requesterEmail := "alice@example.com" in
  let body := aliceAsksBob in
  let requester := alice in
  let requesteeEmail := Transactions.rq_requesteeEmail body in
  let amount := Transactions.rq_amount body in
  let o := Transactions.postRequest requesterEmail body s in
  let requestId := sendTxId s in
  (requesteeEmail ≠ "" ∧ PrimFloat.ltb 0%float amount = true
   ∧ users s !! requesterEmail = Some requester ∧ u_verified requester = true)
  ∧ ((∃ summary, fst o = Normal (Json 200 summary)
                 ∧ Transactions.rs_id summary = requestId
                 ∧ Transactions.rs_status summary = "pending")
     ∧ (∃ request, Transactions.mapGet requestId (transactions (snd o)) = Some request
                   ∧ Transactions.tx_status request = "pending"
                   ∧ Transactions.tx_requesterEmail request = Some requesterEmail
                   ∧ Transactions.tx_requesteeEmail request = Some requesteeEmail
                   ∧ Transactions.tx_senderEmail request = None
                   ∧ Transactions.tx_recipientEmail request = None)
     ∧ (∀ e, ∃ views,
          Transactions.getHistory e (snd o) = (Normal (Json 200 views), snd o)
          ∧ ∀ v, In v views → Transactions.tv_status v ≠ "pending")
     ∧ (∀ e, fst (Transactions.getTransaction requestId e (snd o))
             = Normal (JsonError 403 "Access denied" None))
     ∧ (∀ s' e v, fst (Transactions.getHistory e s') = Normal (Json 200 v) →
          ∀ x, In x v → Transactions.tv_status x ≠ "pending")).
Proof.
  intros s requesterEmail body requester requesteeEmail amount o requestId.
  assert (H1 : requesteeEmail ≠ "") by (intros H; discriminate H).
  assert (H3 : users s !! requesterEmail = Some requester) by (vm_compute; reflexivity).
  split.
  - repeat split; try assumption; reflexivity.
  - apply (request_is_in_no_history s requesterEmail body requester H1);
      [reflexivity | exact H3 | reflexivity].
Defined.

(** After Alice's request, her history and Bob's are empty and neither of
    them can read the request back. *)
Lemma request_is_in_no_history_example :
  let o := Transactions.postRequest "alice@example.com" aliceAsksBob server0 in
  fst (Transactions.getHistory "alice@example.com" (snd o)) = Normal (Json 200 [])
  ∧ fst (Transactions.getHistory "bob@example.com" (snd o)) = Normal (Json 200 [])
  ∧ fst (Transactions.getTransaction "TX-k3x9a1" "alice@example.com" (snd o))
    = Normal (JsonError 403 "Access denied" None)
  ∧ fst (Transactions.getTransaction "TX-k3x9a1" "bob@example.com" (snd o))
    = Normal (JsonError 403 "Access denied" None).
Proof. cbv zeta. repeat split; vm_compute; reflexivity. Qed.

(** ** C10: a registration whose verification mail cannot be delivered *)

Lemma failureMessage_nonempty n msg : falsyString (EmailSvc.failureMessage n msg) = false.
Proof. apply nonempty_truthy. intros H. discriminate H. Qed.

Lemma sendVerificationCode_delivery_failed s email name e1 e2 e3 tr :
  let key := EmailSvc.rateLimitKey email "verification" in
  let t := now (world s) in
  let recent := recentAt t (windowOf key s) in
  (length recent < 3)%nat →
  transport (world s) = Some e1 :: Some e2 :: Some e3 :: tr →
  let o := EmailSvc.sendVerificationCode email name s in
  fst o = Thrown (EmailSvc.failureMessage 3 (EmailSvc.errorMessage e3))
  ∧ windowOf key (snd o) = recent ++ [t]
  ∧ verificationCodes (emailService (snd o)) !! email
    = Some {| vr_code := codeDrawn s; vr_expiresAt := t + 600000; vr_attempts := 0 |}
  ∧ users (snd o) = users s
  ∧ now (world (snd o)) = t + 2000 + 4000.
Proof.
  intros key t recent H3 Htr o.
  destruct (sendVerificationCode_allowed_state s email name H3) as (W & C & U & _).
  fold o in W, C, U. fold key in W. fold t in W, C. fold recent in W.
  repeat split; try assumption; subst o;
    rewrite (sendVerificationCode_allowed s email name H3); cbv zeta;
    destruct (sendEmailWithRetry_three_failures (issuingState email s)
                (verificationMail email) "verification" e1 e2 e3 tr Htr)
      as (R & _ & _ & N & _);
    destruct (EmailSvc.sendEmailWithRetry (verificationMail email) "verification" 3
                (issuingState email s)) as [c s4];
    simpl in R, N; subst c; simpl; [reflexivity | exact N].
Qed.

(** C10: a registration that passes its checks stores the account, with
    balance 0 and not verified, before it sends the verification mail. When
    the three attempts of that mail fail, the reply is the 500 carrying the
    delivery error, and yet the account is stored, the slot taken in the
    rate window is still taken, and the verification record is stored and not
    expired. *)
Theorem failed_registration_keeps_the_account s body e1 e2 e3 tr :
  let email := Auth.rb_email body in
  let name := Auth.rb_name body in
  let key := EmailSvc.rateLimitKey email "verification" in
  let t := now (world s) in
  name ≠ "" → email ≠ "" → Auth.rb_phone body ≠ "" →
  (8 ≤ String.length (Auth.rb_password body))%nat →
  users s !! email = None →
  (length (recentAt t (windowOf key s)) < 3)%nat →
  transport (world s) = Some e1 :: Some e2 :: Some e3 :: tr →
  let o := Auth.postRegister body s in
  fst o = Normal (JsonError 500
                    (EmailSvc.failureMessage 3 (EmailSvc.errorMessage e3)) None)
  ∧ users (snd o) !! email
    = Some {| u_id := hd "" (idents (world s)); u_name := name; u_email := email;
              u_verified := false; u_balance := 0%float |}
  ∧ windowOf key (snd o) = recentAt t (windowOf key s) ++ [t]
  ∧ (∃ code, verificationCodes (emailService (snd o)) !! email
             = Some {| vr_code := code; vr_expiresAt := t + 600000; vr_attempts := 0 |})
  ∧ now (world (snd o)) ≤ t + 600000.
Proof.
  intros email name key t Hname Hemail Hphone Hpw Hnew H3 Htr o.
  assert (Hpw' : Auth.rb_password body ≠ "").
  { intros H. rewrite H in Hpw. simpl in Hpw. lia. }
  set (user := {| u_id := hd "" (idents (world s)); u_name := name; u_email := email;
                  u_verified := false; u_balance := 0%float |}).
  set (s1 := set_users (insert email user)
               (set_world (set_idents (tl (idents (world s)))) s)).
  destruct (sendVerificationCode_delivery_failed s1 email name e1 e2 e3 tr H3 Htr)
    as (R & W & C & U & N).
  assert (E : o = (Normal (JsonError 500
                     (EmailSvc.failureMessage 3 (EmailSvc.errorMessage e3)) None),
                   snd (EmailSvc.sendVerificationCode email name s1))).
  { subst o. unfold Auth.postRegister. fold email. fold name.
    rewrite (nonempty_truthy _ Hname), (nonempty_truthy _ Hemail),
      (nonempty_truthy _ Hphone), (nonempty_truthy _ Hpw').
    cbn [orb]. js_run. rewrite Hnew.
    change (bool_decide (is_Some (@None User))) with false. cbv iota.
    rewrite (proj2 (Nat.ltb_ge _ _) Hpw). rewrite randomIdent_spec. js_run.
    fold user. fold s1.
    destruct (EmailSvc.sendVerificationCode email name s1) as [c s2].
    simpl in R. subst c. rewrite failureMessage_nonempty. reflexivity. }
  clearbody o. subst o. simpl fst. simpl snd.
  repeat split.
  - rewrite U. subst s1. simpl. apply lookup_insert_eq.
  - exact W.
  - eexists. exact C.
  - rewrite N. simpl. lia.
Qed.

(** Dave registers while the transport rejects three times. *)
Lemma failed_registration_keeps_the_account_witness :
  let s := with_transport downThrice server0 in
  let body := daveRegisters in
  let email := Auth.rb_email body in
  let name := Auth.rb_name body in
  let key := EmailSvc.rateLimitKey email "verification" in
  let t := now (world s) in
  let o := Auth.postRegister body s in
  (name ≠ "" ∧ email ≠ "" ∧ Auth.rb_phone body ≠ ""
   ∧ (8 ≤ String.length (Auth.rb_password body))%nat
   ∧ users s !! email = None
   ∧ (length (recentAt t (windowOf key s)) < 3)%nat
   ∧ transport (world s)
     = Some "ECONNRESET" :: Some "ECONNRESET" :: Some "ETIMEDOUT" :: [])
  ∧ (fst o = Normal (JsonError 500
                       (EmailSvc.failureMessage 3 (EmailSvc.errorMessage "ETIMEDOUT"))
                       None)
     ∧ users (snd o) !! email
       = Some {| u_id := hd "" (idents (world s)); u_name := name; u_email := email;
                 u_verified := false; u_balance := 0%float |}
     ∧ windowOf key (snd o) = recentAt t (windowOf key s) ++ [t]
     ∧ (∃ code, verificationCodes (emailService (snd o)) !! email
                = Some {| vr_code := code; vr_expiresAt := t + 600000;
                          vr_attempts := 0 |})
     ∧ now (world (snd o)) ≤ t + 600000).
Proof.
  intros s body email name key t o.
  assert (H1 : name ≠ "") by (intros H; discriminate H).
  assert (H2 : email ≠ "") by (intros H; discriminate H).
  assert (H3 : Auth.rb_phone body ≠ "") by (intros H; discriminate H).
  assert (H4 : (8 ≤ String.length (Auth.rb_password body))%nat) by (simpl; lia).
  assert (H5 : users s !! email = None) by (vm_compute; reflexivity).
  assert (H6 : (length (recentAt t (windowOf key s)) < 3)%nat) by (vm_compute; lia).
  split.
  - repeat split; try assumption; reflexivity.
  - apply (failed_registration_keeps_the_account s body
             "ECONNRESET" "ECONNRESET" "ETIMEDOUT" [] H1 H2 H3 H4 H5 H6).
    reflexivity.
Defined.

(** * Further properties of the code *)

(** ** The log and the pending entry of a delivery *)

(** One attempt either delivers, logs its success and clears the id from
    the pending entries, or rejects and leaves the logs and the pending
    entries alone. *)
Lemma tryAttempt_effect attempt emailId data logEntry s :
  (∃ t s', EmailSvc.tryAttempt attempt emailId data logEntry s
           = (Normal (Some {| EmailSvc.sr_emailId := emailId;
                              EmailSvc.sr_attempts := attempt |}), s')
     ∧ emailLogs (emailService s')
       = emailLogs (emailService s) ++ [EmailSvc.log_succeed t logEntry]
     ∧ failedEmails (emailService s') = delete emailId (failedEmails (emailService s)))
  ∨ (∃ msg s', EmailSvc.tryAttempt attempt emailId data logEntry s = (Thrown msg, s')
       ∧ emailLogs (emailService s') = emailLogs (emailService s)
       ∧ failedEmails (emailService s') = failedEmails (emailService s)).
Proof.
  unfold EmailSvc.tryAttempt, sleep, sgMail_send.
  destruct s as [[t tr rs ids sl] es us txs].
  destruct tr as [| [msg |] tr]; destruct (1 <? attempt)%nat; js_run; simpl;
    solve [ left; eexists _, _; repeat split; reflexivity
          | right; eexists _, _; repeat split; reflexivity ].
Qed.

(** What the loop leaves, entered at [attempt] with the entry [logEntry]. *)
Lemma attemptLoop_effect remaining :
  ∀ attempt maxRetries emailId data type logEntry s,
    (attempt + remaining = S maxRetries)%nat → remaining ≠ 0%nat →
    let r := EmailSvc.attemptLoop remaining attempt maxRetries emailId data type
               logEntry s in
    ∃ l, emailLogs (emailService (snd r)) = emailLogs (emailService s) ++ [l]
         ∧ log_id l = log_id logEntry ∧ log_to l = log_to logEntry
         ∧ log_type l = log_type logEntry
         ∧ match fst r with
           | Normal (Some res) =>
             EmailSvc.sr_emailId res = emailId
             ∧ (attempt ≤ EmailSvc.sr_attempts res ≤ maxRetries)%nat
             ∧ log_success l = true
             ∧ log_attempts l = EmailSvc.sr_attempts res
             ∧ length (log_errors l)
               = (length (log_errors logEntry) + (EmailSvc.sr_attempts res - attempt))%nat
             ∧ failedEmails (emailService (snd r))
               = delete emailId (failedEmails (emailService s))
           | Normal None => False
           | Thrown e =>
             (∃ msg, e = EmailSvc.failureMessage maxRetries msg)
             ∧ log_success l = false
             ∧ log_attempts l = maxRetries
             ∧ length (log_errors l) = (length (log_errors logEntry) + remaining)%nat
             ∧ failedEmails (emailService (snd r))
               = <[emailId := {| fe_log := l; fe_emailData := data |}]>
                   (failedEmails (emailService s))
           end.
Proof.
  induction remaining as [| remaining IH]; intros attempt maxRetries emailId data type
    logEntry s Hsum Hpos; [congruence |].
  simpl. unfold tryCatch.
  destruct (tryAttempt_effect attempt emailId data
              (EmailSvc.log_setAttempts attempt logEntry) s)
    as [(t & s' & -> & Hl & Hf) | (msg & s' & -> & Hl & Hf)].
  - simpl. eexists. split; [exact Hl |]. simpl.
    repeat split; try reflexivity; try lia. exact Hf.
  - js_run. destruct (Nat.eqb_spec attempt maxRetries) as [-> | Hne].
    + simpl. eexists. split; [rewrite Hl; reflexivity |]. simpl.
      repeat split; try reflexivity.
      * eexists. reflexivity.
      * rewrite length_app. simpl. lia.
      * rewrite Hf. reflexivity.
    + specialize (IH (S attempt) maxRetries emailId data type
        (EmailSvc.log_pushError
           {| ae_attempt := attempt; ae_error := EmailSvc.errorMessage msg;
              ae_timestamp := now (world s') |}
           (EmailSvc.log_setAttempts attempt logEntry)) s').
      destruct IH as (l & Hl' & Hid & Hto & Hty & Hres); [lia | lia |].
      exists l. rewrite Hl', Hl. split; [reflexivity |].
      split; [exact Hid |]. split; [exact Hto |]. split; [exact Hty |].
      destruct (fst (EmailSvc.attemptLoop remaining (S attempt) maxRetries emailId data
                       type _ s')) as [[res |] | e]; try exact Hres.
      * destruct Hres as (H1 & H2 & H3 & H4 & H5 & H6).
        repeat split; try assumption; try lia.
        -- rewrite H5. simpl. rewrite length_app. simpl. lia.
        -- rewrite H6, Hf. reflexivity.
      * destruct Hres as (H1 & H2 & H3 & H4 & H5).
        repeat split; try assumption.
        -- rewrite H4. simpl. rewrite length_app. simpl. lia.
        -- rewrite H5, Hf. reflexivity.
Qed.

(** X1: whatever the transport does, a delivery appends exactly one entry to
    the logs, under the id it generated. When it resolves, after [k] attempts
    with [1 <= k <= 3], the entry records a success, [k] attempts and [k - 1]
    errors, and no pending entry is left under that id. When it throws, the
    entry records a failure, 3 attempts and 3 errors, and it is parked with
    the message under that id. It never returns without a result. *)
Theorem delivery_logs_once data type s :
  let r := EmailSvc.sendEmailWithRetry data type 3 s in
  ∃ l, emailLogs (emailService (snd r)) = emailLogs (emailService s) ++ [l]
       ∧ log_id l = emailIdAt s ∧ log_to l = ed_to data ∧ log_type l = type
       ∧ match fst r with
         | Normal (Some res) =>
           EmailSvc.sr_emailId res = emailIdAt s
           ∧ (1 ≤ EmailSvc.sr_attempts res ≤ 3)%nat
           ∧ log_success l = true
           ∧ log_attempts l = EmailSvc.sr_attempts res
           ∧ length (log_errors l) = (EmailSvc.sr_attempts res - 1)%nat
           ∧ failedEmails (emailService (snd r))
             = delete (emailIdAt s) (failedEmails (emailService s))
         | Normal None => False
         | Thrown e =>
           (∃ msg, e = EmailSvc.failureMessage 3 msg)
           ∧ log_success l = false
           ∧ log_attempts l = 3%nat
           ∧ length (log_errors l) = 3%nat
           ∧ failedEmails (emailService (snd r))
             = <[emailIdAt s := {| fe_log := l; fe_emailData := data |}]>
                 (failedEmails (emailService s))
         end.
Proof.
  intros r. subst r. unfold EmailSvc.sendEmailWithRetry, EmailSvc.newEmailId. js_run.
  rewrite randomIdent_spec. js_run.
  change (pretty (now (world s)) +:+ "-" +:+ hd "" (idents (world s)))
    with (emailIdAt s).
  set (s1 := set_world (set_idents (tl (idents (world s)))) s).
  pose proof (attemptLoop_effect 3 1 3 (emailIdAt s) data type
                (EmailSvc.newLogEntry (emailIdAt s) (ed_to data) type (now (world s1)))
                s1 eq_refl) as H.
  destruct H as (l & Hl & Hid & Hto & Hty & Hres); [discriminate |].
  exists l. split; [exact Hl |]. split; [exact Hid |]. split; [exact Hto |].
  split; [exact Hty |].
  destruct (fst (EmailSvc.attemptLoop 3 1 3 (emailIdAt s) data type _ s1))
    as [[res |] | e]; exact Hres.
Qed.

(** X2: the pending entries stay consistent with the logs across a
    delivery: if every pending entry is filed under the id of its own log,
    a log of failure that is stored, this is still so afterwards, whatever
    the transport does. *)
Theorem delivery_keeps_pending_consistent data type s :
  pendingConsistent s →
  pendingConsistent (snd (EmailSvc.sendEmailWithRetry data type 3 s)).
Proof.
  intros Hinv. destruct (delivery_logs_once data type s) as (l & Hl & Hid & _ & _ & Hres).
  cbv zeta in *. intros k fe Hk. rewrite Hl.
  destruct (fst (EmailSvc.sendEmailWithRetry data type 3 s)) as [[res |] | e];
    [| contradiction |].
  - destruct Hres as (_ & _ & _ & _ & _ & Hf). rewrite Hf in Hk.
    apply lookup_delete_Some in Hk as [_ Hk].
    destruct (Hinv k fe Hk) as (H1 & H2 & H3).
    repeat split; try assumption. apply in_or_app. left. exact H3.
  - destruct Hres as (_ & Hs & _ & _ & Hf). rewrite Hf in Hk.
    destruct (decide (emailIdAt s = k)) as [<- | Hne].
    + rewrite lookup_insert_eq in Hk. injection Hk as <-. simpl.
      repeat split; try assumption. apply in_or_app. right. left. reflexivity.
    + rewrite lookup_insert_ne in Hk by exact Hne.
      destruct (Hinv k fe Hk) as (H1 & H2 & H3).
      repeat split; try assumption. apply in_or_app. left. exact H3.
Qed.

(** The state where the transport is down and nothing is pending yet. *)
Lemma delivery_keeps_pending_consistent_witness :
  pendingConsistent (with_transport downThrice server0)
  ∧ pendingConsistent (snd (EmailSvc.sendEmailWithRetry receiptMail "receipt" 3
                              (with_transport downThrice server0))).
Proof.
  assert (H : pendingConsistent (with_transport downThrice server0)).
  { intros k fe Hk. simpl in Hk. rewrite lookup_empty in Hk. discriminate Hk. }
  split; [exact H |].
  apply (delivery_keeps_pending_consistent receiptMail "receipt"
           (with_transport downThrice server0) H).
Defined.

(** X3: a delivery whose transport rejects twice and then accepts resolves
    with 3 attempts, after suspending 2000 ms and 4000 ms; its log records a
    success with the two errors, and the pending entries are as before, none
    being filed under a newly generated id. *)
Theorem delivery_succeeds_at_third_attempt s data type e1 e2 tr :
  transport (world s) = Some e1 :: Some e2 :: None :: tr →
  failedEmails (emailService s) !! emailIdAt s = None →
  let r := EmailSvc.sendEmailWithRetry data type 3 s in
  fst r = Normal (Some {| EmailSvc.sr_emailId := emailIdAt s; EmailSvc.sr_attempts := 3 |})
  ∧ slept (world (snd r)) = slept (world s) ++ [2000; 4000]
  ∧ failedEmails (emailService (snd r)) = failedEmails (emailService s)
  ∧ ∃ l, emailLogs (emailService (snd r)) = emailLogs (emailService s) ++ [l]
         ∧ log_success l = true ∧ log_attempts l = 3%nat
         ∧ (ae_error <$> log_errors l)
           = [EmailSvc.errorMessage e1; EmailSvc.errorMessage e2]
         ∧ log_completedAt l = Some (now (world s) + 2000 + 4000).
Proof.
  intros Htr Hnew r. subst r.
  destruct s as [[t tr0 rs ids sl] es us txs]. simpl in Htr. subst tr0.
  unfold emailIdAt in *. simpl in Hnew.
  unfold EmailSvc.sendEmailWithRetry, EmailSvc.newEmailId.
  destruct ids as [| i ids]; cbn -[pretty EmailSvc.errorMessage "+:+"] in *;
    rewrite <- !app_assoc;
    (split; [reflexivity |]); (split; [reflexivity |]);
    (split; [apply delete_id; exact Hnew |]);
    eexists; repeat split; reflexivity.
Qed.

(** A transport that rejects twice and then accepts. *)
Lemma delivery_succeeds_at_third_attempt_witness :
  let s := with_transport [Some "ECONNRESET"; Some "ETIMEDOUT"; None] server0 in
  let r := EmailSvc.sendEmailWithRetry receiptMail "receipt" 3 s in
  (transport (world s) = Some "ECONNRESET" :: Some "ETIMEDOUT" :: None :: []
   ∧ failedEmails (emailService s) !! emailIdAt s = None)
  ∧ (fst r = Normal (Some {| EmailSvc.sr_emailId := emailIdAt s;
                             EmailSvc.sr_attempts := 3 |})
     ∧ slept (world (snd r)) = slept (world s) ++ [2000; 4000]
     ∧ failedEmails (emailService (snd r)) = failedEmails (emailService s)
     ∧ ∃ l, emailLogs (emailService (snd r)) = emailLogs (emailService s) ++ [l]
            ∧ log_success l = true ∧ log_attempts l = 3%nat
            ∧ (ae_error <$> log_errors l)
              = [EmailSvc.errorMessage "ECONNRESET"; EmailSvc.errorMessage "ETIMEDOUT"]
            ∧ log_completedAt l = Some (now (world s) + 2000 + 4000)).
Proof.
  intros s r. split; [split; reflexivity |].
  apply (delivery_succeeds_at_third_attempt s receiptMail "receipt"
           "ECONNRESET" "ETIMEDOUT" []); reflexivity.
Defined.

(** ** The manual retry *)

(** X4: the retry of a pending id whose three new attempts fail throws
    "Retry failed: " followed by the delivery error, keeps the entry it
    retried and parks the message a second time, under the new id. *)
Theorem retry_that_fails_again s emailId fe e1 e2 e3 tr :
  failedEmails (emailService s) !! emailId = Some fe →
  transport (world s) = Some e1 :: Some e2 :: Some e3 :: tr →
  emailIdAt s ≠ emailId →
  let o := EmailSvc.retryFailedEmail emailId s in
  fst o = Thrown ("Retry failed: "
                  +:+ EmailSvc.failureMessage 3 (EmailSvc.errorMessage e3))
  ∧ failedEmails (emailService (snd o)) !! emailId = Some fe
  ∧ (fe_emailData <$> failedEmails (emailService (snd o)) !! emailIdAt s)
    = Some (fe_emailData fe)
  ∧ (log_type ∘ fe_log <$> failedEmails (emailService (snd o)) !! emailIdAt s)
    = Some (log_type (fe_log fe)).
Proof.
  intros Hfe Htr Hne o. subst o.
  unfold EmailSvc.retryFailedEmail. js_run. rewrite Hfe.
  destruct (sendEmailWithRetry_three_failures s (fe_emailData fe)
              (log_type (fe_log fe)) e1 e2 e3 tr Htr) as (R & _ & _ & _ & F & _).
  destruct (EmailSvc.sendEmailWithRetry (fe_emailData fe) (log_type (fe_log fe)) 3 s)
    as [c s']. simpl in R, F. subst c. simpl. rewrite F.
  rewrite lookup_insert_ne by exact Hne. rewrite lookup_insert_eq.
  repeat split. exact Hfe.
Qed.

(** The receipt that failed is retried while the transport is still down. *)
Lemma retry_that_fails_again_witness :
  let s := with_transport downThrice serverAfterFailure in
  let fe := {| fe_log := failedLogAt (with_transport downThrice server0) receiptMail
                           "receipt" "ECONNRESET" "ECONNRESET" "ETIMEDOUT";
               fe_emailData := receiptMail |} in
  let o := EmailSvc.retryFailedEmail "1000-k3x9a1" s in
  (failedEmails (emailService s) !! "1000-k3x9a1" = Some fe
   ∧ transport (world s)
     = Some "ECONNRESET" :: Some "ECONNRESET" :: Some "ETIMEDOUT" :: []
   ∧ emailIdAt s ≠ "1000-k3x9a1")
  ∧ (fst o = Thrown ("Retry failed: "
                     +:+ EmailSvc.failureMessage 3 (EmailSvc.errorMessage "ETIMEDOUT"))
     ∧ failedEmails (emailService (snd o)) !! "1000-k3x9a1" = Some fe
     ∧ (fe_emailData <$> failedEmails (emailService (snd o)) !! emailIdAt s)
       = Some (fe_emailData fe)
     ∧ (log_type ∘ fe_log <$> failedEmails (emailService (snd o)) !! emailIdAt s)
       = Some (log_type (fe_log fe))).
Proof.
  intros s fe o.
  assert (H1 : failedEmails (emailService s) !! "1000-k3x9a1" = Some fe)
    by (vm_compute; reflexivity).
  assert (H3 : emailIdAt s ≠ "1000-k3x9a1") by (vm_compute; intros H; discriminate H).
  split; [repeat split; assumption |].
  apply (retry_that_fails_again s "1000-k3x9a1" fe
           "ECONNRESET" "ECONNRESET" "ETIMEDOUT" [] H1 eq_refl H3).
Defined.

(** X5: the admin route of the retry answers 400 "Failed email not found"
    for an id that is not pending and changes nothing; it never answers
    anything but a 200 or a 400. *)
Theorem postRetry_unknown_id s emailId :
  failedEmails (emailService s) !! emailId = None →
  Admin.postRetry emailId s = (Normal (JsonError 400 "Failed email not found" None), s)
  ∧ ∀ s' id', (∃ result, fst (Admin.postRetry id' s') = Normal (Json 200 result))
              ∨ (∃ message, fst (Admin.postRetry id' s')
                            = Normal (JsonError 400 message None)).
Proof.
  intros Hnone. split.
  - unfold Admin.postRetry, EmailSvc.retryFailedEmail. js_run. rewrite Hnone. reflexivity.
  - intros s' id'. unfold Admin.postRetry. js_run.
    destruct (EmailSvc.retryFailedEmail id' s') as [[result | message] s''].
    + left. eexists. reflexivity.
    + right. eexists. reflexivity.
Qed.

(** Nothing is pending on the first server. *)
Lemma postRetry_unknown_id_witness :
  failedEmails (emailService server0) !! "1000-k3x9a1" = None
  ∧ (Admin.postRetry "1000-k3x9a1" server0
     = (Normal (JsonError 400 "Failed email not found" None), server0)
     ∧ ∀ s' id', (∃ result, fst (Admin.postRetry id' s') = Normal (Json 200 result))
                 ∨ (∃ message, fst (Admin.postRetry id' s')
                               = Normal (JsonError 400 message None))).
Proof.
  split; [reflexivity |].
  apply (postRetry_unknown_id server0 "1000-k3x9a1"). reflexivity.
Defined.

(** ** Checking a verification code *)

(** The state a check leaves differs from the one it found at most in the
    record of the checked email. *)
Lemma verifyCode_cases email inputCode s :
  let o := EmailSvc.verifyCode email inputCode s in
  snd o = s
  ∨ snd o = set_emailService (set_verificationCodes (delete email)) s
  ∨ (∃ stored, verificationCodes (emailService s) !! email = Some stored
       ∧ (vr_attempts stored < 3)%nat
       ∧ snd o = set_emailService
                   (set_verificationCodes (insert email (EmailSvc.vr_increment stored))) s).
Proof.
  unfold EmailSvc.verifyCode. js_run.
  destruct (verificationCodes (emailService s) !! email) as [stored |] eqn:Hs;
    [| left; reflexivity].
  js_run. destruct (vr_expiresAt stored <? now (world s)); [right; left; reflexivity |].
  destruct (Nat.leb_spec 3 (vr_attempts stored)); [right; left; reflexivity |].
  destruct (bool_decide (vr_code stored = inputCode)); simpl.
  - right. left. reflexivity.
  - right. right. exists stored. split; [reflexivity | split; [lia | reflexivity]].
Qed.

(** X6: a check made after the expiry instant of the record fails with
    "Verification code has expired", whatever the code and the counter, and
    deletes the record: every later check fails with "No verification code
    found". *)
Theorem expired_code_is_purged s t email code stored :
  verificationCodes (emailService s) !! email = Some stored →
  vr_expiresAt stored < t →
  let o := checkAt t email code s in
  fst o = Thrown EmailSvc.msgExpired
  ∧ verificationCodes (emailService (snd o)) !! email = None
  ∧ ∀ t' code', fst (checkAt t' email code' (snd o)) = Thrown EmailSvc.msgNoCode.
Proof.
  intros Hs Ht o.
  assert (E : o = (Thrown EmailSvc.msgExpired,
                   set_emailService (set_verificationCodes (delete email)) (at_time t s))).
  { subst o. unfold checkAt, EmailSvc.verifyCode. js_run.
    change (verificationCodes (emailService (at_time t s)))
      with (verificationCodes (emailService s)).
    rewrite Hs. js_run. change (now (world (at_time t s))) with t.
    rewrite (proj2 (Z.ltb_lt _ _) Ht). reflexivity. }
  clearbody o. subst o. simpl fst. simpl snd.
  assert (Hgone : verificationCodes
                    (emailService
                       (set_emailService (set_verificationCodes (delete email))
                          (at_time t s))) !! email = None)
    by (simpl; apply lookup_delete_eq).
  repeat split; [exact Hgone |].
  intros t' code'. rewrite (checkAt_missing _ t' email code' Hgone). reflexivity.
Qed.

(** Carol's code, which expires at 601000, is checked one second late. *)
Lemma expired_code_is_purged_witness :
  let stored := {| vr_code := "123456"; vr_expiresAt := 601000; vr_attempts := 0 |} in
  let o := checkAt 602000 "carol@example.com" "123456" serverWithCode in
  (verificationCodes (emailService serverWithCode) !! "carol@example.com" = Some stored
   ∧ vr_expiresAt stored < 602000)
  ∧ (fst o = Thrown EmailSvc.msgExpired
     ∧ verificationCodes (emailService (snd o)) !! "carol@example.com" = None
     ∧ ∀ t' code', fst (checkAt t' "carol@example.com" code' (snd o))
                   = Thrown EmailSvc.msgNoCode).
Proof.
  intros stored o.
  assert (H1 : verificationCodes (emailService serverWithCode) !! "carol@example.com"
               = Some stored) by (vm_compute; reflexivity).
  split; [split; [exact H1 | simpl; lia] |].
  apply (expired_code_is_purged serverWithCode 602000 "carol@example.com" "123456"
           stored H1). simpl. lia.
Defined.

(** X7: the stored code, checked no later than its expiry instant (that
    instant included) with fewer than three wrong checks counted, is accepted
    once: the check returns [true] and deletes the record, so the same code
    presented again fails with "No verification code found". *)
Theorem right_code_is_single_use s t email stored :
  verificationCodes (emailService s) !! email = Some stored →
  t ≤ vr_expiresAt stored →
  (vr_attempts stored < 3)%nat →
  let o := checkAt t email (vr_code stored) s in
  fst o = Normal true
  ∧ verificationCodes (emailService (snd o)) !! email = None
  ∧ ∀ t', fst (checkAt t' email (vr_code stored) (snd o)) = Thrown EmailSvc.msgNoCode.
Proof.
  intros Hs Ht H3 o.
  assert (E : o = (Normal true,
                   set_emailService (set_verificationCodes (delete email)) (at_time t s))).
  { subst o. unfold checkAt.
    apply (verifyCode_match (at_time t s) email (vr_code stored) stored Hs Ht H3 eq_refl). }
  clearbody o. subst o. simpl fst. simpl snd.
  assert (Hgone : verificationCodes
                    (emailService
                       (set_emailService (set_verificationCodes (delete email))
                          (at_time t s))) !! email = None)
    by (simpl; apply lookup_delete_eq).
  repeat split; [exact Hgone |].
  intros t'. rewrite (checkAt_missing _ t' email _ Hgone). reflexivity.
Qed.

(** Carol's code is checked at the very instant it expires. *)
Lemma right_code_is_single_use_witness :
  let stored := {| vr_code := "123456"; vr_expiresAt := 601000; vr_attempts := 0 |} in
  let o := checkAt 601000 "carol@example.com" (vr_code stored) serverWithCode in
  (verificationCodes (emailService serverWithCode) !! "carol@example.com" = Some stored
   ∧ 601000 ≤ vr_expiresAt stored ∧ (vr_attempts stored < 3)%nat)
  ∧ (fst o = Normal true
     ∧ verificationCodes (emailService (snd o)) !! "carol@example.com" = None
     ∧ ∀ t', fst (checkAt t' "carol@example.com" (vr_code stored) (snd o))
             = Thrown EmailSvc.msgNoCode).
Proof.
  intros stored o.
  assert (H1 : verificationCodes (emailService serverWithCode) !! "carol@example.com"
               = Some stored) by (vm_compute; reflexivity).
  split; [split; [exact H1 | split; simpl; lia] |].
  apply (right_code_is_single_use serverWithCode 601000 "carol@example.com" stored H1);
    simpl; lia.
Defined.

(** X8: a check touches nothing but the record of the email it checks: the
    clock and the random sources, the accounts, the transactions, the rate
    windows, the logs, the pending entries and the records of every other
    email are as before, whatever the outcome. *)
Theorem check_touches_one_record email inputCode s :
  let s' := snd (EmailSvc.verifyCode email inputCode s) in
  world s' = world s
  ∧ users s' = users s
  ∧ transactions s' = transactions s
  ∧ rateLimits (emailService s') = rateLimits (emailService s)
  ∧ failedEmails (emailService s') = failedEmails (emailService s)
  ∧ emailLogs (emailService s') = emailLogs (emailService s)
  ∧ delete email (verificationCodes (emailService s'))
    = delete email (verificationCodes (emailService s)).
Proof.
  intros s'. subst s'.
  destruct (verifyCode_cases email inputCode s) as [-> | [-> | (stored & _ & _ & ->)]];
    simpl; repeat split;
    [apply delete_delete_eq | apply delete_insert_eq].
Qed.

(** X9: no check makes a counter exceed 3: if every stored record has
    counted at most three wrong codes, this is still so after any check. *)
Theorem check_keeps_counters_bounded email inputCode s :
  countersBounded s →
  countersBounded (snd (EmailSvc.verifyCode email inputCode s)).
Proof.
  intros Hinv e r.
  destruct (verifyCode_cases email inputCode s)
    as [-> | [-> | (stored & Hs & H3 & ->)]]; simpl.
  - apply Hinv.
  - intros H. apply lookup_delete_Some in H as [_ H]. exact (Hinv e r H).
  - intros H. apply lookup_insert_Some in H as [[<- <-] | [_ H]].
    + simpl. lia.
    + exact (Hinv e r H).
Qed.

(** The server that holds Carol's fresh code, and a wrong check. *)
Lemma check_keeps_counters_bounded_witness :
  countersBounded serverWithCode
  ∧ countersBounded (snd (EmailSvc.verifyCode "carol@example.com" "000000" serverWithCode)).
Proof.
  assert (H : countersBounded serverWithCode).
  { intros e r Hr. simpl in Hr. apply lookup_insert_Some in Hr as [[_ <-] | [_ Hr]].
    - simpl. lia.
    - rewrite lookup_empty in Hr. discriminate Hr. }
  split; [exact H |].
  apply (check_keeps_counters_bounded "carol@example.com" "000000" serverWithCode H).
Defined.

(** ** Issuing, again *)

(** X10: an issuance that the limiter lets through replaces whatever record
    the email had, counter included, by the new code with counter 0 and an
    expiry 10 minutes ahead, and touches no other email's record and no
    account; this holds whether or not the mail is then delivered. *)
Theorem issuance_replaces_the_record s email name :
  (length (recentAt (now (world s))
             (windowOf (EmailSvc.rateLimitKey email "verification") s)) < 3)%nat →
  let o := EmailSvc.sendVerificationCode email name s in
  verificationCodes (emailService (snd o))
    = <[email := {| vr_code := codeDrawn s; vr_expiresAt := now (world s) + 600000;
                    vr_attempts := 0 |}]> (verificationCodes (emailService s))
  ∧ users (snd o) = users s
  ∧ transactions (snd o) = transactions s.
Proof.
  intros H3 o. subst o. rewrite (sendVerificationCode_allowed s email name H3). cbv zeta.
  pose proof (keeps_sendEmailWithRetry (verificationMail email) "verification" 3
                (issuingState email s)) as Hk.
  destruct (EmailSvc.sendEmailWithRetry (verificationMail email) "verification" 3
              (issuingState email s)) as [c s4].
  simpl fst in *. simpl snd in *.
  unfold ledgerView in Hk. injection Hk as Hu Htx Hvc Hrl.
  destruct c as [[r |] | e]; simpl; rewrite Hu, Htx, Hvc; repeat split.
Qed.

(** A new code for Carol, whose record is on its way to exhaustion. *)
Lemma issuance_replaces_the_record_witness :
  let s := snd (checkAt 1000 "carol@example.com" "000000" serverWithCode) in
  let o := EmailSvc.sendVerificationCode "carol@example.com" "Carol" s in
  (length (recentAt (now (world s))
             (windowOf (EmailSvc.rateLimitKey "carol@example.com" "verification") s))
   < 3)%nat
  ∧ (verificationCodes (emailService (snd o))
       = <["carol@example.com" :=
             {| vr_code := codeDrawn s; vr_expiresAt := now (world s) + 600000;
                vr_attempts := 0 |}]> (verificationCodes (emailService s))
     ∧ users (snd o) = users s
     ∧ transactions (snd o) = transactions s).
Proof.
  intros s o.
  assert (H : (length (recentAt (now (world s))
                 (windowOf (EmailSvc.rateLimitKey "carol@example.com" "verification") s))
               < 3)%nat) by (vm_compute; lia).
  split; [exact H |].
  apply (issuance_replaces_the_record s "carol@example.com" "Carol" H).
Defined.

(** X11: an issuance that the limiter refuses does nothing but prune the
    window: it throws "Rate limit exceeded", draws no code, replaces no
    record, sends no mail and writes no log. *)
Theorem throttled_issuance_only_prunes s email name :
  let key := EmailSvc.rateLimitKey email "verification" in
  let recent := recentAt (now (world s)) (windowOf key s) in
  (3 ≤ length recent)%nat →
  EmailSvc.sendVerificationCode email name s
  = (Thrown EmailSvc.rateLimitMessage,
     set_emailService (set_rateLimits (insert key recent)) s).
Proof.
  intros key recent H3. unfold EmailSvc.sendVerificationCode.
  rewrite tryCatch_rethrow.
  erewrite bind_thrown;
    [| rewrite checkRateLimit_spec; cbv zeta; fold key; fold recent;
       rewrite (proj2 (Nat.leb_le _ _) H3); reflexivity].
  reflexivity.
Qed.

(** Carol asks for a fourth code within the hour. *)
Lemma throttled_issuance_only_prunes_witness :
  let s := serverThrottled in
  let key := EmailSvc.rateLimitKey "carol@example.com" "verification" in
  let recent := recentAt (now (world s)) (windowOf key s) in
  (3 ≤ length recent)%nat
  ∧ EmailSvc.sendVerificationCode "carol@example.com" "Carol" s
    = (Thrown EmailSvc.rateLimitMessage,
       set_emailService (set_rateLimits (insert key recent)) s).
Proof.
  intros s key recent.
  assert (H : (3 ≤ length recent)%nat) by (vm_compute; lia).
  split; [exact H |].
  apply (throttled_issuance_only_prunes s "carol@example.com" "Carol" H).
Defined.

Lemma windowOf_insert key l s :
  windowOf key (set_emailService (set_rateLimits (insert key l)) s) = l.
Proof. unfold windowOf. simpl. rewrite lookup_insert_eq. reflexivity. Qed.

(** X12: after any call of the limiter, every timestamp retained for the
    key is newer than one hour before the call, the window holds at most 3
    entries unless it already held more, and the windows of the other keys
    are untouched. *)
Theorem limiter_window_invariant s email type :
  let key := EmailSvc.rateLimitKey email type in
  let s' := snd (EmailSvc.checkRateLimit email type s) in
  Forall (λ ts, now (world s) - 3600000 < ts) (windowOf key s')
  ∧ (length (windowOf key s') ≤ Nat.max 3 (length (windowOf key s)))%nat
  ∧ delete key (rateLimits (emailService s')) = delete key (rateLimits (emailService s))
  ∧ verificationCodes (emailService s') = verificationCodes (emailService s)
  ∧ users s' = users s.
Proof.
  intros key s'. subst s'. rewrite checkRateLimit_spec. cbv zeta. fold key.
  set (recent := recentAt (now (world s)) (windowOf key s)).
  assert (Hrecent : Forall (λ ts, now (world s) - 3600000 < ts) recent).
  { apply List.Forall_forall. intros ts Hts. apply filter_In in Hts as [_ Hts].
    apply Z.ltb_lt in Hts. exact Hts. }
  assert (Hlen : (length recent ≤ length (windowOf key s))%nat).
  { subst recent. unfold recentAt. clear. induction (windowOf key s) as [| x l IH];
      simpl; [lia |]. destruct (_ <? x); simpl; lia. }
  destruct (Nat.leb_spec 3 (length recent)) as [H3 | H3]; cbn [snd];
    rewrite windowOf_insert; simpl.
  - repeat split; [exact Hrecent | lia | apply delete_insert_eq].
  - repeat split.
    + apply Forall_app. split; [exact Hrecent |]. constructor; [lia | constructor].
    + rewrite length_app. simpl. lia.
    + rewrite delete_insert_eq. apply delete_insert_eq.
Qed.

(** ** Sorting newest first *)

Section SortDesc.

Context {A : Type} (key : A → Z).

Lemma insertDesc_perm x l : Permutation (insertDesc key x l) (x :: l).
Proof.
  induction l as [| y l IH]; simpl; [apply Permutation_refl |].
  destruct (key y <=? key x); [apply Permutation_refl |].
  eapply perm_trans; [apply perm_skip; exact IH | apply perm_swap].
Qed.

Lemma sortDesc_perm l : Permutation (sortDesc key l) l.
Proof.
  induction l as [| x l IH]; simpl; [apply perm_nil |].
  eapply perm_trans; [apply insertDesc_perm | apply perm_skip; exact IH].
Qed.

Lemma insertDesc_sorted x l : newestFirst key l → newestFirst key (insertDesc key x l).
Proof.
  unfold newestFirst. induction 1 as [| y l Hl IH Hhd]; simpl.
  - repeat constructor.
  - destruct (Z.leb_spec (key y) (key x)) as [Hle | Hgt].
    + constructor; [constructor; assumption | constructor; exact Hle].
    + constructor; [exact IH |].
      destruct l as [| z l]; simpl.
      * constructor. lia.
      * destruct (key z <=? key x); constructor; [lia |].
        inversion Hhd; assumption.
Qed.

Lemma sortDesc_sorted l : newestFirst key (sortDesc key l).
Proof.
  induction l as [| x l IH]; simpl; [constructor | apply insertDesc_sorted; exact IH].
Qed.

(** Sorting what is sorted changes nothing: the sort is stable. *)
Lemma sortDesc_of_sorted l : newestFirst key l → sortDesc key l = l.
Proof.
  unfold newestFirst. induction 1 as [| x l Hl IH Hhd]; simpl; [reflexivity |].
  rewrite IH. destruct Hhd as [| y l Hxy]; simpl; [reflexivity |].
  rewrite (proj2 (Z.leb_le _ _) Hxy). reflexivity.
Qed.

Lemma firstn_sorted n l : newestFirst key l → newestFirst key (firstn n l).
Proof.
  unfold newestFirst. intros H. revert n.
  induction H as [| x l Hl IH Hhd]; intros [| n]; simpl; try constructor.
  - apply IH.
  - destruct Hhd as [| y l Hxy]; destruct n; simpl; constructor. exact Hxy.
Qed.

Lemma slice0_sorted limit l : newestFirst key l → newestFirst key (slice0 limit l).
Proof. intros H. unfold slice0. destruct (limit <? 0); apply firstn_sorted; exact H. Qed.

Lemma slice0_length limit (l : list A) :
  length (slice0 limit l) = sliceLength limit (length l).
Proof.
  unfold slice0, sliceLength. destruct (limit <? 0); apply length_firstn.
Qed.

Lemma firstn_incl n (l : list A) : incl (firstn n l) l.
Proof.
  revert n. induction l as [| x l IH]; intros [| n] y Hy; simpl in *; try contradiction.
  destruct Hy as [-> | Hy]; [left; reflexivity | right; exact (IH n y Hy)].
Qed.

Lemma slice0_incl limit (l : list A) : incl (slice0 limit l) l.
Proof. unfold slice0. destruct (limit <? 0); apply firstn_incl. Qed.

End SortDesc.

(** ** Reading the logs *)

Lemma getEmailLogs_spec limit s :
  EmailSvc.getEmailLogs limit s
  = (Normal (slice0 limit (sortDesc log_timestamp (emailLogs (emailService s)))),
     set_emailService (set_emailLogs (sortDesc log_timestamp)) s).
Proof. reflexivity. Qed.

(** X13: [getEmailLogs] returns stored logs, newest first, as many as
    [slice(0, limit)] allows (a negative limit drops that many of the oldest
    ones). The call reorders the stored array, which ends sorted with the
    same entries and everything else as before, so that a second call gives
    the same answer and changes nothing. *)
Theorem getEmailLogs_sorts_in_place limit s :
  let o := EmailSvc.getEmailLogs limit s in
  let stored := emailLogs (emailService s) in
  ∃ logs, fst o = Normal logs
    ∧ newestFirst log_timestamp logs
    ∧ incl logs stored
    ∧ length logs = sliceLength limit (length stored)
    ∧ Permutation (emailLogs (emailService (snd o))) stored
    ∧ newestFirst log_timestamp (emailLogs (emailService (snd o)))
    ∧ failedEmails (emailService (snd o)) = failedEmails (emailService s)
    ∧ ledgerView (snd o) = ledgerView s
    ∧ EmailSvc.getEmailLogs limit (snd o) = o.
Proof.
  intros o stored. subst o. rewrite getEmailLogs_spec. simpl fst. simpl snd.
  fold stored.
  eexists. split; [reflexivity |].
  pose proof (sortDesc_sorted log_timestamp stored) as Hsorted.
  pose proof (sortDesc_perm log_timestamp stored) as Hperm.
  split; [apply slice0_sorted; exact Hsorted |].
  split; [intros l Hl; apply slice0_incl in Hl; apply (Permutation_in _ Hperm); exact Hl |].
  split; [rewrite slice0_length, (Permutation_length Hperm); reflexivity |].
  split; [exact Hperm |]. split; [exact Hsorted |].
  split; [reflexivity |]. split; [reflexivity |].
  rewrite getEmailLogs_spec. simpl. fold stored.
  rewrite (sortDesc_of_sorted log_timestamp _ Hsorted).
  unfold set_emailService, set_emailLogs. simpl. fold stored.
  rewrite (sortDesc_of_sorted log_timestamp _ Hsorted). reflexivity.
Qed.







(** ** The send route, for every input *)

Lemma float_le0_not_nan a : PrimFloat.leb a 0%float = true → is_nan a = false.
Proof.
  unfold is_nan. rewrite FloatAxioms.leb_spec, FloatAxioms.eqb_spec. unfold SFleb, SFeqb.
  change (Prim2SF 0%float) with (S754_zero false).
  destruct (Prim2SF a) as [sa | sa | | sa ma ea]; try destruct sa; simpl;
    try congruence; intros _; rewrite Z.compare_refl;
    change (Pos.compare_cont Eq ma ma) with (Pos.compare ma ma);
    rewrite Pos.compare_refl; reflexivity.
Qed.

(** The two ways [postSend] ends: a refusal that leaves the state as it
    was, or a transfer. *)
Lemma postSend_cases s senderEmail body :
  let recipientEmail := Transactions.sb_recipientEmail body in
  let amount := Transactions.sb_amount body in
  let o := Transactions.postSend senderEmail body s in
  (snd o = s
   ∧ ∃ status error code, fst o = Normal (JsonError status error code)
       ∧ (status = 400 ∨ status = 403 ∨ status = 404)%nat)
  ∨ (∃ sender reply,
       users s !! senderEmail = Some sender
       ∧ u_verified sender = true
       ∧ recipientEmail ≠ ""
       ∧ PrimFloat.leb amount 0%float = false
       ∧ PrimFloat.ltb (u_balance sender) amount = false
       ∧ fst o = Normal (Json 200 reply)
       ∧ Transactions.sr_newBalance reply
         = balanceIn (users (snd o)) senderEmail (u_balance sender)
       ∧ users (snd o) = committedUsers senderEmail recipientEmail amount (users s)
       ∧ transactions (snd o)
         = Transactions.mapSet (sendTxId s)
             (SendTx (sendTxId s) senderEmail (u_name sender) recipientEmail
                (recipientNameIn (users s) recipientEmail) amount
                (orEmpty (Transactions.sb_note body)) (now (world s)))
             (transactions s)
       ∧ verificationCodes (emailService (snd o)) = verificationCodes (emailService s)
       ∧ rateLimits (emailService (snd o)) = rateLimits (emailService s)).
Proof.
  intros recipientEmail amount o. subst o.
  unfold Transactions.postSend. fold recipientEmail. fold amount.
  assert (Hrej : ∀ status error code,
            (status = 400 ∨ status = 403 ∨ status = 404)%nat →
            ∃ status' error' code',
              Normal (JsonError status error code)
              = Normal (@JsonError Transactions.SendReply status' error' code')
              ∧ (status' = 400 ∨ status' = 403 ∨ status' = 404)%nat).
  { intros status error code H. exists status, error, code. split; [reflexivity | exact H]. }
  destruct (falsyString recipientEmail) eqn:Hrec; cbn [orb]; js_run;
    [left; split; [reflexivity | apply Hrej; auto] |].
  destruct (falsyNumber amount) eqn:Hnum; js_run;
    [left; split; [reflexivity | apply Hrej; auto] |].
  destruct (PrimFloat.leb amount 0%float) eqn:Hle; js_run;
    [left; split; [reflexivity | apply Hrej; auto] |].
  destruct (users s !! senderEmail) as [sender |] eqn:Hs; js_run;
    [| left; split; [reflexivity | apply Hrej; auto]].
  destruct (u_verified sender) eqn:Hv; cbn [negb]; js_run;
    [| left; split; [reflexivity | apply Hrej; auto]].
  destruct (PrimFloat.ltb (u_balance sender) amount) eqn:Hlt; js_run;
    [left; split; [reflexivity | apply Hrej; auto] |].
  right. exists sender.
  assert (Hparse : parseFloat amount = amount).
  { unfold parseFloat. unfold falsyNumber in Hnum. apply orb_false_elim in Hnum as [-> _].
    reflexivity. }
  rewrite Hparse. unfold generateTransactionId. js_run. rewrite randomIdent_spec. js_run.
  unfold committedUsers, recipientNameIn, balanceIn, sendTxId.
  assert (Hrec' : recipientEmail ≠ "").
  { intros H. unfold falsyString in Hrec. rewrite H in Hrec. discriminate Hrec. }
  destruct (users s !! recipientEmail) as [r |] eqn:Hr; cbv beta iota;
    match goal with
    | |- context [Transactions.sendReceipts ?a ?b ?c ?st] =>
      destruct (sendReceipts_swallows a b c st) as (s5 & E & K); rewrite E
    end;
    cbv beta iota; unfold ledgerView in K; simpl in K;
    injection K as Ku Kt Kv Kr; simpl; rewrite Ku, Kt, Kv, Kr;
    eexists; repeat split; assumption || reflexivity.
Qed.


Lemma committedUsers_identity senderEmail recipientEmail amount us email :
  (identityOf <$> committedUsers senderEmail recipientEmail amount us !! email)
  = (identityOf <$> us !! email).
Proof.
  unfold committedUsers.
  destruct (us !! recipientEmail); rewrite ?lookup_alter; repeat case_decide; subst;
    rewrite ?lookup_alter; repeat case_decide; try congruence;
    destruct (us !! _); reflexivity.
Qed.

(** X17: the send route never creates or removes an account and never
    changes the id, the name, the email or the verified flag of one: for
    every input, every email has after the call the account identity it had
    before (so a transfer to an email without account creates none), and the
    verification records and the rate windows are as before. *)
Theorem send_keeps_account_identities s senderEmail body email :
  let o := Transactions.postSend senderEmail body s in
  (identityOf <$> users (snd o) !! email) = (identityOf <$> users s !! email)
  ∧ verificationCodes (emailService (snd o)) = verificationCodes (emailService s)
  ∧ rateLimits (emailService (snd o)) = rateLimits (emailService s).
Proof.
  intros o.
  destruct (postSend_cases s senderEmail body) as [[H _] | (sender & reply & H)].
  - fold o in H. rewrite H. repeat split.
  - destruct H as (_ & _ & _ & _ & _ & _ & _ & Hu & _ & Hv & Hr). fold o in Hu, Hv, Hr.
    rewrite Hu, Hv, Hr. split; [apply committedUsers_identity | split; reflexivity].
Qed.

(** X18: an amount that is not positive is refused with a 400 before any
    account is read, and the state is unchanged. The message is "Amount must
    be greater than 0" for a negative amount, but an amount of 0 is reported
    as a missing field, "Recipient email and amount are required". *)
Theorem send_of_nonpositive_amount s senderEmail body :
  Transactions.sb_recipientEmail body ≠ "" →
  PrimFloat.leb (Transactions.sb_amount body) 0%float = true →
  Transactions.postSend senderEmail body s
  = (Normal (JsonError 400
       (if PrimFloat.eqb (Transactions.sb_amount body) 0%float
        then "Recipient email and amount are required"
        else "Amount must be greater than 0") None), s).
Proof.
  intros Hrec Hle. unfold Transactions.postSend.
  rewrite (nonempty_truthy _ Hrec). unfold falsyNumber.
  rewrite (float_le0_not_nan _ Hle).
  destruct (PrimFloat.eqb (Transactions.sb_amount body) 0%float); cbn [orb]; js_run;
    [reflexivity |]. rewrite Hle. reflexivity.
Qed.

(** Alice tries to send -5 to Bob. *)
Lemma send_of_nonpositive_amount_witness :
  let body := {| Transactions.sb_recipientEmail := "bob@example.com";
                 Transactions.sb_amount := (-5)%float;
                 Transactions.sb_note := "" |} in
  (Transactions.sb_recipientEmail body ≠ ""
   ∧ PrimFloat.leb (Transactions.sb_amount body) 0%float = true)
  ∧ Transactions.postSend "alice@example.com" body server0
    = (Normal (JsonError 400
         (if PrimFloat.eqb (Transactions.sb_amount body) 0%float
          then "Recipient email and amount are required"
          else "Amount must be greater than 0") None), server0).
Proof.
  intros body.
  assert (H1 : Transactions.sb_recipientEmail body ≠ "") by (intros H; discriminate H).
  split; [split; [exact H1 | reflexivity] |].
  apply (send_of_nonpositive_amount server0 "alice@example.com" body H1). reflexivity.
Defined.

(** X19: a verified sender whose balance is less than the positive amount
    is refused with 400 "Insufficient funds", and nothing changes: no
    balance moves, no record is stored, no id is drawn and no mail is sent. *)
Theorem send_beyond_balance s senderEmail body sender :
  Transactions.sb_recipientEmail body ≠ "" →
  PrimFloat.ltb 0%float (Transactions.sb_amount body) = true →
  users s !! senderEmail = Some sender →
  u_verified sender = true →
  PrimFloat.ltb (u_balance sender) (Transactions.sb_amount body) = true →
  Transactions.postSend senderEmail body s
  = (Normal (JsonError 400 "Insufficient funds" None), s).
Proof.
  intros Hrec Hpos Hs Hv Hlt. unfold Transactions.postSend.
  rewrite (nonempty_truthy _ Hrec), (float_pos_truthy _ Hpos),
    (float_pos_not_le0 _ Hpos).
  cbn [orb]. js_run. rewrite Hs. js_run. rewrite Hv. cbn [negb]. rewrite Hlt. reflexivity.
Qed.

(** Bob, who holds 10.1, tries to send 30 to Alice. *)
Lemma send_beyond_balance_witness :
  let body := {| Transactions.sb_recipientEmail := "alice@example.com";
                 Transactions.sb_amount := 30%float;
                 Transactions.sb_note := "" |} in
  (Transactions.sb_recipientEmail body ≠ ""
   ∧ PrimFloat.ltb 0%float (Transactions.sb_amount body) = true
   ∧ users server0 !! "bob@example.com" = Some bob
   ∧ u_verified bob = true
   ∧ PrimFloat.ltb (u_balance bob) (Transactions.sb_amount body) = true)
  ∧ Transactions.postSend "bob@example.com" body server0
    = (Normal (JsonError 400 "Insufficient funds" None), server0).
Proof.
  intros body.
  assert (H1 : Transactions.sb_recipientEmail body ≠ "") by (intros H; discriminate H).
  assert (H3 : users server0 !! "bob@example.com" = Some bob) by (vm_compute; reflexivity).
  split; [repeat split; try assumption; reflexivity |].
  apply (send_beyond_balance server0 "bob@example.com" body bob H1);
    [reflexivity | exact H3 | reflexivity | reflexivity].
Defined.

(** ** The request route and the two reading routes *)

(** X20: the request route never touches an account or the mail service:
    for every input it either stores one pending record under the id it
    draws, leaving every other record as it was, or changes nothing in the
    transactions. *)
Theorem request_moves_no_money s requesterEmail body :
  let o := Transactions.postRequest requesterEmail body s in
  users (snd o) = users s
  ∧ emailService (snd o) = emailService s
  ∧ (transactions (snd o) = transactions s
     ∨ ∃ request, Transactions.tx_status request = "pending"
         ∧ transactions (snd o)
           = Transactions.mapSet (sendTxId s) request (transactions s)).
Proof.
  intros o. subst o. unfold Transactions.postRequest.
  destruct (falsyString (Transactions.rq_requesteeEmail body)
            || falsyNumber (Transactions.rq_amount body)); js_run;
    [repeat split; left; reflexivity |].
  destruct (PrimFloat.leb (Transactions.rq_amount body) 0%float); js_run;
    [repeat split; left; reflexivity |].
  destruct (users s !! requesterEmail) as [requester |]; js_run;
    [| repeat split; left; reflexivity].
  destruct (u_verified requester); cbn [negb]; js_run;
    [| repeat split; left; reflexivity].
  unfold generateTransactionId. js_run. rewrite randomIdent_spec. js_run. simpl.
  repeat split. right. eexists. split; [| reflexivity]. reflexivity.
Qed.

Lemma insertNewestFirst_insertDesc x l :
  Transactions.insertNewestFirst x l = insertDesc Transactions.tv_timestamp x l.
Proof. induction l as [| y l IH]; simpl; [reflexivity |]. rewrite IH. reflexivity. Qed.

Lemma sortNewestFirst_sortDesc l :
  Transactions.sortNewestFirst l = sortDesc Transactions.tv_timestamp l.
Proof.
  unfold Transactions.sortNewestFirst, sortDesc.
  induction l as [| x l IH]; simpl; [reflexivity |].
  rewrite IH. apply insertNewestFirst_insertDesc.
Qed.

(** X21: the history route always answers 200 and changes nothing; the
    views it returns are those of the records in which the caller is the
    sender or the recipient, each once, ordered newest first. *)
Theorem history_is_sorted_and_complete e s :
  ∃ views, Transactions.getHistory e s = (Normal (Json 200 views), s)
    ∧ newestFirst Transactions.tv_timestamp views
    ∧ Permutation views
        (Transactions.viewFor e <$>
           List.filter (λ tx, Transactions.isSender e tx || Transactions.isRecipient e tx)
                       (snd <$> transactions s)).
Proof.
  eexists. split; [apply getHistory_spec |].
  rewrite sortNewestFirst_sortDesc. split.
  - apply sortDesc_sorted.
  - apply sortDesc_perm.
Qed.

Lemma mapGet_In k m tx : Transactions.mapGet k m = Some tx → In tx (snd <$> m).
Proof.
  induction m as [| [k' v'] m IH]; simpl; [discriminate |].
  destruct (decide (k' = k)); [intros [= ->]; left; reflexivity | intros H; right; auto].
Qed.

(** X22: after an accepted transfer from A to another email B, the history
    of A shows the transfer as sent to B, under the name the record gives B,
    and the history of B shows it as received from A, under A's name, with the
    same id, amount, note, instant and status. *)
Theorem transfer_shows_in_both_histories s senderEmail body sender :
  let recipientEmail := Transactions.sb_recipientEmail body in
  let amount := Transactions.sb_amount body in
  recipientEmail ≠ "" →
  recipientEmail ≠ senderEmail →
  users s !! senderEmail = Some sender →
  u_verified sender = true →
  PrimFloat.ltb 0%float amount = true →
  PrimFloat.leb amount (u_balance sender) = true →
  let s' := snd (Transactions.postSend senderEmail body s) in
  let view type name email :=
    {| Transactions.tv_id := sendTxId s; Transactions.tv_type := type;
       Transactions.tv_name := Some name; Transactions.tv_email := Some email;
       Transactions.tv_amount := amount;
       Transactions.tv_note := orEmpty (Transactions.sb_note body);
       Transactions.tv_timestamp := now (world s);
       Transactions.tv_status := "completed" |} in
  (∃ views, fst (Transactions.getHistory senderEmail s') = Normal (Json 200 views)
     ∧ In (view "sent" (recipientNameIn (users s) recipientEmail) recipientEmail) views)
  ∧ (∃ views, fst (Transactions.getHistory recipientEmail s') = Normal (Json 200 views)
       ∧ In (view "received" (u_name sender) senderEmail) views).
Proof.
  intros recipientEmail amount Hrec Hne Hs Hv Hpos Hle s' view.
  destruct (postSend_accepted s senderEmail body sender Hrec Hpos Hs Hv Hle)
    as (_ & Ht & _).
  fold s' in Ht. fold recipientEmail in Ht. fold amount in Ht.
  set (tx := SendTx (sendTxId s) senderEmail (u_name sender) recipientEmail
               (recipientNameIn (users s) recipientEmail) amount
               (orEmpty (Transactions.sb_note body)) (now (world s))) in *.
  assert (Hin : In tx (snd <$> transactions s')).
  { apply (mapGet_In (sendTxId s)). rewrite Ht. apply mapGet_mapSet. }
  assert (Hview : ∀ e, Transactions.isSender e tx || Transactions.isRecipient e tx = true →
            In (Transactions.viewFor e tx)
               (Transactions.sortNewestFirst
                  (Transactions.userTransactions e (transactions s')))).
  { intros e He. apply In_sortNewestFirst. unfold Transactions.userTransactions.
    apply in_map. apply filter_In. split; [exact Hin | exact He]. }
  split; eexists; (split; [rewrite getHistory_spec; reflexivity |]).
  - assert (E : Transactions.viewFor senderEmail tx
                = view "sent" (recipientNameIn (users s) recipientEmail) recipientEmail).
    { unfold Transactions.viewFor, Transactions.isRecipient. simpl.
      rewrite bool_decide_eq_false_2 by congruence. reflexivity. }
    rewrite <- E. apply Hview. unfold Transactions.isSender. simpl.
    rewrite bool_decide_eq_true_2 by reflexivity. reflexivity.
  - assert (E : Transactions.viewFor recipientEmail tx
                = view "received" (u_name sender) senderEmail).
    { unfold Transactions.viewFor, Transactions.isRecipient. simpl.
      rewrite bool_decide_eq_true_2 by reflexivity. reflexivity. }
    rewrite <- E. apply Hview. unfold Transactions.isRecipient. simpl.
    rewrite bool_decide_eq_true_2 by reflexivity. apply orb_true_r.
Qed.

(** Alice sends 30 to Bob; both histories show it. *)
Lemma transfer_shows_in_both_histories_witness :
  let s := server0 in
  let senderEmail := "alice@example.com" in
  let body := aliceToBob in
  let sender := alice in
  let recipientEmail := Transactions.sb_recipientEmail body in
  let amount := Transactions.sb_amount body in
  let s' := snd (Transactions.postSend senderEmail body s) in
  let view type name email :=
    {| Transactions.tv_id := sendTxId s; Transactions.tv_type := type;
       Transactions.tv_name := Some name; Transactions.tv_email := Some email;
       Transactions.tv_amount := amount;
       Transactions.tv_note := orEmpty (Transactions.sb_note body);
       Transactions.tv_timestamp := now (world s);
       Transactions.tv_status := "completed" |} in
  (recipientEmail ≠ "" ∧ recipientEmail ≠ senderEmail
   ∧ users s !! senderEmail = Some sender ∧ u_verified sender = true
   ∧ PrimFloat.ltb 0%float amount = true
   ∧ PrimFloat.leb amount (u_balance sender) = true)
  ∧ ((∃ views, fst (Transactions.getHistory senderEmail s') = Normal (Json 200 views)
        ∧ In (view "sent" (recipientNameIn (users s) recipientEmail) recipientEmail) views)
     ∧ (∃ views, fst (Transactions.getHistory recipientEmail s') = Normal (Json 200 views)
          ∧ In (view "received" (u_name sender) senderEmail) views)).
Proof.
  intros s senderEmail body sender recipientEmail amount s' view.
  assert (H1 : recipientEmail ≠ "") by (intros H; discriminate H).
  assert (H2 : recipientEmail ≠ senderEmail) by (intros H; discriminate H).
  assert (H3 : users s !! senderEmail = Some sender) by (vm_compute; reflexivity).
  split.
  - repeat split; try assumption; reflexivity.
  - apply (transfer_shows_in_both_histories s senderEmail body sender H1 H2 H3);
      reflexivity.
Defined.

(** X23: the lookup of a transaction changes nothing and answers 404 for an
    id that is not stored; for a stored transfer it answers 200 to its sender
    and to its recipient, with the view their history shows, and 403 "Access
    denied" to everybody else. *)
Theorem lookup_is_for_the_two_parties s transactionId e :
  (Transactions.mapGet transactionId (transactions s) = None ∧
   Transactions.getTransaction transactionId e s
   = (Normal (JsonError 404 "Transaction not found" None), s))
  ∨ (∃ tx, Transactions.mapGet transactionId (transactions s) = Some tx
       ∧ Transactions.getTransaction transactionId e s
         = (Normal
              (if bool_decide (Transactions.tx_senderEmail tx = Some e
                               ∨ Transactions.tx_recipientEmail tx = Some e)
               then Json 200 (Transactions.viewFor e tx)
               else JsonError 403 "Access denied" None), s)).
Proof.
  unfold Transactions.getTransaction. js_run.
  destruct (Transactions.mapGet transactionId (transactions s)) as [tx |] eqn:Hget.
  - right. exists tx. split; [reflexivity |].
    unfold Transactions.isSender, Transactions.isRecipient.
    destruct (decide (Transactions.tx_senderEmail tx = Some e)) as [H1 | H1];
      destruct (decide (Transactions.tx_recipientEmail tx = Some e)) as [H2 | H2];
      rewrite ?(bool_decide_eq_true_2 _ H1), ?(bool_decide_eq_true_2 _ H2),
        ?(bool_decide_eq_false_2 _ H1), ?(bool_decide_eq_false_2 _ H2); simpl;
      [rewrite bool_decide_eq_true_2 by tauto
      | rewrite bool_decide_eq_true_2 by tauto
      | rewrite bool_decide_eq_true_2 by tauto
      | rewrite bool_decide_eq_false_2 by tauto]; reflexivity.
  - left. split; reflexivity.
Qed.

Lemma localPart_app l d :
  atFree l = true → localPart (l +:+ "@" +:+ d) = l.
Proof.
  induction l as [| c l IH]; simpl; [reflexivity |].
  intros H. apply andb_true_iff in H as [Hc Hl].
  destruct (Ascii.eqb c "@"); [discriminate Hc |]. rewrite (IH Hl). reflexivity.
Qed.

(** X24: an accepted transfer to an email that has no account stores, as
    the recipient's name, the part of the email before its first '@', and
    credits nobody: only the sender's account changes. *)
Theorem transfer_to_a_stranger s senderEmail body sender localName domain :
  let recipientEmail := Transactions.sb_recipientEmail body in
  let amount := Transactions.sb_amount body in
  recipientEmail = localName +:+ "@" +:+ domain →
  atFree localName = true →
  users s !! recipientEmail = None →
  users s !! senderEmail = Some sender →
  u_verified sender = true →
  PrimFloat.ltb 0%float amount = true →
  PrimFloat.leb amount (u_balance sender) = true →
  let o := Transactions.postSend senderEmail body s in
  (∃ reply, fst o = Normal (Json 200 reply)
     ∧ Transactions.ts_recipientName (Transactions.sr_transaction reply) = localName)
  ∧ (Transactions.tx_recipientName
       <$> Transactions.mapGet (sendTxId s) (transactions (snd o)))
    = Some (Some localName)
  ∧ users (snd o) = alter (Transactions.debit amount) senderEmail (users s)
  ∧ users (snd o) !! recipientEmail = None.
Proof.
  intros recipientEmail amount Hemail Hfree Hnone Hs Hv Hpos Hle o.
  assert (Hrec : recipientEmail ≠ "").
  { rewrite Hemail. destruct localName; intros H; discriminate H. }
  destruct (postSend_accepted s senderEmail body sender Hrec Hpos Hs Hv Hle)
    as (Hu & Ht & Hr).
  fold o in Hu, Ht, Hr. fold recipientEmail in Hu, Ht, Hr. fold amount in Hu, Ht, Hr.
  clearbody o.
  assert (Hname : recipientNameIn (users s) recipientEmail = localName).
  { unfold recipientNameIn. rewrite Hnone, Hemail. apply localPart_app. exact Hfree. }
  assert (Hus : committedUsers senderEmail recipientEmail amount (users s)
                = alter (Transactions.debit amount) senderEmail (users s)).
  { unfold committedUsers. rewrite Hnone. reflexivity. }
  rewrite Hu, Ht, Hr, Hname, Hus. repeat split.
  - eexists. split; reflexivity.
  - rewrite mapGet_mapSet. reflexivity.
  - apply lookup_alter_None. exact Hnone.
Qed.

(** Alice sends 5 to dana@example.com, who has no account. *)
Lemma transfer_to_a_stranger_witness :
  let s := server0 in
  let senderEmail := "alice@example.com" in
  let body := {| Transactions.sb_recipientEmail := "dana@example.com";
                 Transactions.sb_amount := 5%float;
                 Transactions.sb_note := "" |} in
  let sender := alice in
  let recipientEmail := Transactions.sb_recipientEmail body in
  let amount := Transactions.sb_amount body in
  let o := Transactions.postSend senderEmail body s in
  (recipientEmail = "dana" +:+ "@" +:+ "example.com"
   ∧ atFree "dana" = true
   ∧ users s !! recipientEmail = None
   ∧ users s !! senderEmail = Some sender
   ∧ u_verified sender = true
   ∧ PrimFloat.ltb 0%float amount = true
   ∧ PrimFloat.leb amount (u_balance sender) = true)
  ∧ ((∃ reply, fst o = Normal (Json 200 reply)
        ∧ Transactions.ts_recipientName (Transactions.sr_transaction reply) = "dana")
     ∧ (Transactions.tx_recipientName
          <$> Transactions.mapGet (sendTxId s) (transactions (snd o)))
       = Some (Some "dana")
     ∧ users (snd o) = alter (Transactions.debit amount) senderEmail (users s)
     ∧ users (snd o) !! recipientEmail = None).
Proof.
  intros s senderEmail body sender recipientEmail amount o.
  assert (H3 : users s !! recipientEmail = None) by (vm_compute; reflexivity).
  assert (H4 : users s !! senderEmail = Some sender) by (vm_compute; reflexivity).
  split.
  - repeat split; try assumption; reflexivity.
  - apply (transfer_to_a_stranger s senderEmail body sender "dana" "example.com");
      try assumption; reflexivity.
Defined.

(** ** The routes of the accounts *)

Lemma keeps_sendWelcomeEmail email name : keeps (EmailSvc.sendWelcomeEmail email name).
Proof.
  unfold EmailSvc.sendWelcomeEmail.
  apply keeps_tryCatch; [| intros; apply keeps_throw].
  apply keeps_bind; [apply keeps_sendEmailWithRetry | intros; apply keeps_emailIdOf].
Qed.




(** An issuance changes no account and no transaction, whether it is let
    through or not and whatever the transport does. *)
Lemma sendVerificationCode_ledger s email name :
  let o := EmailSvc.sendVerificationCode email name s in
  users (snd o) = users s ∧ transactions (snd o) = transactions s.
Proof.
  intros o. subst o.
  destruct (Nat.lt_ge_cases
              (length (recentAt (now (world s))
                         (windowOf (EmailSvc.rateLimitKey email "verification") s))) 3)
    as [H3 | H3].
  - rewrite (sendVerificationCode_allowed s email name H3). cbv zeta.
    pose proof (keeps_sendEmailWithRetry (verificationMail email) "verification" 3
                  (issuingState email s)) as Hk.
    destruct (EmailSvc.sendEmailWithRetry (verificationMail email) "verification" 3
                (issuingState email s)) as [c s4].
    simpl fst in *. simpl snd in *.
    unfold ledgerView in Hk. injection Hk as Hu Htx Hvc Hrl.
    destruct c as [[r |] | e]; simpl; rewrite Hu, Htx; split; reflexivity.
  - unfold EmailSvc.sendVerificationCode. rewrite tryCatch_rethrow.
    erewrite bind_thrown;
      [| rewrite checkRateLimit_spec; cbv zeta;
         fold (windowOf (EmailSvc.rateLimitKey email "verification") s);
         fold (recentAt (now (world s))
                 (windowOf (EmailSvc.rateLimitKey email "verification") s));
         rewrite (proj2 (Nat.leb_le _ _) H3); reflexivity].
    split; reflexivity.
Qed.


(** The run of a registration that passes its three checks. *)
Lemma postRegister_run s body :
  Auth.rb_name body ≠ "" → Auth.rb_email body ≠ "" → Auth.rb_phone body ≠ "" →
  (8 ≤ String.length (Auth.rb_password body))%nat →
  users s !! Auth.rb_email body = None →
  Auth.postRegister body s
  = let o := EmailSvc.sendVerificationCode (Auth.rb_email body) (Auth.rb_name body)
               (set_users (insert (Auth.rb_email body) (registeredUser s body))
                  (set_world (set_idents (tl (idents (world s)))) s)) in
    (match fst o with
     | Normal _ =>
       Normal (Json 201 {| Auth.rr_message := Auth.msgRegistered;
                           Auth.rr_userId := hd "" (idents (world s)) |})
     | Thrown message =>
       Normal (JsonError 500 (if falsyString message then "Registration failed"
                              else message) None)
     end, snd o).
Proof.
  intros Hname Hemail Hphone Hpw Hnew.
  assert (Hpw' : Auth.rb_password body ≠ "").
  { intros H. rewrite H in Hpw. simpl in Hpw. lia. }
  unfold Auth.postRegister.
  rewrite (nonempty_truthy _ Hname), (nonempty_truthy _ Hemail),
    (nonempty_truthy _ Hphone), (nonempty_truthy _ Hpw').
  cbn [orb]. js_run. rewrite Hnew.
  change (bool_decide (is_Some (@None User))) with false. cbv iota.
  rewrite (proj2 (Nat.ltb_ge _ _) Hpw). rewrite randomIdent_spec. js_run.
  fold (registeredUser s body).
  destruct (EmailSvc.sendVerificationCode _ _ _) as [[issued | message] s2]; reflexivity.
Qed.

Lemma falsyString_spec (str : string) : falsyString str = true → str = "".
Proof. unfold falsyString. apply bool_decide_eq_true_1. Qed.

(** X25: a registration never overwrites an account. Either it is refused
    with a 400 or the 409 and the state is what it was, or the email had no
    account and the one change to the accounts is the new account under that
    email, not verified and with balance 0; the reply is then the 201, or
    the 500 of a verification mail that was not sent. No transaction is
    touched. *)
Theorem registration_never_overwrites s body :
  let email := Auth.rb_email body in
  let o := Auth.postRegister body s in
  (snd o = s
   ∧ ∃ status message, fst o = Normal (JsonError status message None)
       ∧ (status = 400%nat ∨ status = 409%nat))
  ∨ (users s !! email = None
     ∧ users (snd o) = <[email := registeredUser s body]> (users s)
     ∧ transactions (snd o) = transactions s
     ∧ ((∃ reply, fst o = Normal (Json 201 reply))
        ∨ ∃ message, fst o = Normal (JsonError 500 message None))).
Proof.
  intros email o.
  destruct (falsyString (Auth.rb_name body) || falsyString (Auth.rb_email body)
            || falsyString (Auth.rb_phone body) || falsyString (Auth.rb_password body))
    eqn:Hfields.
  { left. subst o. unfold Auth.postRegister. rewrite Hfields. js_run.
    split; [reflexivity |]. eexists _, _. split; [reflexivity | left; reflexivity]. }
  destruct (users s !! email) as [u |] eqn:Hknown.
  { left. subst o. unfold Auth.postRegister. rewrite Hfields. js_run.
    fold email. rewrite Hknown.
    rewrite bool_decide_eq_true_2 by (eexists; reflexivity). js_run.
    split; [reflexivity |]. eexists _, _. split; [reflexivity | right; reflexivity]. }
  destruct (Nat.ltb_spec (String.length (Auth.rb_password body)) 8) as [Hshort | Hlong].
  { left. subst o. unfold Auth.postRegister. rewrite Hfields. js_run.
    fold email. rewrite Hknown.
    change (bool_decide (is_Some (@None User))) with false. cbv iota.
    rewrite (proj2 (Nat.ltb_lt _ _) Hshort). js_run.
    split; [reflexivity |]. eexists _, _. split; [reflexivity | left; reflexivity]. }
  right. split; [reflexivity |].
  apply orb_false_elim in Hfields as [Hfields Hpw].
  apply orb_false_elim in Hfields as [Hfields Hphone].
  apply orb_false_elim in Hfields as [Hname Hemail].
  assert (N : ∀ str, falsyString str = false → str ≠ "").
  { intros str H ->. discriminate H. }
  subst o.
  rewrite (postRegister_run s body (N _ Hname) (N _ Hemail) (N _ Hphone) Hlong Hknown).
  cbv zeta. fold email.
  set (s1 := set_users (insert email (registeredUser s body))
               (set_world (set_idents (tl (idents (world s)))) s)).
  destruct (sendVerificationCode_ledger s1 email (Auth.rb_name body)) as (Hu & Ht).
  destruct (EmailSvc.sendVerificationCode email (Auth.rb_name body) s1) as [c s2].
  simpl fst in *. simpl snd in *. rewrite Hu, Ht.
  split; [reflexivity |]. split; [reflexivity |].
  destruct c as [issued | message]; [left | right]; eexists; reflexivity.
Qed.

(** The run of a verification whose two fields are given, for an account. *)
Lemma postVerifyEmail_run s email code user :
  email ≠ "" → code ≠ "" → users s !! email = Some user →
  Auth.postVerifyEmail email code s
  = let checked := EmailSvc.verifyCode email code s in
    match fst checked with
    | Thrown message => (Normal (JsonError 400 message None), snd checked)
    | Normal _ =>
      let welcomed := EmailSvc.sendWelcomeEmail email (u_name user)
                        (set_users (alter Auth.markVerified email) (snd checked)) in
      match fst welcomed with
      | Thrown message => (Normal (JsonError 400 message None), snd welcomed)
      | Normal _ =>
        (Normal (Json 200 (Auth.userReply
                             (default user (users (snd welcomed) !! email)))),
         snd welcomed)
      end
    end.
Proof.
  intros Hemail Hcode Huser. unfold Auth.postVerifyEmail.
  rewrite (nonempty_truthy _ Hemail), (nonempty_truthy _ Hcode). cbn [orb].
  js_run. rewrite Huser.
  destruct (EmailSvc.verifyCode email code s) as [[b | message] s1]; [| reflexivity].
  cbn [fst snd].
  destruct (EmailSvc.sendWelcomeEmail email (u_name user) _) as [[i | message] s3];
    reflexivity.
Qed.

Lemma verifyCode_ledger email code s :
  let o := EmailSvc.verifyCode email code s in
  users (snd o) = users s ∧ transactions (snd o) = transactions s
  ∧ world (snd o) = world s.
Proof.
  intros o. destruct (verifyCode_cases email code s) as [H | [H | (st & _ & _ & H)]];
    fold o in H; rewrite H; repeat split.
Qed.

Lemma verifyCode_returns_true email code s b s' :
  EmailSvc.verifyCode email code s = (Normal b, s') → b = true.
Proof.
  unfold EmailSvc.verifyCode. js_run.
  destruct (verificationCodes (emailService s) !! email) as [stored |];
    [| intros E; discriminate E].
  js_run. destruct (vr_expiresAt stored <? now (world s)); [intros E; discriminate E |].
  destruct (3 <=? vr_attempts stored)%nat; [intros E; discriminate E |].
  destruct (bool_decide (vr_code stored = code)); simpl; intros E; congruence.
Qed.

(** X26: an account becomes verified only through a check of the code that
    succeeds. For every input the verification route leaves the transactions
    alone and either leaves the accounts as they were, or the check of the
    code returned normally and the one change is the flag of the account of
    [email]; no balance changes. *)
Theorem verification_needs_a_right_code s email code e :
  let o := Auth.postVerifyEmail email code s in
  transactions (snd o) = transactions s
  ∧ (users (snd o) = users s
     ∨ (fst (EmailSvc.verifyCode email code s) = Normal true
        ∧ users (snd o) = alter Auth.markVerified email (users s)))
  ∧ (u_balance <$> users (snd o) !! e) = (u_balance <$> users s !! e).
Proof.
  intros o.
  assert (H : transactions (snd o) = transactions s
              ∧ (users (snd o) = users s
                 ∨ (fst (EmailSvc.verifyCode email code s) = Normal true
                    ∧ users (snd o) = alter Auth.markVerified email (users s)))).
  { subst o.
    destruct (falsyString email || falsyString code) eqn:Hfields.
    { unfold Auth.postVerifyEmail. rewrite Hfields. js_run. split; [| left]; reflexivity. }
    destruct (users s !! email) as [user |] eqn:Huser.
    2:{ unfold Auth.postVerifyEmail. rewrite Hfields. js_run. rewrite Huser.
        split; [| left]; reflexivity. }
    apply orb_false_elim in Hfields as [Hemail Hcode].
    assert (N : ∀ str, falsyString str = false → str ≠ "").
    { intros str H ->. discriminate H. }
    rewrite (postVerifyEmail_run s email code user (N _ Hemail) (N _ Hcode) Huser).
    cbv zeta.
    destruct (verifyCode_ledger email code s) as (Hu & Ht & _).
    destruct (EmailSvc.verifyCode email code s) as [[b | message] s1] eqn:Hv;
      simpl fst in *; simpl snd in *; [| split; [exact Ht | left; exact Hu]].
    pose proof (keeps_sendWelcomeEmail email (u_name user)
                  (set_users (alter Auth.markVerified email) s1)) as Hk.
    destruct (EmailSvc.sendWelcomeEmail email (u_name user) _) as [c s3].
    simpl snd in Hk. unfold ledgerView in Hk. injection Hk as Hu3 Ht3 _ _.
    simpl in Hu3, Ht3.
    pose proof (verifyCode_returns_true email code s b s1 Hv) as ->.
    destruct c as [i | message]; simpl fst; simpl snd;
      (split; [congruence | right; split; [reflexivity | congruence]]). }
  destruct H as (Ht & Hu). split; [exact Ht |]. split; [exact Hu |].
  destruct Hu as [-> | (_ & ->)]; [reflexivity |].
  destruct (decide (e = email)) as [-> | Hne].
  - rewrite lookup_alter_eq. destruct (users s !! email); reflexivity.
  - rewrite lookup_alter_ne by congruence. reflexivity.
Qed.






(** X29: the resend route issues a code for an account that exists and is
    not verified, and for no other: a missing email, an unknown account and a
    verified account are refused with a 400 or the 404 and change nothing at
    all. In every case the accounts and the transactions are what they were,
    and a failure of the issuance, throttled or undelivered, is answered 400
    with its message. *)
Theorem resend_is_for_unverified_accounts s email :
  let o := Auth.postResendVerification email s in
  users (snd o) = users s
  ∧ transactions (snd o) = transactions s
  ∧ ((snd o = s
      ∧ ∃ status message, fst o = Normal (JsonError status message None)
          ∧ (status = 400%nat ∨ status = 404%nat))
     ∨ (∃ user, users s !! email = Some user ∧ u_verified user = false
          ∧ snd o = snd (EmailSvc.sendVerificationCode email (u_name user) s)
          ∧ match fst (EmailSvc.sendVerificationCode email (u_name user) s) with
            | Normal _ => fst o = Normal (Json 200 "Verification code sent successfully")
            | Thrown message => fst o = Normal (JsonError 400 message None)
            end)).
Proof.
  intros o. subst o. unfold Auth.postResendVerification.
  destruct (falsyString email) eqn:Hemail; js_run.
  { split; [reflexivity |]. split; [reflexivity |]. left. split; [reflexivity |].
    eexists _, _. split; [reflexivity | left; reflexivity]. }
  destruct (users s !! email) as [user |] eqn:Huser.
  2:{ split; [reflexivity |]. split; [reflexivity |]. left. split; [reflexivity |].
      eexists _, _. split; [reflexivity | right; reflexivity]. }
  destruct (u_verified user) eqn:Hv.
  { split; [reflexivity |]. split; [reflexivity |]. left. split; [reflexivity |].
    eexists _, _. split; [reflexivity | left; reflexivity]. }
  destruct (sendVerificationCode_ledger s email (u_name user)) as (Hu & Ht).
  remember (EmailSvc.sendVerificationCode email (u_name user) s) as r eqn:Hr.
  destruct r as [[issued | message] s1]; cbn [fst snd] in *;
    (split; [exact Hu |]; split; [exact Ht |]; right; exists user;
     split; [reflexivity |]; split; [exact Hv |]; rewrite <- Hr;
     split; reflexivity).
Qed.

(** X30: the balance an accepted transfer reports is the balance the
    profile route then shows for the sender, under the id, the name and the
    email the account had; this holds as well when the sender is the
    recipient. The profile route itself changes nothing. *)
Theorem profile_shows_the_reported_balance s senderEmail body sender :
  Transactions.sb_recipientEmail body ≠ "" →
  users s !! senderEmail = Some sender →
  u_verified sender = true →
  PrimFloat.ltb 0%float (Transactions.sb_amount body) = true →
  PrimFloat.leb (Transactions.sb_amount body) (u_balance sender) = true →
  let o := Transactions.postSend senderEmail body s in
  ∃ reply,
    fst o = Normal (Json 200 reply)
    ∧ Auth.getProfile senderEmail (snd o)
      = (Normal (Json 200 {| Auth.ur_id := u_id sender; Auth.ur_name := u_name sender;
                             Auth.ur_email := u_email sender;
                             Auth.ur_balance := Transactions.sr_newBalance reply |}),
         snd o).
Proof.
  intros Hrec Hs Hv Hpos Hle o.
  destruct (postSend_accepted s senderEmail body sender Hrec Hpos Hs Hv Hle)
    as (Hu & _ & Hr).
  fold o in Hu, Hr. clearbody o. destruct o as [c s']. cbn [fst snd] in *. subst c.
  eexists. split; [reflexivity |]. cbn [Transactions.sr_newBalance].
  unfold Auth.getProfile. js_run. rewrite Hu. unfold balanceIn.
  pose proof (committedUsers_identity senderEmail (Transactions.sb_recipientEmail body)
                (Transactions.sb_amount body) (users s) senderEmail) as Hid.
  rewrite Hs in Hid.
  destruct (committedUsers senderEmail (Transactions.sb_recipientEmail body)
              (Transactions.sb_amount body) (users s) !! senderEmail) as [u |];
    [| discriminate Hid].
  simpl in Hid. injection Hid as H1 H2 H3 H4.
  unfold Auth.userReply. rewrite H1, H2, H3. reflexivity.
Qed.

(** Alice sends 30 to Bob and reads her profile. *)
Lemma profile_shows_the_reported_balance_witness :
  let s := server0 in
  let senderEmail := "alice@example.com" in
  let body := aliceToBob in
  let sender := alice in
  let o := Transactions.postSend senderEmail body s in
  (Transactions.sb_recipientEmail body ≠ ""
   ∧ users s !! senderEmail = Some sender
   ∧ u_verified sender = true
   ∧ PrimFloat.ltb 0%float (Transactions.sb_amount body) = true
   ∧ PrimFloat.leb (Transactions.sb_amount body) (u_balance sender) = true)
  ∧ ∃ reply,
      fst o = Normal (Json 200 reply)
      ∧ Auth.getProfile senderEmail (snd o)
        = (Normal (Json 200 {| Auth.ur_id := u_id sender; Auth.ur_name := u_name sender;
                               Auth.ur_email := u_email sender;
                               Auth.ur_balance := Transactions.sr_newBalance reply |}),
           snd o).
Proof.
  intros s senderEmail body sender o.
  assert (H1 : Transactions.sb_recipientEmail body ≠ "") by (intros H; discriminate H).
  assert (H2 : users s !! senderEmail = Some sender) by (vm_compute; reflexivity).
  split.
  - repeat split; try assumption; reflexivity.
  - apply (profile_shows_the_reported_balance s senderEmail body sender H1 H2);
      reflexivity.
Defined.
